(** * Subtitle pipeline of [app.py]: timestamps, translation, WebVTT emission

    A shallow embedding of the functions of [src/app.py] and proofs about
    them.  Python numbers are modelled as they are at run time: [int] as
    [Z], [float] as an IEEE-754 binary64 value ([spec_float] of the
    Standard Library at precision 53 and [emax] 1024, every operation
    correctly rounded to nearest-even).  Python [str] values are modelled
    by their UTF-8 bytes, which is also what [open(..., encoding="utf-8")]
    puts into the file; the line feed is the single byte 10. *)

From Stdlib Require Import ZArith Lia List Ascii String DecimalString DecimalFacts DecimalPos
  DecimalN SpecFloat.
From stdpp Require Import base option list strings gmap.

Open Scope Z_scope.

(** ** Exceptions and results *)

Inductive exn :=
| ValueError | OverflowError | ZeroDivisionError
| FileNotFoundError | PermissionError | IsADirectoryError
| OSError (msg : string)
| ExternalError (msg : string).

Inductive res (A : Type) :=
| Ok (a : A)
| Raise (e : exn).
Arguments Ok {A} a.
Arguments Raise {A} e.

Definition res_bind {A B} (r : res A) (k : A -> res B) : res B :=
  match r with Ok a => k a | Raise e => Raise e end.

Declare Scope res_scope.
Delimit Scope res_scope with res.
Notation "'let?' x ':=' r 'in' k" := (res_bind r (fun x => k))
  (at level 10, x name, r at level 100, k at level 200) : res_scope.

(** ** Binary64 floats *)

Module F64.

Definition prec : Z := 53.
Definition emax : Z := 1024.

Definition add := SFadd prec emax.
Definition sub := SFsub prec emax.
Definition mul := SFmul prec emax.
Definition div := SFdiv prec emax.
Definition valid := valid_binary prec emax.

(** The float nearest to an integer ([PyLong_AsDouble], [float(n)]). *)
Definition of_Z (n : Z) : spec_float := binary_normalize prec emax n 0 false.

(** A decimal literal [num/den] with [den] a power of ten: Python reads a
    literal as the float nearest to its decimal value, which is what the
    correctly rounded quotient of two exactly representable integers is. *)
Definition literal (num den : Z) : spec_float := div (of_Z num) (of_Z den).

Definition is_finite (x : spec_float) : bool :=
  match x with S754_zero _ | S754_finite _ _ _ => true | _ => false end.

(** C truth value of a double: [if (x)] holds when [x != 0.0], NaN included. *)
Definition nonzero (x : spec_float) : bool :=
  match x with S754_zero _ => false | _ => true end.

(** [x < 0.0] in C: false on NaN and on both zeros. *)
Definition lt0 (x : spec_float) : bool :=
  match x with
  | S754_finite true _ _ | S754_infinity true => true
  | _ => false
  end.

Definition signbit (x : spec_float) : bool :=
  match x with
  | S754_zero s | S754_infinity s | S754_finite s _ _ => s
  | S754_nan => false
  end.

(** [copysign(0.0, y)]. *)
Definition zero_like (y : spec_float) : spec_float := S754_zero (signbit y).

(** C [fmod]: the exact remainder [x - n*y] with [n] the quotient truncated
    toward zero; it carries the sign of [x] and is always representable. *)
Definition fmod (x y : spec_float) : spec_float :=
  match x, y with
  | S754_nan, _ | _, S754_nan => S754_nan
  | S754_infinity _, _ => S754_nan
  | _, S754_zero _ => S754_nan
  | _, S754_infinity _ => x
  | S754_zero _, _ => x
  | S754_finite sx mx ex, S754_finite _ my ey =>
      let ez := Z.min ex ey in
      let r := (Z.pos mx * 2 ^ (ex - ez)) mod (Z.pos my * 2 ^ (ey - ez)) in
      match r with
      | Z0 => S754_zero sx
      | _ => binary_normalize prec emax (cond_Zopp sx r) ez false
      end
  end.

(** C [floor]: the largest integral value not above [x]. *)
Definition floor (x : spec_float) : spec_float :=
  match x with
  | S754_finite s m e =>
      if 0 <=? e then x
      else if (Z.pos m mod 2 ^ (- e)) =? 0 then x
      else binary_normalize prec emax (cond_Zopp s (Z.pos m) / 2 ^ (- e)) 0 s
  | _ => x
  end.

(** The integer part, truncated toward zero, of a finite float. *)
Definition trunc (x : spec_float) : option Z :=
  match x with
  | S754_zero _ => Some 0
  | S754_finite s m e =>
      Some (cond_Zopp s (if 0 <=? e then Z.pos m * 2 ^ e else Z.pos m / 2 ^ (- e)))
  | _ => None
  end.

Definition half : spec_float := literal 5 10.
Definition one : spec_float := of_Z 1.

(** CPython's [_float_div_mod] (floatobject.c), which [float_floor_div]
    calls after rejecting a zero divisor. *)
Definition float_div_mod (vx wx : spec_float) : spec_float * spec_float :=
  let mod0 := fmod vx wx in
  let div0 := div (sub vx mod0) wx in
  let '(mod1, div1) :=
    if nonzero mod0 then
      if negb (Bool.eqb (lt0 wx) (lt0 mod0)) then (add mod0 wx, sub div0 one)
      else (mod0, div0)
    else (zero_like wx, div0) in
  let floordiv :=
    if nonzero div1 then
      let fl := floor div1 in
      if SFltb half (sub div1 fl) then add fl one else fl
    else zero_like (div vx wx) in
  (floordiv, mod1).

(** CPython's [float_rem]. *)
Definition float_rem (vx wx : spec_float) : spec_float :=
  let mod0 := fmod vx wx in
  if nonzero mod0 then
    if negb (Bool.eqb (lt0 wx) (lt0 mod0)) then add mod0 wx else mod0
  else zero_like wx.

(** *** Vocabulary for the proofs about these operations *)

Definition emin : Z := -1074.

(** The exponent the format gives a number of magnitude below [2^e]. *)
Definition fexp (e : Z) : Z := Z.max (e - 53) emin.

(** The value of a float counted in units of [2^emin], of which every
    finite binary64 number is a whole multiple. *)
Definition units (m e : Z) : Z := m * 2 ^ (e - emin).

(** The units in one. *)
Definition U : Z := 2 ^ 1074.

Definition Zval (x : spec_float) : Z :=
  match x with
  | S754_finite _ m e => units (Z.pos m) e
  | _ => 0
  end.

(** The number of low bits a count of units must have free to fit the
    53 bits of a mantissa. *)
Definition slack (n : Z) : Z := Z.max (Zdigits2 n - 53) 0.

(** The float of [n] units, for an [n] that needs no rounding. *)
Definition canon (n : Z) : spec_float :=
  S754_finite false (Z.to_pos (n / 2 ^ slack n)) (emin + slack n).

Definition fits (n : Z) : Prop :=
  0 < n /\ n mod 2 ^ slack n = 0 /\ Zdigits2 n <= 2098.

(** A finite float that is not negative, with a mantissa of at most 53
    bits and an exponent in range, below [2^B]. *)
Definition nn (B : Z) (x : spec_float) : Prop :=
  match x with
  | S754_zero _ => True
  | S754_finite false m e =>
      Zdigits2 (Z.pos m) <= 53 /\ emin <= e <= 971 /\ Zdigits2 (Z.pos m) + e <= B
  | _ => False
  end.

(** The end of [float_div_mod], from the difference [vx - mod] on, when
    neither the divisor nor the remainder is negative. *)
Definition fd_snap (div1 : spec_float) : spec_float :=
  let fl := floor div1 in
  if SFltb half (sub div1 fl) then add fl one else fl.

Definition fd_tail (vx wx d0 : spec_float) : spec_float :=
  let div1 := div d0 wx in
  if nonzero div1 then fd_snap div1 else zero_like (div vx wx).

End F64.

(** ** Python numbers and the operators [format_timestamp] uses *)

Inductive pynum :=
| PyInt (n : Z)
| PyFloat (x : spec_float).

Open Scope res_scope.

(** Conversion of an operand to float for mixed arithmetic. *)
Definition as_float (a : pynum) : res spec_float :=
  match a with
  | PyFloat x => Ok x
  | PyInt n =>
      match F64.of_Z n with
      | S754_infinity _ => Raise OverflowError
      | x => Ok x
      end
  end.

(** [a // b] *)
Definition py_floordiv (a b : pynum) : res pynum :=
  match a, b with
  | PyInt x, PyInt y =>
      if y =? 0 then Raise ZeroDivisionError else Ok (PyInt (x / y))
  | _, _ =>
      let? vx := as_float a in
      let? wx := as_float b in
      if F64.nonzero wx then Ok (PyFloat (fst (F64.float_div_mod vx wx)))
      else Raise ZeroDivisionError
  end.

(** [a % b] *)
Definition py_mod (a b : pynum) : res pynum :=
  match a, b with
  | PyInt x, PyInt y =>
      if y =? 0 then Raise ZeroDivisionError else Ok (PyInt (x mod y))
  | _, _ =>
      let? vx := as_float a in
      let? wx := as_float b in
      if F64.nonzero wx then Ok (PyFloat (F64.float_rem vx wx))
      else Raise ZeroDivisionError
  end.

(** [a * b] *)
Definition py_mul (a b : pynum) : res pynum :=
  match a, b with
  | PyInt x, PyInt y => Ok (PyInt (x * y))
  | _, _ =>
      let? vx := as_float a in
      let? wx := as_float b in
      Ok (PyFloat (F64.mul vx wx))
  end.

(** [int(a)]: truncation toward zero; NaN and the infinities raise. *)
Definition py_int (a : pynum) : res Z :=
  match a with
  | PyInt n => Ok n
  | PyFloat S754_nan => Raise ValueError
  | PyFloat (S754_infinity _) => Raise OverflowError
  | PyFloat x =>
      match F64.trunc x with Some n => Ok n | None => Raise ValueError end
  end.

(** ** Formatting an [int] with the format specs [02] and [03] *)

Definition nl : string := String "010"%char EmptyString.

(** The decimal digits of an [int] that is not negative. *)
Definition str_of_nonneg (n : Z) : string :=
  NilZero.string_of_uint (N.to_uint (Z.to_N n)).

Fixpoint zeros (k : nat) : string :=
  match k with
  | O => EmptyString
  | S k' => String "0"%char (zeros k')
  end.

Definition zfill (width : nat) (s : string) : string :=
  zeros (width - String.length s) +:+ s.

(** What [format(n, "0<width>")] returns when it returns: the digits
    with sign-aware zero padding to a minimum width. *)
Definition format_int0 (width : nat) (n : Z) : string :=
  if n <? 0 then "-" +:+ zfill (width - 1) (str_of_nonneg (- n))
  else zfill width (str_of_nonneg n).

(** CPython does not convert an [int] of more than 4300 decimal digits
    to a string: the conversion raises [ValueError].  The limit is
    [sys.int_info.default_max_str_digits], counted on the digits without
    the sign, in CPython 3.11 and later and in the security releases of
    3.7 to 3.10; [app.py] leaves it as it is. *)
Definition max_str_digits : nat := 4300.

(** [format(n, "0<width>")], which is what the replacement field
    [{n:0<width>}] of an f-string calls. *)
Definition py_format_int0 (width : nat) (n : Z) : res string :=
  if (max_str_digits <? String.length (str_of_nonneg (Z.abs n)))%nat then Raise ValueError
  else Ok (format_int0 width n).

(** ** [format_timestamp] (app.py, lines 54-60) *)

Definition format_timestamp (seconds : pynum) : res string :=
  let? q := py_floordiv seconds (PyInt 3600) in
  let? hrs := py_int q in
  let? r := py_mod seconds (PyInt 3600) in
  let? q := py_floordiv r (PyInt 60) in
  let? mins := py_int q in
  let? r := py_mod seconds (PyInt 60) in
  let? secs := py_int r in
  let? p := py_mul seconds (PyInt 1000) in
  let? r := py_mod p (PyInt 1000) in
  let? ms := py_int r in
  let? HH := py_format_int0 2 hrs in
  let? MM := py_format_int0 2 mins in
  let? SS := py_format_int0 2 secs in
  let? mmm := py_format_int0 3 ms in
  Ok (HH +:+ ":" +:+ MM +:+ ":" +:+ SS +:+ "." +:+ mmm).


(** ** Segments *)

(** A transcribed segment as the speech model yields it (attributes
    [start], [end], [text]). *)
Record Segment := {
  seg_start : pynum;
  seg_end : pynum;
  seg_text : string
}.

(** The dict [{"start": .., "end": .., "text": ..}] that
    [translate_segments] builds for each segment. *)
Record TranslatedSegment := {
  start : pynum;
  end_ : pynum;
  text : string
}.

(** ** The world the pipeline runs in *)

(** [files] maps a path to the file's content; [ext] is the state of
    everything outside the process (the translation service, the speech
    model, the operating system); [translate_log] records, in order, the
    [(text, dest)] arguments of every call made to the translator; [ui]
    is what was sent to the page. *)
Record world (Ext : Type) := World {
  files : gmap string string;
  ext : Ext;
  translate_log : list (string * string);
  ui : list string
}.
Arguments World {Ext} _ _ _ _.
Arguments files {Ext} _.
Arguments ext {Ext} _.
Arguments translate_log {Ext} _.
Arguments ui {Ext} _.

(** Computations that read and change the world and may raise: what was
    done before an exception stays done. *)
Definition M (Ext A : Type) : Type := world Ext -> res A * world Ext.

Definition ret {Ext A} (a : A) : M Ext A := fun w => (Ok a, w).

Definition raise {Ext A} (e : exn) : M Ext A := fun w => (Raise e, w).

Definition bind {Ext A B} (m : M Ext A) (k : A -> M Ext B) : M Ext B :=
  fun w =>
    match m w with
    | (Ok a, w') => k a w'
    | (Raise e, w') => (Raise e, w')
    end.

Definition lift {Ext A} (r : res A) : M Ext A := fun w => (r, w).

Declare Scope m_scope.
Delimit Scope m_scope with M.
Notation "x <- m ;; k" := (bind m (fun x => k))
  (at level 100, m at next level, right associativity) : m_scope.
Notation "m ;;; k" := (bind m (fun _ => k))
  (at level 100, right associativity) : m_scope.

Open Scope m_scope.

(** A [for] loop over a list: the body runs on each element in order and
    the first exception ends the loop. *)
Fixpoint for_each {Ext A} (l : list A) (body : A -> M Ext unit) : M Ext unit :=
  match l with
  | [] => ret tt
  | x :: rest => body x ;;; for_each rest body
  end.

(** *** Files

    The file system is a map from paths to contents.  Whether a path can
    be opened for writing is for the operating system to say.  A write
    to a file that is open succeeds (the disk does not fill up), and a
    line feed is written as it is, as on POSIX systems. *)

(** [open(path, "w")].  [os_open_w] is the answer of the operating
    system to the request: it grants it, or refuses it with the
    exception [open] then raises ([FileNotFoundError] where the
    directory is missing, [IsADirectoryError], [PermissionError]).  Once
    granted, the file is created, or emptied when it exists. *)
Definition open_w {Ext} (os_open_w : string -> Ext -> res unit) (path : string) : M Ext unit :=
  fun w =>
    match os_open_w path (ext w) with
    | Ok _ =>
        (Ok tt, World (<[path := EmptyString]> (files w)) (ext w) (translate_log w) (ui w))
    | Raise x => (Raise x, w)
    end.

(** [f.write(s)] on a file opened for writing: [s] goes to its end. *)
Definition f_write {Ext} (path s : string) : M Ext unit :=
  fun w =>
    let old := default EmptyString (files w !! path) in
    (Ok tt, World (<[path := old +:+ s]> (files w)) (ext w) (translate_log w) (ui w)).

(** [open(path, "rb").read()] *)
Definition read_file {Ext} (path : string) : M Ext string :=
  fun w =>
    match files w !! path with
    | Some c => (Ok c, w)
    | None => (Raise FileNotFoundError, w)
    end.

(** [os.remove(path)] *)
Definition os_remove {Ext} (path : string) : M Ext unit :=
  fun w =>
    match files w !! path with
    | Some _ => (Ok tt, World (delete path (files w)) (ext w) (translate_log w) (ui w))
    | None => (Raise FileNotFoundError, w)
    end.

(** A call of a [st.*] display function.  ([st.spinner] only shows a
    progress indicator while its block runs and is left out.) *)
Definition st_show {Ext} (s : string) : M Ext unit :=
  fun w => (Ok tt, World (files w) (ext w) (translate_log w) (ui w ++ [s])).

Definition dq : string := String "034"%char EmptyString.

(** The check mark U+2705 that opens the last message, in UTF-8. *)
Definition check_mark : string :=
  String "226"%char (String "156"%char (String "133"%char EmptyString)).

Definition upper_ascii (c : ascii) : ascii :=
  let n := nat_of_ascii c in
  if andb (Nat.leb 97 n) (Nat.leb n 122) then ascii_of_nat (n - 32) else c.

(** [str.upper] on the ASCII letters, which is all a language code has. *)
Fixpoint upper (s : string) : string :=
  match s with
  | EmptyString => EmptyString
  | String c r => String (upper_ascii c) (upper r)
  end.

Section Pipeline.

Context {Ext : Type}.

(** What the program calls and does not define. *)

(** Running a command line: either the process cannot be started and the
    launch raises, or it runs to its end and yields its exit status; the
    process may have changed files on the way. *)
Variable spawn : list string -> gmap string string -> Ext ->
                 res Z * gmap string string * Ext.

(** [whisper_model.transcribe(path, language=lang)], read out to its end. *)
Variable whisper_transcribe : string -> string -> gmap string string -> Ext ->
                              res (list Segment) * Ext.

(** [translator.translate(text, dest=lang).text] *)
Variable translator_translate : string -> string -> Ext -> res string * Ext.

(** The name [tempfile.NamedTemporaryFile] picks for a given suffix. *)
Variable temp_name : string -> gmap string string -> Ext -> string * Ext.

(** [base64.b64encode(bytes).decode()] *)
Variable b64encode : string -> string.

(** What the operating system answers when asked to open a path for
    writing. *)
Variable os_open_w : string -> Ext -> res unit.

Definition subprocess_run (cmd : list string) : M Ext Z :=
  fun w =>
    let '(r, fs, e) := spawn cmd (files w) (ext w) in
    (r, World fs e (translate_log w) (ui w)).

Definition translate (txt dest : string) : M Ext string :=
  fun w =>
    let '(r, e) := translator_translate txt dest (ext w) in
    (r, World (files w) e (translate_log w ++ [(txt, dest)]) (ui w)).

Definition named_temporary_file (suffix : string) : M Ext string :=
  fun w =>
    let '(name, e) := temp_name suffix (files w) (ext w) in
    (Ok name, World (<[name := EmptyString]> (files w)) e (translate_log w) (ui w)).

(** *** [extract_audio] (lines 23-26) *)

Definition extract_audio (video_path audio_path : string) : M Ext unit :=
  let cmd := ["ffmpeg"; "-y"; "-i"; video_path; "-vn"; "-acodec"; "mp3"; audio_path]%string in
  subprocess_run cmd ;;; ret tt.

(** *** [transcribe_audio] (lines 28-31) *)

Definition transcribe_audio (audio_path source_lang : string) : M Ext (list Segment) :=
  fun w =>
    let '(r, e) := whisper_transcribe audio_path source_lang (files w) (ext w) in
    (r, World (files w) e (translate_log w) (ui w)).

(** *** [translate_segments] (lines 33-43) *)

(** The loop, with the list [translated_segments] built so far. *)
Fixpoint translate_loop (segments : list Segment) (target_lang : string)
    (translated_segments : list TranslatedSegment) : M Ext (list TranslatedSegment) :=
  match segments with
  | [] => ret translated_segments
  | seg :: rest =>
      txt <- translate (seg_text seg) target_lang ;;
      translate_loop rest target_lang
        (translated_segments ++
           [{| start := seg_start seg; end_ := seg_end seg; text := txt |}])
  end.

Definition translate_segments (segments : list Segment) (target_lang : string)
    : M Ext (list TranslatedSegment) :=
  translate_loop segments target_lang [].

(** *** [create_vtt] (lines 45-52) *)

Definition vtt_header : string := "WEBVTT" +:+ nl +:+ nl.

(** The string the loop body hands to [f.write] for one segment. *)
Definition cue_text (start_time end_time txt : string) : string :=
  start_time +:+ " --> " +:+ end_time +:+ nl +:+ txt +:+ nl +:+ nl.

Definition cue_block (seg : TranslatedSegment) : res string :=
  (let? start_time := format_timestamp (start seg) in
   let? end_time := format_timestamp (end_ seg) in
   Ok (cue_text start_time end_time (text seg)))%res.

Definition write_cue (file_path : string) (seg : TranslatedSegment) : M Ext unit :=
  c <- lift (cue_block seg) ;;
  f_write file_path c.

Definition create_vtt (segments : list TranslatedSegment) (file_path : string) : M Ext unit :=
  open_w os_open_w file_path ;;;
  f_write file_path vtt_header ;;;
  for_each segments (write_cue file_path).

(** *** [get_base64] (lines 62-64) *)

Definition get_base64 (file_path : string) : M Ext string :=
  c <- read_file file_path ;; ret (b64encode c).

(** *** The job started by the button (lines 73-119) *)

Definition video_html (video_data_uri subs_data_uri target_lang : string) : string :=
  nl +:+ "    <video controls width=" +:+ dq +:+ "640" +:+ dq +:+ " style=" +:+ dq
  +:+ "border-radius:10px;" +:+ dq +:+ " crossorigin=" +:+ dq +:+ "anonymous" +:+ dq
  +:+ ">" +:+ nl
  +:+ "        <source src=" +:+ dq +:+ video_data_uri +:+ dq +:+ " type=" +:+ dq
  +:+ "video/mp4" +:+ dq +:+ ">" +:+ nl
  +:+ "        <track src=" +:+ dq +:+ subs_data_uri +:+ dq +:+ " kind=" +:+ dq
  +:+ "subtitles" +:+ dq +:+ " srclang=" +:+ dq +:+ target_lang +:+ dq +:+ " label=" +:+ dq
  +:+ upper target_lang +:+ dq +:+ " default>" +:+ nl
  +:+ "        Your browser does not support the video tag." +:+ nl
  +:+ "    </video>" +:+ nl +:+ "    ".

(** Lines 74-87: the temporary files, audio extraction, transcription. *)
Definition job_prepare (uploaded_video source_lang : string)
    : M Ext (string * string * string * list Segment) :=
  video_path <- named_temporary_file ".mp4" ;;
  f_write video_path uploaded_video ;;;
  temp_audio <- named_temporary_file ".mp3" ;;
  temp_subs <- named_temporary_file ".vtt" ;;
  extract_audio video_path temp_audio ;;;
  segments <- transcribe_audio temp_audio source_lang ;;
  ret (video_path, temp_audio, temp_subs, segments).

(** Lines 94-119: the subtitle file, the player, the cleanup. *)
Definition job_finish (video_path temp_audio temp_subs target_lang : string)
    (translated_segments : list TranslatedSegment) : M Ext unit :=
  create_vtt translated_segments temp_subs ;;;
  video_b64 <- get_base64 video_path ;;
  subs_b64 <- get_base64 temp_subs ;;
  st_show "---" ;;;
  st_show "Preview with Subtitles" ;;;
  st_show (video_html ("data:video/mp4;base64," +:+ video_b64)
                      ("data:text/vtt;base64," +:+ subs_b64) target_lang) ;;;
  st_show (check_mark +:+ " Done! Subtitles are shown in the player.") ;;;
  os_remove video_path ;;;
  os_remove temp_audio ;;;
  os_remove temp_subs.

Definition job (uploaded_video source_lang target_lang : string) : M Ext unit :=
  prepared <- job_prepare uploaded_video source_lang ;;
  let '(video_path, temp_audio, temp_subs, segments) := prepared in
  translated_segments <- translate_segments segments target_lang ;;
  job_finish video_path temp_audio temp_subs target_lang translated_segments.

End Pipeline.

Arguments extract_audio {Ext} spawn video_path audio_path.
Arguments subprocess_run {Ext} spawn cmd.

(** ** A small world to run the pipeline in *)

Module Demo.

Definition float (num den : Z) : pynum := PyFloat (F64.literal num den).

(** The two segments of the scenario of the specification. *)
Definition hello_world : list Segment :=
  [ {| seg_start := float 0 10; seg_end := float 12 10; seg_text := "Hello" |};
    {| seg_start := float 12 10; seg_end := float 30 10; seg_text := "World" |} ].

(** A translation service that knows two words of French. *)
Definition french (txt dest : string) (e : unit) : res string * unit :=
  if String.eqb dest "fr" then
    if String.eqb txt "Hello" then (Ok "Bonjour"%string, e)
    else if String.eqb txt "World" then (Ok "Monde"%string, e)
    else (Raise (ExternalError "unknown word"), e)
  else (Raise (ExternalError "unsupported language pair"), e).

(** A service that is cut off after its first answer. *)
Definition rate_limited (txt dest : string) (calls : nat) : res string * nat :=
  match calls with
  | O => (Ok ("<" +:+ txt +:+ ">"), S calls)
  | _ => (Raise (ExternalError "rate limit"), S calls)
  end.

(** A machine on which the transcoder is not installed. *)
Definition no_ffmpeg {Ext} (cmd : list string) (fs : gmap string string) (e : Ext)
    : res Z * gmap string string * Ext :=
  (Raise FileNotFoundError, fs, e).

(** A transcoder that finds no audio stream: it exits with status 1 and
    writes nothing. *)
Definition ffmpeg_no_audio {Ext} (cmd : list string) (fs : gmap string string) (e : Ext)
    : res Z * gmap string string * Ext :=
  (Ok 1, fs, e).

Definition whisper_hello (path lang : string) (fs : gmap string string) (e : nat)
    : res (list Segment) * nat :=
  (Ok hello_world, e).

Definition temp_name (suffix : string) (fs : gmap string string) (e : nat) : string * nat :=
  ("/tmp/tmp" +:+ suffix, e).

Definition b64 (s : string) : string := s.

(** A system on which every path can be opened for writing. *)
Definition grants {Ext} (path : string) (e : Ext) : res unit := Ok tt.

Definition empty_world {Ext} (e : Ext) : world Ext := World ∅ e [] [].

End Demo.

(** ** Vocabulary of the statements *)

Fixpoint join (l : list string) : string :=
  match l with
  | [] => EmptyString
  | x :: r => x +:+ join r
  end.


(** [c] occurs in [s]. *)
Fixpoint occurs (c : ascii) (s : string) : bool :=
  match s with
  | EmptyString => false
  | String d r => Ascii.eqb c d || occurs c r
  end.

(** The number a string of decimal digits denotes, leading zeros allowed. *)
Definition decimal_value (s : string) : option Z :=
  option_map (fun d => Z.of_N (N.of_uint d)) (NilZero.uint_of_string s).

(** The least magnitude of an [int] that has more than 4300 digits. *)
Definition str_limit : Z := 10 ^ Z.of_nat max_str_digits.

(** The seconds values [format_timestamp] renders: the [int]s from zero
    up whose hours have at most 4300 digits, and the floats from zero up
    whose product with 1000 is still finite.  (Every Python float is a
    valid binary64 number.) *)
Definition seconds_ok (s : pynum) : Prop :=
  match s with
  | PyInt n => 0 <= n < 3600 * str_limit
  | PyFloat x =>
      F64.valid x = true /\ F64.is_finite x = true /\ F64.lt0 x = false /\
      F64.is_finite (F64.mul x (F64.of_Z 1000)) = true
  end.

(** [ts] is what the loop body of [translate_segments] appends for [seg]:
    the timing of [seg] and a text the translator returned for the text
    of [seg]. *)
Definition translated_from {Ext : Type}
    (translator_translate : string -> string -> Ext -> res string * Ext)
    (target_lang : string) (seg : Segment) (ts : TranslatedSegment) : Prop :=
  start ts = seg_start seg /\ end_ ts = seg_end seg /\
  exists e e', translator_translate (seg_text seg) target_lang e = (Ok (text ts), e').

(** The arguments of the call made to the translator for [seg]. *)
Definition call_of (target_lang : string) (seg : Segment) : string * string :=
  (seg_text seg, target_lang).

(** [stamps] holds the renderings of the two times of [seg]. *)
Definition stamped (seg : TranslatedSegment) (stamps : string * string) : Prop :=
  format_timestamp (start seg) = Ok (fst stamps) /\
  format_timestamp (end_ seg) = Ok (snd stamps).


(** The check made for each whole number of minutes below sixty. *)
Definition minute_ok (k : nat) : bool :=
  let div1 := F64.div (F64.of_Z (60 * Z.of_nat k)) (F64.of_Z 60) in
  F64.nonzero div1 &&
  match py_int (PyFloat (F64.fd_snap div1)) with
  | Ok n => n =? Z.of_nat k
  | Raise _ => false
  end.

(** The numeral of [k] digits, lowest first, of a number below [10^k]
    (for the proofs about the number of digits). *)
Definition little_digit (r : N) (d : Decimal.uint) : Decimal.uint :=
  match r with
  | 0 => Decimal.D0 d | 1 => Decimal.D1 d | 2 => Decimal.D2 d | 3 => Decimal.D3 d
  | 4 => Decimal.D4 d | 5 => Decimal.D5 d | 6 => Decimal.D6 d | 7 => Decimal.D7 d
  | 8 => Decimal.D8 d | _ => Decimal.D9 d
  end%N.

Fixpoint little_digits (k : nat) (m : N) : Decimal.uint :=
  match k with
  | O => Decimal.Nil
  | S k' => little_digit (m mod 10) (little_digits k' (m / 10))
  end.

(** ** Reading a subtitle file back

    What follows is not code of [app.py]: it is the reader's side of the
    subtitle format, after the parsing rules of WebVTT, and serves to say
    what the cue blocks of a written file are.  A line ends at a line
    feed, at a carriage return, or at the two together.  The first line
    is the signature.  After it, a line that holds the arrow [-->] ends
    the cue being read and opens the next one, whose timing line it is;
    the lines that follow are the text of the cue, up to an empty line or
    to the next line with an arrow.  A cue is kept when its timing line
    is two timestamps with the arrow between them, set off by spaces or
    tabs (a reader of the standard also takes the arrow without spaces
    around it).  Any other line outside a cue (an identifier, a note, a
    style) is passed over, and so is the text under a timing line that
    is not well formed.  Cue settings after the second timestamp are not
    looked at, and the tags of the cue text are not interpreted. *)

Module WebVTT.







Definition is_digit (c : ascii) : bool :=
  (48 <=? nat_of_ascii c)%nat && (nat_of_ascii c <=? 57)%nat.

Fixpoint all_digits (s : string) : bool :=
  match s with
  | EmptyString => true
  | String c r => is_digit c && all_digits r
  end.

(** [s] cut at its first [c]. *)
Fixpoint cut_at (c : ascii) (s : string) : option (string * string) :=
  match s with
  | EmptyString => None
  | String d r =>
      if Ascii.eqb d c then Some (EmptyString, r)
      else
        match cut_at c r with
        | Some (a, b) => Some (String d a, b)
        | None => None
        end
  end.

(** Two digits that denote a number below sixty. *)
Definition sixtieth (s : string) : bool :=
  match s with
  | String a (String b EmptyString) =>
      is_digit a && (nat_of_ascii a <=? 53)%nat && is_digit b
  | _ => false
  end.

(** A timestamp: hours of one digit or more (they may be left out),
    minutes and seconds of two digits below sixty, and three digits of
    milliseconds. *)
Definition is_timestamp (s : string) : bool :=
  match cut_at "." s with
  | Some (hms, ms) =>
      all_digits ms && (String.length ms =? 3)%nat &&
      match cut_at ":" hms with
      | Some (a, rest) =>
          match cut_at ":" rest with
          | Some (mm, ss) =>
              all_digits a && (1 <=? String.length a)%nat && sixtieth mm && sixtieth ss
          | None => sixtieth a && sixtieth rest
          end
      | None => false
      end
  | None => false
  end.









(** A string without a space or a tab. *)
Definition no_space (s : string) : bool := negb (occurs " " s) && negb (occurs "009" s).

(** A string that stays on one line. *)
Definition one_line (s : string) : bool :=
  negb (occurs "010" s) && negb (occurs "013" s).


End WebVTT.

(** ** Vocabulary of the further properties *)

(** The multiple of [G] nearest to [A], counted in [G]s; half-way, the
    even one. *)
Definition round_to_grid (A G : Z) : Z :=
  A / G + (if (G <? 2 * (A mod G)) || ((2 * (A mod G) =? G) && Z.odd (A / G)) then 1 else 0).

(** The whole seconds in a seconds value that is not negative. *)
Definition whole_seconds (s : pynum) : Z :=
  match s with
  | PyInt n => n
  | PyFloat x => F64.Zval x / F64.U
  end.

(** The command line [extract_audio] runs. *)
Definition ffmpeg_cmd (video_path audio_path : string) : list string :=
  ["ffmpeg"; "-y"; "-i"; video_path; "-vn"; "-acodec"; "mp3"; audio_path]%string.

(** The file system once the job has made its three temporary files,
    named [video_path], [temp_audio] and [temp_subs] in that order. *)
Definition temp_files (uploaded_video video_path temp_audio temp_subs : string)
    (fs : gmap string string) : gmap string string :=
  <[temp_subs := EmptyString]>
    (<[temp_audio := EmptyString]> (<[video_path := uploaded_video]> fs)).

(** What the page shows when the job gets to its end. *)
Definition player_page (video_b64 subs_b64 target_lang : string) : list string :=
  [ "---"; "Preview with Subtitles";
    video_html ("data:video/mp4;base64," +:+ video_b64)
               ("data:text/vtt;base64," +:+ subs_b64) target_lang;
    check_mark +:+ " Done! Subtitles are shown in the player." ]%string.

(** The whole milliseconds in the exact value of a float that is not
    negative. *)
Definition exact_milliseconds (x : spec_float) : Z := 1000 * F64.Zval x / F64.U.

(** ** More of the small world *)

Module Sample.

(** A translation service that always answers, tagging the text with the
    language asked for, and counts its calls. *)
Definition echo (txt dest : string) (calls : nat) : res string * nat :=
  (Ok (dest +:+ ":" +:+ txt), S calls).



(** A speech model that cannot read the audio file it is given. *)
Definition whisper_rejects (path lang : string) (fs : gmap string string) (e : nat)
    : res (list Segment) * nat :=
  (Raise (ExternalError "invalid audio"), e).

End Sample.

(** * Facts

    ** Strings *)

Lemma app_cons (ch : ascii) (a b : string) : String ch a +:+ b = String ch (a +:+ b).
Proof. reflexivity. Qed.

Lemma app_empty_l (a : string) : EmptyString +:+ a = a.
Proof. reflexivity. Qed.

Lemma app_assoc_s (a b c : string) : (a +:+ b) +:+ c = a +:+ (b +:+ c).
Proof.
  induction a as [|ch a IH]; [reflexivity|].
  now rewrite !app_cons, IH.
Qed.

Lemma app_empty_r (a : string) : a +:+ EmptyString = a.
Proof.
  induction a as [|ch a IH]; [reflexivity|].
  now rewrite app_cons, IH.
Qed.


Lemma length_app_s (a b : string) :
  String.length (a +:+ b) = (String.length a + String.length b)%nat.
Proof.
  induction a as [|ch a IH]; [reflexivity|].
  rewrite app_cons. simpl. now rewrite IH.
Qed.

(** ** The monad *)

Section MonadFacts.
Context {Ext : Type}.

Lemma bind_ok {A B} (m : M Ext A) (k : A -> M Ext B) w a w' :
  m w = (Ok a, w') -> bind m k w = k a w'.
Proof. unfold bind. now intros ->. Qed.

Lemma bind_raise {A B} (m : M Ext A) (k : A -> M Ext B) w e w' :
  m w = (Raise e, w') -> bind m k w = (Raise e, w').
Proof. unfold bind. now intros ->. Qed.

End MonadFacts.

(** ** [translate_segments] *)

Section TranslateFacts.
Context {Ext : Type}.
Variable translator_translate : string -> string -> Ext -> res string * Ext.

Lemma translate_loop_ok segments : forall target_lang acc w out w',
  translate_loop translator_translate segments target_lang acc w = (Ok out, w') ->
  exists new,
    out = acc ++ new /\
    Forall2 (translated_from translator_translate target_lang) segments new /\
    files w' = files w /\ ui w' = ui w /\
    translate_log w' = translate_log w ++ map (call_of target_lang) segments.
Proof.
  induction segments as [|seg rest IH]; intros tgt acc w out w' H; simpl in H.
  - unfold ret in H. inversion H; subst. exists []. rewrite !app_nil_r.
    repeat split; constructor.
  - unfold bind, translate in H.
    destruct (translator_translate (seg_text seg) tgt (ext w)) as [[txt|x] e] eqn:Hcall;
      [|discriminate].
    apply IH in H. destruct H as (new & -> & Hall & Hf & Hu & Hl). simpl in *.
    exists ({| start := seg_start seg; end_ := seg_end seg; text := txt |} :: new).
    rewrite <- app_assoc. split; [reflexivity|]. split.
    + constructor; [|exact Hall]. repeat split. simpl. eauto.
    + repeat split; try assumption. rewrite Hl, <- app_assoc. reflexivity.
Qed.

(** The calls before [seg] succeed and the call for [seg] raises: the
    loop ends there with that exception. *)
Lemma translate_loop_raise pre : forall seg post target_lang acc w out1 w1 x e2,
  translate_loop translator_translate pre target_lang acc w = (Ok out1, w1) ->
  translator_translate (seg_text seg) target_lang (ext w1) = (Raise x, e2) ->
  translate_loop translator_translate (pre ++ seg :: post) target_lang acc w
  = (Raise x, World (files w1) e2
                (translate_log w1 ++ [call_of target_lang seg]) (ui w1)).
Proof.
  induction pre as [|s pre IH]; intros seg post tgt acc w out1 w1 x e2 Hpre Hcall.
  - simpl in Hpre. unfold ret in Hpre. inversion Hpre; subst. simpl.
    unfold bind, translate. rewrite Hcall. reflexivity.
  - simpl in Hpre |- *. unfold bind, translate in Hpre |- *.
    destruct (translator_translate (seg_text s) tgt (ext w)) as [[txt|y] e] eqn:Hs;
      [|discriminate].
    eapply IH; eassumption.
Qed.


End TranslateFacts.

(** ** [create_vtt] *)

Lemma cue_block_stamped seg stamps :
  stamped seg stamps ->
  cue_block seg = Ok (cue_text (fst stamps) (snd stamps) (text seg)).
Proof. intros [H1 H2]. unfold cue_block. rewrite H1, H2. reflexivity. Qed.



Section CreateVttFacts.
Context {Ext : Type}.

(** The loop of [create_vtt] on segments whose cue blocks are [cues]:
    every block is appended to the file, in order. *)
Lemma write_cues_ok (file_path : string) segments : forall cues (w : world Ext) old,
  Forall2 (fun seg c => cue_block seg = Ok c) segments cues ->
  files w !! file_path = Some old ->
  for_each segments (write_cue file_path) w
  = (Ok tt, World (<[file_path := old +:+ join cues]> (files w))
              (ext w) (translate_log w) (ui w)).
Proof.
  induction segments as [|seg rest IH]; intros cues w old Hall Hold.
  - inversion Hall; subst. simpl. unfold ret. rewrite app_empty_r.
    rewrite insert_id by exact Hold. now destruct w.
  - inversion Hall as [|? c ? cues' Hc Hrest]; subst. simpl.
    unfold bind at 1. unfold write_cue, bind, lift. rewrite Hc.
    unfold f_write at 1. rewrite Hold. simpl.
    erewrite IH; [|exact Hrest|simpl; apply lookup_insert_eq].
    simpl. rewrite insert_insert_eq, app_assoc_s. reflexivity.
Qed.

Variable os_open_w : string -> Ext -> res unit.

Lemma create_vtt_ok segments cues (file_path : string) (w : world Ext) :
  os_open_w file_path (ext w) = Ok tt ->
  Forall2 (fun seg c => cue_block seg = Ok c) segments cues ->
  create_vtt os_open_w segments file_path w
  = (Ok tt, World (<[file_path := vtt_header +:+ join cues]> (files w))
              (ext w) (translate_log w) (ui w)).
Proof.
  intros Hopen Hall. unfold create_vtt, bind, open_w, f_write. rewrite Hopen. simpl.
  rewrite lookup_insert_eq. simpl.
  erewrite write_cues_ok; [|exact Hall|simpl; apply lookup_insert_eq].
  simpl. rewrite !insert_insert_eq. reflexivity.
Qed.

(** A destination that cannot be opened: the exception of [open] is
    the exception of [create_vtt], and nothing has changed. *)
Lemma create_vtt_refused segments (file_path : string) (w : world Ext) x :
  os_open_w file_path (ext w) = Raise x ->
  create_vtt os_open_w segments file_path w = (Raise x, w).
Proof. intros Hopen. unfold create_vtt, bind, open_w. now rewrite Hopen. Qed.

End CreateVttFacts.

(** ** The number of digits of an [int] *)

Lemma length_string_of_uint d :
  String.length (NilEmpty.string_of_uint d) = Decimal.nb_digits d.
Proof. induction d; simpl; auto. Qed.

Lemma of_lu_lt d : (DecimalPos.Unsigned.of_lu d < 10 ^ N.of_nat (Decimal.nb_digits d))%N.
Proof.
  induction d; [reflexivity|..];
    cbn [Decimal.nb_digits DecimalPos.Unsigned.of_lu]; rewrite Nat2N.inj_succ, N.pow_succ_r'; lia.
Qed.

Lemma little_digit_spec r d :
  (r < 10)%N ->
  DecimalPos.Unsigned.of_lu (little_digit r d) = (r + 10 * DecimalPos.Unsigned.of_lu d)%N /\
  Decimal.nb_digits (little_digit r d) = S (Decimal.nb_digits d).
Proof.
  intros Hr.
  assert (H : (r = 0 \/ r = 1 \/ r = 2 \/ r = 3 \/ r = 4 \/ r = 5 \/ r = 6 \/ r = 7 \/
               r = 8 \/ r = 9)%N) by lia.
  repeat (destruct H as [->|H]; [split; reflexivity|]). subst. split; reflexivity.
Qed.

Lemma little_digits_spec k : forall m,
  (m < 10 ^ N.of_nat k)%N ->
  DecimalPos.Unsigned.of_lu (little_digits k m) = m /\ Decimal.nb_digits (little_digits k m) = k.
Proof.
  induction k as [|k IH]; intros m Hm.
  - simpl in *. split; [lia|reflexivity].
  - rewrite Nat2N.inj_succ, N.pow_succ_r' in Hm. simpl little_digits.
    pose proof (N.mod_lt m 10 ltac:(lia)) as Hr.
    destruct (little_digit_spec (m mod 10) (little_digits k (m / 10)) Hr) as [Hv Hd].
    destruct (IH (m / 10)%N) as [Hv' Hd'].
    { apply N.Div0.div_lt_upper_bound. lia. }
    rewrite Hv, Hd, Hv', Hd'. split; [|reflexivity].
    pose proof (N.div_mod m 10 ltac:(lia)). lia.
Qed.

Lemma to_uint_nonnil m : N.to_uint m <> Decimal.Nil.
Proof. destruct m; [discriminate|apply DecimalPos.Unsigned.to_uint_nonnil]. Qed.

(** The digits of [m] are at most [k] exactly when [m] is below [10^k]. *)
Lemma nb_digits_le m k :
  (1 <= k)%nat ->
  (Decimal.nb_digits (N.to_uint m) <= k)%nat <-> (m < 10 ^ N.of_nat k)%N.
Proof.
  intros Hk. split.
  - intros Hd.
    pose proof (of_lu_lt (Decimal.rev (N.to_uint m))) as H.
    rewrite <- DecimalPos.Unsigned.of_uint_alt in H.
    change (Pos.of_uint (N.to_uint m)) with (N.of_uint (N.to_uint m)) in H.
    rewrite DecimalN.Unsigned.of_to, nb_digits_rev in H.
    eapply N.lt_le_trans; [exact H|]. apply N.pow_le_mono_r; lia.
  - intros Hm. destruct (little_digits_spec k m Hm) as [Hv Hd].
    rewrite <- Hv at 1. rewrite <- DecimalPos.Unsigned.of_lu_rev.
    change (Pos.of_uint ?d) with (N.of_uint d).
    rewrite DecimalN.Unsigned.to_of.
    etransitivity; [apply nb_digits_unorm|].
    + intros E. apply (f_equal Decimal.nb_digits) in E.
      rewrite nb_digits_rev, Hd in E. simpl in E. lia.
    + rewrite nb_digits_rev, Hd. lia.
Qed.

Lemma length_str_of_nonneg n :
  String.length (str_of_nonneg n) = Decimal.nb_digits (N.to_uint (Z.to_N n)).
Proof.
  unfold str_of_nonneg, NilZero.string_of_uint.
  pose proof (to_uint_nonnil (Z.to_N n)) as Hn.
  destruct (N.to_uint (Z.to_N n)) eqn:E; try contradiction;
    rewrite <- E at 1; rewrite ?E; apply length_string_of_uint.
Qed.

Lemma digits_le n k :
  0 <= n -> (1 <= k)%nat ->
  (String.length (str_of_nonneg n) <= k)%nat <-> n < 10 ^ Z.of_nat k.
Proof.
  intros Hn Hk. rewrite length_str_of_nonneg, nb_digits_le by exact Hk.
  rewrite <- (Z2N.id n) at 2 by exact Hn.
  change 10 with (Z.of_N 10). rewrite <- nat_N_Z, <- N2Z.inj_pow. lia.
Qed.

Lemma str_limit_pos : 2 ^ 1024 < str_limit.
Proof.
  unfold str_limit, max_str_digits.
  apply Z.lt_le_trans with (10 ^ 1024).
  - apply Z.pow_lt_mono_l; lia.
  - apply Z.pow_le_mono_r; [lia|]. apply Z.leb_le. vm_compute. reflexivity.
Qed.

(** [format] returns on an [int] of at most 4300 digits, and then only. *)
Lemma py_format_int0_ok width n :
  Z.abs n < str_limit -> py_format_int0 width n = Ok (format_int0 width n).
Proof.
  intros Hn. unfold py_format_int0.
  destruct (Nat.ltb_spec max_str_digits (String.length (str_of_nonneg (Z.abs n))))
    as [Hlt|Hle]; [|reflexivity].
  exfalso. apply (digits_le (Z.abs n) max_str_digits) in Hn; [lia|lia|].
  unfold max_str_digits. apply Nat.leb_le. vm_compute. reflexivity.
Qed.

Lemma py_format_int0_raise width n :
  str_limit <= Z.abs n -> py_format_int0 width n = Raise ValueError.
Proof.
  intros Hn. unfold py_format_int0.
  destruct (Nat.ltb_spec max_str_digits (String.length (str_of_nonneg (Z.abs n))))
    as [Hlt|Hle]; [reflexivity|].
  exfalso. apply (digits_le (Z.abs n) max_str_digits) in Hle; [unfold str_limit in Hn; lia|lia|].
  unfold max_str_digits. apply Nat.leb_le. vm_compute. reflexivity.
Qed.


(** The four replacement fields of the f-string. *)
Lemma format_fields hrs mins secs ms :
  Z.abs hrs < str_limit -> 0 <= mins < 60 -> 0 <= secs < 60 -> 0 <= ms < 1000 ->
  (let? HH := py_format_int0 2 hrs in
   let? MM := py_format_int0 2 mins in
   let? SS := py_format_int0 2 secs in
   let? mmm := py_format_int0 3 ms in
   Ok (HH +:+ ":" +:+ MM +:+ ":" +:+ SS +:+ "." +:+ mmm))%res
  = Ok (format_int0 2 hrs +:+ ":" +:+ format_int0 2 mins +:+ ":"
        +:+ format_int0 2 secs +:+ "." +:+ format_int0 3 ms).
Proof.
  intros Hh Hm Hs Hms. pose proof str_limit_pos as HL.
  assert (H1024 : 1000 < 2 ^ 1024) by (apply Z.ltb_lt; vm_compute; reflexivity).
  rewrite !py_format_int0_ok by lia. reflexivity.
Qed.

(** ** What a rendered timestamp is made of *)











(** ** Binary64 arithmetic

    [SpecFloat] defines the operations; what follows proves about them
    what the timestamp needs: remainders are exact, the difference
    [x - fmod(x, 60)] of a float below 3600 is exact, and a rounded
    operation on floats that are not negative and not too large gives a
    float that is not negative and still finite. *)

Module F64Facts.

Import F64.

(** *** Binary digits *)

Lemma digits2_pos_bounds p :
  2 ^ (Z.pos (digits2_pos p) - 1) <= Z.pos p < 2 ^ Z.pos (digits2_pos p).
Proof.
  induction p as [p IH|p IH|]; simpl digits2_pos.
  - rewrite Pos2Z.inj_succ.
    replace (Z.succ (Z.pos (digits2_pos p)) - 1) with (Z.succ (Z.pos (digits2_pos p) - 1)) by lia.
    rewrite !Z.pow_succ_r by lia. lia.
  - rewrite Pos2Z.inj_succ.
    replace (Z.succ (Z.pos (digits2_pos p)) - 1) with (Z.succ (Z.pos (digits2_pos p) - 1)) by lia.
    rewrite !Z.pow_succ_r by lia. lia.
  - simpl. lia.
Qed.

Lemma Zdigits2_bounds n : 0 < n -> 2 ^ (Zdigits2 n - 1) <= n < 2 ^ Zdigits2 n.
Proof. destruct n as [|p|p]; try lia. intros _. apply digits2_pos_bounds. Qed.

Lemma Zdigits2_pos n : 0 < n -> 0 < Zdigits2 n.
Proof. destruct n; simpl; lia. Qed.

Lemma Zdigits2_nonneg n : 0 <= Zdigits2 n.
Proof. destruct n; simpl; lia. Qed.

Lemma Zdigits2_unique n d : 0 < d -> 2 ^ (d - 1) <= n < 2 ^ d -> Zdigits2 n = d.
Proof.
  intros Hd [Hlo Hhi].
  assert (Hn : 0 < n) by (pose proof (Z.pow_pos_nonneg 2 (d - 1)); lia).
  pose proof (Zdigits2_bounds n Hn) as [Hlo' Hhi'].
  pose proof (Zdigits2_pos n Hn) as Hd'.
  assert (d - 1 < Zdigits2 n).
  { apply (Z.pow_lt_mono_r_iff 2); lia. }
  assert (Zdigits2 n - 1 < d).
  { apply (Z.pow_lt_mono_r_iff 2); lia. }
  lia.
Qed.

Lemma Zdigits2_le n d : 0 <= d -> 0 <= n < 2 ^ d -> Zdigits2 n <= d.
Proof.
  intros Hd [Hlo Hhi]. destruct (Z.eq_dec n 0) as [->|Hn]; [simpl; lia|].
  pose proof (Zdigits2_bounds n ltac:(lia)) as [Hlo' _].
  assert (Zdigits2 n - 1 < d); [|lia].
  apply (Z.pow_lt_mono_r_iff 2); lia.
Qed.

Lemma Zdigits2_mono a b : 0 <= a <= b -> Zdigits2 a <= Zdigits2 b.
Proof.
  intros [Ha Hab]. destruct (Z.eq_dec b 0) as [->|Hb].
  { replace a with 0 by lia. lia. }
  apply Zdigits2_le.
  - pose proof (Zdigits2_pos b ltac:(lia)). lia.
  - pose proof (Zdigits2_bounds b ltac:(lia)). lia.
Qed.

Lemma Zdigits2_shift n k : 0 < n -> 0 <= k -> Zdigits2 (n * 2 ^ k) = Zdigits2 n + k.
Proof.
  intros Hn Hk. pose proof (Zdigits2_bounds n Hn) as [Hlo Hhi].
  pose proof (Zdigits2_pos n Hn) as Hd.
  apply Zdigits2_unique; [lia|].
  replace (Zdigits2 n + k - 1) with ((Zdigits2 n - 1) + k) by lia.
  rewrite !Z.pow_add_r by lia.
  pose proof (Z.pow_pos_nonneg 2 k ltac:(lia) Hk). nia.
Qed.

Lemma Zdigits2_div n k :
  0 < n -> 0 <= k -> k < Zdigits2 n -> Zdigits2 (n / 2 ^ k) = Zdigits2 n - k.
Proof.
  intros Hn Hk Hlt. pose proof (Zdigits2_bounds n Hn) as [Hlo Hhi].
  pose proof (Z.pow_pos_nonneg 2 k ltac:(lia) Hk) as Hp.
  apply Zdigits2_unique; [lia|]. split.
  - apply Z.div_le_lower_bound; [lia|].
    rewrite Z.mul_comm, <- Z.pow_add_r by lia.
    replace (Zdigits2 n - k - 1 + k) with (Zdigits2 n - 1) by lia. exact Hlo.
  - apply Z.div_lt_upper_bound; [lia|].
    rewrite <- Z.pow_add_r by lia.
    replace (k + (Zdigits2 n - k)) with (Zdigits2 n) by lia. exact Hhi.
Qed.

Lemma Zdigits2_div_small n k : 0 <= n -> 0 <= k -> Zdigits2 n <= k -> n / 2 ^ k = 0.
Proof.
  intros Hn Hk Hle. destruct (Z.eq_dec n 0) as [->|Hnz].
  { apply Z.div_0_l. pose proof (Z.pow_pos_nonneg 2 k). lia. }
  apply Z.div_small. split; [lia|].
  pose proof (Zdigits2_bounds n ltac:(lia)) as [_ Hhi].
  eapply Z.lt_le_trans; [exact Hhi|]. apply Z.pow_le_mono_r; lia.
Qed.


(** *** Right shifts *)

Lemma iter_pos_nat {A} (f : A -> A) p : forall x,
  SpecFloat.iter_pos f p x = Nat.iter (Pos.to_nat p) f x.
Proof.
  induction p as [p IH|p IH|]; intros x; simpl SpecFloat.iter_pos.
  - rewrite !IH, Pos2Nat.inj_xI, !Nat.iter_swap, <- Nat.iter_add.
    rewrite <- Nat.iter_succ. f_equal. lia.
  - rewrite !IH, Pos2Nat.inj_xO, <- Nat.iter_add. f_equal. lia.
  - reflexivity.
Qed.

Lemma shr_1_m m r s : 0 <= m -> shr_m (shr_1 (Build_shr_record m r s)) = m / 2.
Proof.
  intros Hm. destruct m as [|p|p]; [reflexivity| |lia].
  destruct p as [p|p|]; simpl.
  - rewrite Pos2Z.inj_xI. apply Z.div_unique with 1; lia.
  - rewrite Pos2Z.inj_xO. apply Z.div_unique with 0; lia.
  - reflexivity.
Qed.

Lemma shr_1_flags m r s :
  0 <= m ->
  shr_r (shr_1 (Build_shr_record m r s)) = Z.odd m /\
  shr_s (shr_1 (Build_shr_record m r s)) = orb r s.
Proof.
  intros Hm. destruct m as [|p|p]; [split; reflexivity| |lia].
  destruct p as [p|p|]; split; reflexivity.
Qed.

(** [k] steps of [shr_1] divide the mantissa by [2^k]; when the bits
    dropped are all zero, nothing is recorded in the flags. *)
Lemma shr_iter_spec k : forall m,
  0 <= m ->
  let rec := Nat.iter k shr_1 (Build_shr_record m false false) in
  shr_m rec = m / 2 ^ Z.of_nat k /\
  (m mod 2 ^ Z.of_nat k = 0 -> shr_r rec = false /\ shr_s rec = false).
Proof.
  induction k as [|k IH]; intros m Hm rec.
  - subst rec. simpl. rewrite Z.div_1_r. auto.
  - subst rec. rewrite Nat.iter_succ.
    destruct (IH m Hm) as [IHm IHf].
    set (rec := Nat.iter k shr_1 (Build_shr_record m false false)) in *.
    assert (Hp : 0 < 2 ^ Z.of_nat k) by (apply Z.pow_pos_nonneg; lia).
    assert (Hr : 0 <= shr_m rec) by (rewrite IHm; apply Z.div_pos; lia).
    destruct rec as [m' r' s'] eqn:Erec. simpl in IHm, IHf, Hr.
    rewrite Nat2Z.inj_succ, Z.pow_succ_r by lia.
    split.
    + rewrite shr_1_m by exact Hr. rewrite IHm, Z.div_div by lia.
      f_equal. lia.
    + intros Hmod.
      assert (Hmod' : m mod 2 ^ Z.of_nat k = 0).
      { apply Z.mod_divide in Hmod; [|lia]. apply Z.mod_divide; [lia|].
        destruct Hmod as [q ->]. exists (q * 2). lia. }
      destruct (IHf Hmod') as [-> ->].
      destruct (shr_1_flags m' false false Hr) as [-> ->].
      split; [|reflexivity].
      apply Z.mod_divide in Hmod; [|lia]. destruct Hmod as [q Hq].
      rewrite IHm, Hq.
      replace (q * (2 * 2 ^ Z.of_nat k)) with ((q * 2) * 2 ^ Z.of_nat k) by lia.
      rewrite Z.div_mul by lia. rewrite Z.mul_comm, Z.odd_mul. reflexivity.
Qed.

Lemma shr_iter_m k : forall m r s,
  0 <= m -> shr_m (Nat.iter k shr_1 (Build_shr_record m r s)) = m / 2 ^ Z.of_nat k.
Proof.
  induction k as [|k IH]; intros m r s Hm.
  - simpl. now rewrite Z.div_1_r.
  - rewrite Nat.iter_succ.
    assert (Hp : 0 < 2 ^ Z.of_nat k) by (apply Z.pow_pos_nonneg; lia).
    pose proof (IH m r s Hm) as IHm.
    destruct (Nat.iter k shr_1 (Build_shr_record m r s)) as [m' r' s']. simpl in IHm.
    rewrite shr_1_m by (rewrite IHm; apply Z.div_pos; lia).
    rewrite IHm, Z.div_div, Nat2Z.inj_succ, Z.pow_succ_r by lia. f_equal. lia.
Qed.


(** *** Rounding to the format *)

Lemma fexp_eq e : SpecFloat.fexp prec emax e = fexp e.
Proof. reflexivity. Qed.

Lemma shr_record_of_loc_m m l : shr_m (shr_record_of_loc m l) = m.
Proof. destruct l as [|[]]; reflexivity. Qed.

(** [shr_fexp] brings the exponent up to the one the format asks for. *)
Lemma shr_fexp_spec m e l :
  0 <= m ->
  let e2 := Z.max e (fexp (Zdigits2 m + e)) in
  snd (shr_fexp prec emax m e l) = e2 /\
  shr_m (fst (shr_fexp prec emax m e l)) = m / 2 ^ (e2 - e) /\
  (l = loc_Exact -> m mod 2 ^ (e2 - e) = 0 ->
   loc_of_shr_record (fst (shr_fexp prec emax m e l)) = loc_Exact).
Proof.
  intros Hm e2. unfold shr_fexp. rewrite fexp_eq. unfold shr.
  destruct (fexp (Zdigits2 m + e) - e) as [|p|p] eqn:Hk; simpl fst; simpl snd.
  - replace (e2 - e) with 0 by lia. rewrite Z.div_1_r, shr_record_of_loc_m.
    split; [lia|]. split; [reflexivity|]. now intros -> _.
  - rewrite iter_pos_nat.
    assert (He2 : e2 - e = Z.of_nat (Pos.to_nat p)) by (rewrite positive_nat_Z; lia).
    rewrite He2. split; [lia|].
    destruct (shr_record_of_loc m l) as [m0 r0 s0] eqn:El.
    assert (m0 = m) by (pose proof (shr_record_of_loc_m m l) as H; now rewrite El in H).
    subst m0. split; [apply shr_iter_m, Hm|].
    intros -> Hmod. simpl in El. inversion El; subst.
    destruct (shr_iter_spec (Pos.to_nat p) m Hm) as [_ Hf].
    destruct (Hf Hmod) as [Hr Hs].
    destruct (Nat.iter (Pos.to_nat p) shr_1 _) as [m1 r1 s1]. simpl in Hr, Hs.
    now subst.
  - replace (e2 - e) with 0 by lia. rewrite Z.div_1_r, shr_record_of_loc_m.
    split; [lia|]. split; [reflexivity|]. now intros -> _.
Qed.

Lemma round_nearest_even_bounds m l :
  m <= round_nearest_even m l <= m + 1.
Proof. destruct l as [|[]]; simpl; try lia. destruct (Z.even m); lia. Qed.

(** What [binary_round_aux] can return on a non-negative mantissa. *)
Lemma binary_round_aux_coarse sx mx ex lx :
  0 <= mx ->
  match binary_round_aux prec emax sx mx ex lx with
  | S754_zero s => s = sx /\ (mx = 0 \/ Zdigits2 mx + ex <= emin)
  | S754_finite s m e =>
      s = sx /\ Zdigits2 (Z.pos m) <= 53 /\ emin <= e <= 971 /\
      Z.max ex (fexp (Zdigits2 mx + ex)) <= e /\
      Zdigits2 (Z.pos m) + e <= Z.max (Zdigits2 mx + ex) emin + 1
  | S754_infinity s => s = sx /\ (971 < ex \/ 1023 < Zdigits2 mx + ex)
  | S754_nan => False
  end.
Proof.
  intros Hm. unfold binary_round_aux.
  pose proof (shr_fexp_spec mx ex lx Hm) as (He1 & Hm1 & _).
  destruct (shr_fexp prec emax mx ex lx) as [rec1 e1]. simpl in He1, Hm1.
  rewrite <- He1 in Hm1.
  set (m1 := shr_m rec1) in *.
  set (m2 := round_nearest_even m1 (loc_of_shr_record rec1)).
  pose proof (round_nearest_even_bounds m1 (loc_of_shr_record rec1)) as Hm2. fold m2 in Hm2.
  assert (Hp1 : 0 < 2 ^ (e1 - ex)) by (apply Z.pow_pos_nonneg; lia).
  assert (Hm1' : 0 <= m1) by (rewrite Hm1; apply Z.div_pos; lia).
  assert (H0m2 : 0 <= m2) by lia.
  pose proof (shr_fexp_spec m2 e1 loc_Exact H0m2) as (He2 & Hm3 & _).
  destruct (shr_fexp prec emax m2 e1 loc_Exact) as [rec2 e2]. simpl in He2, Hm3.
  rewrite <- He2 in Hm3.
  assert (Hp2 : 0 < 2 ^ (e2 - e1)) by (apply Z.pow_pos_nonneg; lia).
  (* the magnitude of [m1] *)
  assert (HE1 : m1 = 0 \/ (0 < m1 /\ Zdigits2 m1 + e1 = Zdigits2 mx + ex)).
  { destruct (Z.eq_dec m1 0) as [?|Hnz]; [now left|right]. split; [lia|].
    destruct (Z.eq_dec mx 0) as [Hz|Hz].
    { rewrite Hz, Z.div_0_l in Hm1 by lia. lia. }
    assert (e1 - ex < Zdigits2 mx).
    { destruct (Z_lt_le_dec (e1 - ex) (Zdigits2 mx)) as [?|Hge]; [assumption|].
      rewrite Zdigits2_div_small in Hm1; lia. }
    rewrite Hm1, Zdigits2_div; lia. }
  assert (HE2 : Zdigits2 m2 + e1 <= Z.max (Zdigits2 mx + ex) emin + 1).
  { assert (Zdigits2 m2 <= Zdigits2 (m1 + 1)) by (apply Zdigits2_mono; lia).
    destruct HE1 as [Hz|[Hpos HE1]].
    - assert (Zdigits2 mx <= e1 - ex).
      { apply Zdigits2_le; [lia|]. split; [lia|].
        destruct (Z_lt_le_dec mx (2 ^ (e1 - ex))) as [?|Hge]; [assumption|].
        assert (1 <= mx / 2 ^ (e1 - ex)) by (apply Z.div_le_lower_bound; lia). lia. }
      pose proof (Zdigits2_nonneg mx).
      rewrite Hz in *. change (Zdigits2 (0 + 1)) with 1 in *. unfold fexp in *. lia.
    - assert (Zdigits2 (m1 + 1) <= Zdigits2 m1 + 1); [|lia].
      pose proof (Zdigits2_bounds m1 Hpos) as [_ Hhi].
      pose proof (Zdigits2_pos m1 Hpos).
      apply Zdigits2_le; [lia|]. rewrite Z.pow_add_r by lia. lia. }
  destruct (shr_m rec2) as [|m3|m3] eqn:Em3.
  - split; [reflexivity|].
    destruct (Z.eq_dec mx 0) as [?|Hnz]; [now left|right].
    destruct HE1 as [Hz|[Hpos HE1]].
    + assert (Zdigits2 mx <= e1 - ex).
      { apply Zdigits2_le; [lia|]. split; [lia|].
        destruct (Z_lt_le_dec mx (2 ^ (e1 - ex))) as [?|Hge]; [assumption|].
        assert (1 <= mx / 2 ^ (e1 - ex)) by (apply Z.div_le_lower_bound; lia). lia. }
      pose proof (Zdigits2_pos mx ltac:(lia)). unfold fexp in *. lia.
    + exfalso.
      assert (Hm2pos : 0 < m2) by lia.
      assert (Zdigits2 m2 <= e2 - e1).
      { apply Zdigits2_le; [lia|]. split; [lia|].
        destruct (Z_lt_le_dec m2 (2 ^ (e2 - e1))) as [?|Hge]; [assumption|].
        assert (1 <= m2 / 2 ^ (e2 - e1)) by (apply Z.div_le_lower_bound; lia). lia. }
      pose proof (Zdigits2_pos m2 Hm2pos). unfold fexp in *. lia.
  - assert (Hd3 : Zdigits2 (Z.pos m3) + e2 = Zdigits2 m2 + e1).
    { destruct (Z.eq_dec m2 0) as [Hz|Hz].
      { rewrite Hz, Z.div_0_l in Hm3 by lia. lia. }
      assert (e2 - e1 < Zdigits2 m2).
      { destruct (Z_lt_le_dec (e2 - e1) (Zdigits2 m2)) as [?|Hge]; [assumption|].
        rewrite Zdigits2_div_small in Hm3; lia. }
      rewrite Hm3, Zdigits2_div; lia. }
    assert (Hfin : Zdigits2 (Z.pos m3) <= 53 /\ emin <= e2).
    { unfold fexp in *. lia. }
    destruct (e2 <=? emax - prec) eqn:Hle.
    + apply Z.leb_le in Hle. unfold emax, prec in Hle.
      split; [reflexivity|]. split; [lia|]. split; [lia|]. split; [lia|]. lia.
    + apply Z.leb_gt in Hle. unfold emax, prec in Hle.
      split; [reflexivity|]. unfold fexp, emin in *. lia.
  - assert (0 <= m2 / 2 ^ (e2 - e1)) by (apply Z.div_pos; lia). lia.
Qed.

(** On a mantissa that needs no rounding [binary_round_aux] only moves
    the exponent. *)
Lemma binary_round_aux_exact sx mx ex :
  0 < mx ->
  let e2 := Z.max ex (fexp (Zdigits2 mx + ex)) in
  mx mod 2 ^ (e2 - ex) = 0 ->
  e2 <= 971 ->
  binary_round_aux prec emax sx mx ex loc_Exact
  = S754_finite sx (Z.to_pos (mx / 2 ^ (e2 - ex))) e2.
Proof.
  intros Hm e2 Hmod Hle. unfold binary_round_aux.
  pose proof (shr_fexp_spec mx ex loc_Exact ltac:(lia)) as (He1 & Hm1 & Hl1).
  specialize (Hl1 eq_refl Hmod). fold e2 in He1, Hm1.
  destruct (shr_fexp prec emax mx ex loc_Exact) as [rec1 e1]. simpl in He1, Hm1, Hl1.
  rewrite Hl1. simpl round_nearest_even. subst e1.
  assert (Hp : 0 < 2 ^ (e2 - ex)) by (apply Z.pow_pos_nonneg; lia).
  assert (Hq : mx = (mx / 2 ^ (e2 - ex)) * 2 ^ (e2 - ex)).
  { rewrite Z.mul_comm. apply Z.div_exact; lia. }
  assert (Hm1pos : 0 < shr_m rec1).
  { rewrite Hm1. destruct (Z.eq_dec (mx / 2 ^ (e2 - ex)) 0) as [Hz|Hz].
    - rewrite Hz in Hq. lia.
    - pose proof (Z.div_pos mx (2 ^ (e2 - ex))). lia. }
  pose proof (shr_fexp_spec (shr_m rec1) e2 loc_Exact ltac:(lia)) as (He3 & Hm3 & _).
  assert (Hd : Zdigits2 (shr_m rec1) + e2 = Zdigits2 mx + ex).
  { assert (Hx : Zdigits2 mx = Zdigits2 (shr_m rec1 * 2 ^ (e2 - ex))).
    { rewrite Hm1, <- Hq. reflexivity. }
    rewrite Hx, Zdigits2_shift by lia. lia. }
  rewrite Hd in He3, Hm3.
  replace (Z.max e2 (fexp (Zdigits2 mx + ex))) with e2 in He3, Hm3 by lia.
  rewrite Z.sub_diag, Z.div_1_r in Hm3.
  destruct (shr_fexp prec emax (shr_m rec1) e2 loc_Exact) as [rec2 e3].
  simpl in He3, Hm3. subst e3. rewrite Hm3.
  destruct (shr_m rec1) as [|p|p] eqn:E; try lia.
  replace (e2 <=? emax - prec) with true by (symmetry; apply Z.leb_le; unfold emax, prec; lia).
  rewrite <- Hm1. reflexivity.
Qed.


(** *** Values that need no rounding *)

Lemma pos_iter_xO m d : Z.pos (Pos.iter xO m d) = Z.pos m * 2 ^ Z.pos d.
Proof.
  induction d as [|d IH] using Pos.peano_ind.
  - simpl. lia.
  - rewrite Pos.iter_succ, Pos2Z.inj_xO, IH, Pos2Z.inj_succ, Z.pow_succ_r by lia. lia.
Qed.

Lemma shl_align_spec mx ex ex' :
  Z.pos (fst (shl_align mx ex ex')) = Z.pos mx * 2 ^ (ex - Z.min ex ex') /\
  snd (shl_align mx ex ex') = Z.min ex ex'.
Proof.
  unfold shl_align. destruct (ex' - ex) as [|d|d] eqn:Hd; simpl.
  - replace (Z.min ex ex') with ex by lia. rewrite Z.sub_diag. simpl. lia.
  - replace (Z.min ex ex') with ex by lia. rewrite Z.sub_diag. simpl. lia.
  - replace (Z.min ex ex') with ex' by lia. rewrite pos_iter_xO.
    replace (ex - ex') with (Z.pos d) by lia. lia.
Qed.

Lemma U_pos : 0 < U.
Proof. reflexivity. Qed.

Lemma units_0 n : units n 0 = n * U.
Proof. reflexivity. Qed.

Lemma fits_intro n j :
  0 < n -> 0 <= j -> n mod 2 ^ j = 0 -> n < 2 ^ (53 + j) -> j <= 2045 -> fits n.
Proof.
  intros Hn Hj Hmod Hlt Hj'.
  assert (Hd : Zdigits2 n <= 53 + j) by (apply Zdigits2_le; lia).
  split; [exact Hn|]. split; [|lia].
  assert (Hs : 0 <= slack n <= j) by (unfold slack; lia).
  apply Z.mod_divide in Hmod; [|pose proof (Z.pow_pos_nonneg 2 j); lia].
  apply Z.mod_divide; [pose proof (Z.pow_pos_nonneg 2 (slack n)); lia|].
  destruct Hmod as [q Hq]. exists (q * 2 ^ (j - slack n)).
  rewrite <- Z.mul_assoc, <- Z.pow_add_r by lia.
  replace (j - slack n + slack n) with j by lia. exact Hq.
Qed.

Lemma units_pos m e : 0 < m -> emin <= e -> 0 < units m e.
Proof. intros. unfold units. pose proof (Z.pow_pos_nonneg 2 (e - emin)). nia. Qed.

Lemma units_digits m e : 0 < m -> emin <= e -> Zdigits2 (units m e) = Zdigits2 m + e - emin.
Proof. intros. unfold units. rewrite Zdigits2_shift; lia. Qed.

(** A mantissa and exponent whose value fits are normalized to the
    canonical float of that value. *)
Lemma binary_round_exact sx mx ex :
  emin <= ex -> fits (units (Z.pos mx) ex) ->
  binary_round prec emax sx mx ex
  = S754_finite sx (Z.to_pos (units (Z.pos mx) ex / 2 ^ slack (units (Z.pos mx) ex)))
      (emin + slack (units (Z.pos mx) ex)).
Proof.
  intros He (Hn & Hmod & Hd).
  set (n := units (Z.pos mx) ex) in *.
  assert (Hdn : Zdigits2 n = Zdigits2 (Z.pos mx) + ex - emin) by (apply units_digits; lia).
  set (sh := slack n) in *.
  assert (Hfe : SpecFloat.fexp prec emax (Z.pos (digits2_pos mx) + ex) = emin + sh).
  { rewrite fexp_eq. unfold fexp, sh, slack. rewrite Hdn. simpl Zdigits2. lia. }
  assert (Hsh : 0 <= sh) by (unfold sh, slack; lia).
  assert (Hp : 0 < 2 ^ sh) by (apply Z.pow_pos_nonneg; lia).
  unfold binary_round. rewrite Hfe.
  pose proof (shl_align_spec mx ex (emin + sh)) as [Hmz Hez].
  destruct (shl_align mx ex (emin + sh)) as [mz ez]. simpl in Hmz, Hez.
  assert (Hdz : Zdigits2 (Z.pos mz) + ez = Zdigits2 (Z.pos mx) + ex).
  { rewrite Hmz, Zdigits2_shift by lia. lia. }
  assert (He2 : Z.max ez (fexp (Zdigits2 (Z.pos mz) + ez)) = emin + sh).
  { rewrite Hdz. rewrite fexp_eq in Hfe. simpl Zdigits2. lia. }
  assert (Hq : Z.pos mz / 2 ^ (emin + sh - ez) = n / 2 ^ sh /\
               Z.pos mz mod 2 ^ (emin + sh - ez) = 0).
  { destruct (Z_le_gt_dec (emin + sh) ex) as [Hle|Hgt].
    - (* the mantissa was shifted left, or left alone *)
      replace (Z.min ex (emin + sh)) with (emin + sh) in * by lia.
      subst ez. rewrite Z.sub_diag. simpl (2 ^ 0). rewrite Z.div_1_r, Z.mod_1_r.
      split; [|reflexivity]. rewrite Hmz. unfold n, units.
      replace (ex - emin) with ((ex - (emin + sh)) + sh) by lia.
      rewrite Z.pow_add_r, Z.mul_assoc, Z.div_mul by lia. reflexivity.
    - (* the low bits of the mantissa are dropped, and they are zero *)
      replace (Z.min ex (emin + sh)) with ex in * by lia.
      subst ez. rewrite Z.sub_diag in Hmz. simpl (2 ^ 0) in Hmz.
      apply Z.mod_divide in Hmod; [|lia]. destruct Hmod as [q Hq].
      assert (Hmx : Z.pos mx = q * 2 ^ (emin + sh - ex)).
      { unfold n, units in Hq.
        replace sh with ((emin + sh - ex) + (ex - emin)) in Hq at 1 by lia.
        rewrite Z.pow_add_r, Z.mul_assoc in Hq by lia.
        apply Z.mul_reg_r in Hq; [exact Hq|].
        pose proof (Z.pow_pos_nonneg 2 (ex - emin)). lia. }
      assert (0 < 2 ^ (emin + sh - ex)) by (apply Z.pow_pos_nonneg; lia).
      rewrite Hmz, Z.mul_1_r, Hmx, Z.div_mul, Z.mod_mul, Hq, Z.div_mul by lia. auto. }
  destruct Hq as [Hq Hz].
  rewrite (binary_round_aux_exact sx (Z.pos mz) ez ltac:(lia));
    rewrite He2; [|exact Hz|unfold sh, slack, emin in *; lia].
  now rewrite Hq.
Qed.

Lemma binary_normalize_exact m e :
  0 < m -> emin <= e -> fits (units m e) ->
  binary_normalize prec emax m e false = canon (units m e).
Proof.
  intros Hm He Hf. destruct m as [|p|p]; try lia.
  unfold binary_normalize. now apply binary_round_exact.
Qed.

Lemma canon_spec n :
  fits n ->
  let m := n / 2 ^ slack n in
  0 < m /\ Zdigits2 m <= 53 /\ units m (emin + slack n) = n /\ emin + slack n <= 971.
Proof.
  intros (Hn & Hmod & Hd) m.
  assert (Hsh : 0 <= slack n) by (unfold slack; lia).
  assert (Hp : 0 < 2 ^ slack n) by (apply Z.pow_pos_nonneg; lia).
  assert (Hq : n = m * 2 ^ slack n).
  { unfold m. rewrite Z.mul_comm. apply Z.div_exact; lia. }
  assert (Hm : 0 < m) by nia.
  split; [exact Hm|]. split.
  - assert (Hx : Zdigits2 n = Zdigits2 m + slack n).
    { rewrite Hq at 1. apply Zdigits2_shift; lia. }
    unfold slack in *. lia.
  - split; [|unfold slack; unfold emin; lia].
    unfold units. replace (emin + slack n - emin) with (slack n) by lia. lia.
Qed.


(** *** Remainders *)

Lemma nn_weaken B B' x : B <= B' -> nn B x -> nn B' x.
Proof. intros HB. destruct x as [| | |[] m e]; simpl; auto. lia. Qed.

Lemma nn_Zval_nonneg B x : nn B x -> 0 <= Zval x.
Proof.
  destruct x as [| | |[] m e]; simpl; try lia; try tauto.
  intros (_ & He & _). pose proof (units_pos (Z.pos m) e). lia.
Qed.

Lemma nn_Zval_lt B x : nn B x -> 0 <= B -> Zval x < 2 ^ B * U.
Proof.
  intros Hx HB. pose proof U_pos as HU.
  assert (HP : 0 < 2 ^ B) by (apply Z.pow_pos_nonneg; lia).
  destruct x as [| | |[] m e]; cbn [nn Zval] in *; try tauto; try nia.
  destruct Hx as (Hd & He & HE).
  pose proof (Zdigits2_bounds (Z.pos m) ltac:(lia)) as [_ Hhi].
  pose proof (Zdigits2_nonneg (Z.pos m)) as Hd0.
  unfold units, U.
  assert (Hp : 0 < 2 ^ (e - emin)) by (apply Z.pow_pos_nonneg; unfold emin in *; lia).
  eapply Z.lt_le_trans; [apply Z.mul_lt_mono_pos_r; [exact Hp|exact Hhi]|].
  rewrite <- (Z.pow_add_r 2 (Zdigits2 (Z.pos m)) (e - emin)) by (unfold emin in *; lia).
  rewrite <- (Z.pow_add_r 2 B 1074) by lia.
  apply Z.pow_le_mono_r; unfold emin in *; lia.
Qed.

Lemma nn_canon n : fits n -> nn 1024 (canon n) /\ Zval (canon n) = n.
Proof.
  intros Hf. pose proof (canon_spec n Hf) as (Hm & Hd & Hu & He).
  destruct Hf as (Hn & _ & Hdn).
  unfold canon, nn, Zval. rewrite !Z2Pos.id by exact Hm.
  assert (0 <= slack n) by (unfold slack; lia).
  split; [|exact Hu]. split; [exact Hd|]. split; [unfold emin in *; lia|].
  assert (Hx : Zdigits2 n = Zdigits2 (n / 2 ^ slack n) + (emin + slack n) - emin).
  { rewrite <- Hu at 1. apply units_digits; [exact Hm | lia]. }
  unfold emin in *. lia.
Qed.

(** [int()] of such a float is its count of units divided by the units
    in one. *)
Lemma trunc_nn B x : nn B x -> trunc x = Some (Zval x / U).
Proof.
  unfold U. destruct x as [s| | |[] m e]; unfold nn, trunc, Zval; try tauto.
  intros (_ & [He _] & _). unfold units, emin in *. f_equal. unfold cond_Zopp.
  destruct (0 <=? e) eqn:H0.
  - apply Z.leb_le in H0.
    replace (e - -1074) with (e + 1074) by lia.
    rewrite Z.pow_add_r, Z.mul_assoc, Z.div_mul; lia.
  - apply Z.leb_gt in H0.
    replace (2 ^ 1074) with (2 ^ (- e) * 2 ^ (e - -1074)).
    + rewrite Z.div_mul_cancel_r; [reflexivity| |];
        [pose proof (Z.pow_pos_nonneg 2 (- e)) | pose proof (Z.pow_pos_nonneg 2 (e - -1074))]; lia.
    + rewrite <- Z.pow_add_r by lia. f_equal. lia.
Qed.

(** On any finite float [int()] keeps the sign and cuts the magnitude
    down to a whole number of ones: it truncates toward zero. *)
Lemma trunc_finite s m e :
  emin <= e -> trunc (S754_finite s m e) = Some (cond_Zopp s (units (Z.pos m) e / U)).
Proof.
  intros He. unfold trunc, units, U, emin in *. do 2 f_equal.
  destruct (0 <=? e) eqn:H0.
  - apply Z.leb_le in H0.
    replace (e - -1074) with (e + 1074) by lia.
    rewrite Z.pow_add_r, Z.mul_assoc, Z.div_mul; lia.
  - apply Z.leb_gt in H0.
    replace (2 ^ 1074) with (2 ^ (- e) * 2 ^ (e - -1074)).
    + rewrite Z.div_mul_cancel_r; [reflexivity| |];
        [pose proof (Z.pow_pos_nonneg 2 (- e)) | pose proof (Z.pow_pos_nonneg 2 (e - -1074))]; lia.
    + rewrite <- Z.pow_add_r by lia. f_equal. lia.
Qed.

Lemma py_int_trunc x :
  valid x = true -> is_finite x = true ->
  py_int (PyFloat x) = Ok (cond_Zopp (signbit x) (Zval x / U)).
Proof.
  destruct x as [s| | |s m e]; try discriminate; intros Hv _.
  - simpl. now destruct s.
  - unfold valid, valid_binary, bounded, canonical_mantissa in Hv. rewrite fexp_eq in Hv.
    apply andb_true_iff in Hv. destruct Hv as [H1 _]. apply Z.eqb_eq in H1.
    unfold py_int. rewrite trunc_finite by (unfold fexp in H1; lia). reflexivity.
Qed.

(** [fmod] of two such floats is the exact remainder of their values. *)
Lemma fmod_spec B x B' y :
  nn B x -> nn B' y -> 0 < Zval y ->
  (Zval x mod Zval y = 0 /\ exists s, fmod x y = S754_zero s) \/
  (fits (Zval x mod Zval y) /\ fmod x y = canon (Zval x mod Zval y)).
Proof.
  intros Hx Hy Hpos.
  destruct y as [sy| | |[] my ey]; simpl in Hy, Hpos; try tauto; try lia.
  destruct x as [sx| | |[] mx ex]; simpl in Hx; try tauto.
  { left. simpl. split; [apply Z.mod_0_l; lia | eauto]. }
  destruct Hx as (Hdx & [Hex Hex'] & _). destruct Hy as (Hdy & [Hey Hey'] & _).
  simpl Zval. unfold fmod.
  set (ez := Z.min ex ey).
  set (X := Z.pos mx * 2 ^ (ex - ez)). set (Y := Z.pos my * 2 ^ (ey - ez)).
  assert (Hpx : 0 < 2 ^ (ex - ez)) by (apply Z.pow_pos_nonneg; lia).
  assert (Hpy : 0 < 2 ^ (ey - ez)) by (apply Z.pow_pos_nonneg; lia).
  assert (Hpz : 0 < 2 ^ (ez - emin)) by (apply Z.pow_pos_nonneg; lia).
  assert (HX : units (Z.pos mx) ex = X * 2 ^ (ez - emin)).
  { unfold units, X. rewrite <- Z.mul_assoc, <- Z.pow_add_r by lia. do 2 f_equal. lia. }
  assert (HY : units (Z.pos my) ey = Y * 2 ^ (ez - emin)).
  { unfold units, Y. rewrite <- Z.mul_assoc, <- Z.pow_add_r by lia. do 2 f_equal. lia. }
  assert (Hr : units (Z.pos mx) ex mod units (Z.pos my) ey = (X mod Y) * 2 ^ (ez - emin)).
  { rewrite HX, HY. apply Z.mul_mod_distr_r; lia. }
  assert (HYpos : 0 < Y) by (unfold Y; lia).
  pose proof (Z.mod_pos_bound X Y HYpos) as [Hr0 HrY].
  rewrite Hr. destruct (X mod Y) as [|r|r] eqn:Er; try lia.
  - left. split; [reflexivity|eauto].
  - right.
    assert (Hlt : Z.pos r < 2 ^ 53).
    { pose proof (Zdigits2_bounds (Z.pos mx) ltac:(lia)) as [_ Hbx].
      pose proof (Zdigits2_bounds (Z.pos my) ltac:(lia)) as [_ Hby].
      simpl Zdigits2 in *.
      assert (2 ^ Z.pos (digits2_pos mx) <= 2 ^ 53) by (apply Z.pow_le_mono_r; lia).
      assert (2 ^ Z.pos (digits2_pos my) <= 2 ^ 53) by (apply Z.pow_le_mono_r; lia).
      destruct (Z_le_gt_dec ex ey).
      - assert (ez = ex) by (unfold ez; lia).
        assert (X = Z.pos mx).
        { unfold X. replace (ex - ez) with 0 by lia. simpl. lia. }
        assert (X mod Y <= X) by (apply Z.mod_le; lia). lia.
      - assert (ez = ey) by (unfold ez; lia).
        assert (Y = Z.pos my).
        { unfold Y. replace (ey - ez) with 0 by lia. simpl. lia. }
        lia. }
    assert (Hf : fits (Z.pos r * 2 ^ (ez - emin))).
    { apply fits_intro with (j := ez - emin); try (unfold ez, emin in *; lia).
      - apply Z.mod_mul; lia.
      - rewrite Z.pow_add_r by (unfold ez, emin in *; lia). nia. }
    split; [exact Hf|].
    simpl cond_Zopp. apply binary_normalize_exact; [lia | unfold ez; lia | exact Hf].
Qed.


(** *** Exact differences *)

Lemma nn_lt0 B x : nn B x -> lt0 x = false.
Proof. destruct x as [| | |[] m e]; simpl; tauto. Qed.

(** [float_rem] on such floats, the divisor positive, is the remainder of
    the values. *)
Lemma float_rem_spec B x B' y :
  nn B x -> nn B' y -> 0 < Zval y ->
  nn 1024 (float_rem x y) /\ Zval (float_rem x y) = Zval x mod Zval y.
Proof.
  intros Hx Hy Hpos. unfold float_rem.
  destruct (fmod_spec B x B' y Hx Hy Hpos) as [(Hz & s & ->)|(Hf & ->)].
  - simpl. auto.
  - rewrite (nn_lt0 _ _ Hy). simpl. now apply nn_canon.
Qed.

Lemma py_int_nn B x : nn B x -> py_int (PyFloat x) = Ok (Zval x / U).
Proof.
  intros Hx. pose proof (trunc_nn B x Hx) as Ht. unfold py_int.
  destruct x as [| | |[] m e]; simpl in Hx; try tauto; now rewrite Ht.
Qed.

(** The float of a small natural number. *)
Lemma of_Z_canon n : 0 < n < 2 ^ 53 -> fits (n * U) /\ of_Z n = canon (n * U).
Proof.
  intros Hn.
  assert (Hf : fits (n * U)).
  { apply fits_intro with (j := 1074); try lia.
    - pose proof U_pos. nia.
    - apply Z.mod_mul. discriminate.
    - rewrite Z.pow_add_r by lia. fold U. pose proof U_pos. nia. }
  split; [exact Hf|]. unfold of_Z. rewrite <- units_0.
  apply binary_normalize_exact; [lia | discriminate | now rewrite units_0].
Qed.

(** Subtraction of a smaller float is exact when the difference fits. *)
Lemma sub_finite_exact mx ex my ey :
  emin <= ex -> emin <= ey ->
  units (Z.pos my) ey <= units (Z.pos mx) ex ->
  sub (S754_finite false mx ex) (S754_finite false my ey)
  = if units (Z.pos mx) ex =? units (Z.pos my) ey then S754_zero false
    else binary_normalize prec emax
           (Z.pos mx * 2 ^ (ex - Z.min ex ey) - Z.pos my * 2 ^ (ey - Z.min ex ey))
           (Z.min ex ey) false.
Proof.
  intros Hex Hey Hle. unfold sub, SFsub. simpl cond_Zopp.
  pose proof (shl_align_spec mx ex (Z.min ex ey)) as [HX _].
  pose proof (shl_align_spec my ey (Z.min ex ey)) as [HY _].
  rewrite HX, HY.
  replace (Z.min ex (Z.min ex ey)) with (Z.min ex ey) by lia.
  replace (Z.min ey (Z.min ex ey)) with (Z.min ex ey) by lia.
  set (ez := Z.min ex ey).
  assert (Hpz : 0 < 2 ^ (ez - emin)) by (apply Z.pow_pos_nonneg; unfold ez; lia).
  assert (Hu : forall m e, ez <= e -> units m e = m * 2 ^ (e - ez) * 2 ^ (ez - emin)).
  { intros m e He. unfold units.
    rewrite <- Z.mul_assoc, <- Z.pow_add_r by (unfold ez in *; lia). do 2 f_equal. lia. }
  rewrite (Hu (Z.pos mx) ex), (Hu (Z.pos my) ey) in * by (unfold ez; lia).
  destruct (Z.eqb_spec (Z.pos mx * 2 ^ (ex - ez) * 2 ^ (ez - emin))
                       (Z.pos my * 2 ^ (ey - ez) * 2 ^ (ez - emin))) as [Heq|Hne].
  - apply Z.mul_reg_r in Heq; [|lia]. rewrite Heq, Z.sub_diag. reflexivity.
  - reflexivity.
Qed.

Lemma sub_exact a b x y :
  x = canon a -> y = canon b -> fits a -> fits b -> b <= a ->
  (a = b \/ fits (a - b)) ->
  sub x y = if a =? b then S754_zero false else canon (a - b).
Proof.
  intros -> -> Ha Hb Hle Hfit.
  pose proof (canon_spec a Ha) as (Hma & _ & Hua & _).
  pose proof (canon_spec b Hb) as (Hmb & _ & Hub & _).
  assert (Hsa : 0 <= slack a) by (unfold slack; lia).
  assert (Hsb : 0 <= slack b) by (unfold slack; lia).
  unfold canon. rewrite sub_finite_exact; rewrite ?Z2Pos.id by assumption; try lia.
  rewrite Hua, Hub.
  destruct (Z.eqb_spec a b) as [Heq|Hne]; [reflexivity|].
  destruct Hfit as [?|Hfit]; [contradiction|].
  set (ea := emin + slack a) in *. set (eb := emin + slack b) in *.
  set (ez := Z.min ea eb).
  assert (Hpz : 0 < 2 ^ (ez - emin)) by (apply Z.pow_pos_nonneg; unfold ez, ea, eb; lia).
  assert (Hu : forall m e, ez <= e -> units m e = m * 2 ^ (e - ez) * 2 ^ (ez - emin)).
  { intros m e He. unfold units.
    rewrite <- Z.mul_assoc, <- Z.pow_add_r by (unfold ez, ea, eb in *; lia). do 2 f_equal. lia. }
  rewrite (Hu _ ea) in Hua by (unfold ez; lia).
  rewrite (Hu _ eb) in Hub by (unfold ez; lia).
  set (X := a / 2 ^ slack a * 2 ^ (ea - ez)) in *.
  set (Y := b / 2 ^ slack b * 2 ^ (eb - ez)) in *.
  assert (Hd : units (X - Y) ez = a - b) by (unfold units; lia).
  rewrite <- Hd. apply binary_normalize_exact.
  - nia.
  - unfold ez, ea, eb. lia.
  - now rewrite Hd.
Qed.


(** *** Whole minutes *)

Lemma float_div_mod_nonneg vx wx :
  lt0 wx = false -> lt0 (fmod vx wx) = false ->
  fst (float_div_mod vx wx) = fd_tail vx wx (sub vx (fmod vx wx)).
Proof.
  intros Hw Hm. unfold float_div_mod, fd_tail, fd_snap. rewrite Hw, Hm.
  destruct (nonzero (fmod vx wx)); reflexivity.
Qed.

Lemma fmod_lt0 B x B' y :
  nn B x -> nn B' y -> 0 < Zval y -> lt0 (fmod x y) = false.
Proof.
  intros Hx Hy Hpos.
  destruct (fmod_spec B x B' y Hx Hy Hpos) as [(_ & s & ->)|(_ & ->)]; reflexivity.
Qed.

Lemma minutes_checked : forallb minute_ok (seq 1 59) = true.
Proof. vm_compute. reflexivity. Qed.

Lemma fd_tail_60 vx k :
  1 <= k <= 59 -> py_int (PyFloat (fd_tail vx (of_Z 60) (of_Z (60 * k)))) = Ok k.
Proof.
  intros Hk. pose proof minutes_checked as H. rewrite forallb_forall in H.
  specialize (H (Z.to_nat k)).
  assert (Hin : In (Z.to_nat k) (seq 1 59)) by (apply in_seq; lia).
  apply H in Hin. unfold minute_ok in Hin. rewrite Z2Nat.id in Hin by lia.
  apply andb_true_iff in Hin. destruct Hin as [Hnz Hv].
  unfold fd_tail. rewrite Hnz.
  destruct (py_int (PyFloat (fd_snap (div (of_Z (60 * k)) (of_Z 60))))) as [n|];
    [|discriminate].
  apply Z.eqb_eq in Hv. now subst.
Qed.

Lemma fd_tail_zero vx wx s :
  nonzero wx = true -> is_finite wx = true ->
  py_int (PyFloat (fd_tail vx wx (S754_zero s))) = Ok 0.
Proof.
  intros Hnz Hfin. unfold fd_tail.
  assert (Hd : nonzero (div (S754_zero s) wx) = false).
  { destruct wx as [| | |sw mw ew]; try discriminate. reflexivity. }
  rewrite Hd. reflexivity.
Qed.

Lemma floordiv_60 x :
  (exists s, x = S754_zero s) \/ (exists R, fits R /\ x = canon R /\ R < 3600 * U) ->
  py_int (PyFloat (fst (float_div_mod x (of_Z 60)))) = Ok (Zval x / (60 * U)).
Proof.
  pose proof U_pos as HU.
  destruct (of_Z_canon 60 ltac:(lia)) as [Hf60 H60].
  destruct (nn_canon _ Hf60) as [Hnn60 Hv60]. rewrite <- H60 in Hnn60, Hv60.
  intros [[s ->]|(R & HfR & -> & Hlt)].
  - destruct s; vm_compute; reflexivity.
  - destruct (nn_canon _ HfR) as [HnnR HvR].
    assert (HR0 : 0 < R) by apply HfR.
    rewrite float_div_mod_nonneg;
      [|reflexivity|eapply fmod_lt0; [exact HnnR|exact Hnn60|lia]].
    rewrite HvR.
    set (k := R / (60 * U)).
    assert (Hk : 0 <= k <= 59).
    { unfold k. split; [apply Z.div_pos; lia|].
      assert (R / (60 * U) < 60); [apply Z.div_lt_upper_bound; lia|lia]. }
    assert (HRk : R = 60 * U * k + R mod (60 * U)) by (apply Z.div_mod; lia).
    pose proof (Z.mod_pos_bound R (60 * U) ltac:(lia)) as HM.
    assert (Hcan : 1 <= k -> canon (60 * U * k) = of_Z (60 * k)).
    { intros H1. destruct (of_Z_canon (60 * k) ltac:(lia)) as [_ ->]. f_equal. lia. }
    destruct (fmod_spec _ _ _ _ HnnR Hnn60 ltac:(lia)) as [(Hz & s & Hfm)|(HfM & Hfm)];
      rewrite HvR, Hv60 in *; rewrite Hfm.
    + (* the float is a whole number of minutes *)
      assert (Hsub : sub (canon R) (S754_zero s) = canon R) by reflexivity.
      rewrite Hsub.
      assert (1 <= k) by nia.
      replace R with (60 * U * k) by lia. rewrite Hcan by lia.
      apply fd_tail_60. lia.
    + rewrite (sub_exact R (R mod (60 * U)) _ _ eq_refl eq_refl HfR HfM ltac:(lia)).
      * destruct (Z.eqb_spec R (R mod (60 * U))) as [Heq|Hne].
        -- assert (k = 0) by nia. replace k with 0 by lia.
           apply fd_tail_zero; reflexivity.
        -- assert (1 <= k) by nia.
           replace (R - R mod (60 * U)) with (60 * U * k) by lia.
           rewrite Hcan by lia. apply fd_tail_60. lia.
      * destruct (Z.eq_dec R (R mod (60 * U))) as [?|Hne]; [now left|right].
        assert (1 <= k) by nia.
        replace (R - R mod (60 * U)) with (60 * k * U) by lia.
        apply of_Z_canon. lia.
Qed.


(** *** Bounds through rounded operations *)

Lemma binary_normalize_coarse m e :
  0 <= m -> e <= 971 -> Zdigits2 m + e <= 1023 ->
  nn (Z.max (Zdigits2 m + e) emin + 1) (binary_normalize prec emax m e false).
Proof.
  intros Hm He Hd. destruct m as [|p|p]; [exact I| |lia].
  unfold binary_normalize, binary_round.
  pose proof (shl_align_spec p e (SpecFloat.fexp prec emax (Z.pos (digits2_pos p) + e)))
    as [Hmz Hez].
  destruct (shl_align p e _) as [mz ez]. simpl in Hmz, Hez.
  assert (Hdz : Zdigits2 (Z.pos mz) + ez = Zdigits2 (Z.pos p) + e).
  { rewrite Hmz, Zdigits2_shift by lia. lia. }
  pose proof (binary_round_aux_coarse false (Z.pos mz) ez loc_Exact ltac:(lia)) as H.
  destruct (binary_round_aux prec emax false (Z.pos mz) ez loc_Exact) as [s|s| |s m' e'].
  - exact I.
  - destruct H as [_ H]. lia.
  - exact H.
  - destruct H as (-> & H1 & H2 & _ & H3). unfold nn. rewrite <- Hdz. auto.
Qed.

Lemma Zdigits2_add a b :
  0 <= a -> 0 <= b -> Zdigits2 (a + b) <= Z.max (Zdigits2 a) (Zdigits2 b) + 1.
Proof.
  intros Ha Hb. pose proof (Zdigits2_nonneg a). pose proof (Zdigits2_nonneg b).
  apply Zdigits2_le; [lia|]. split; [lia|].
  assert (Ha' : a < 2 ^ Z.max (Zdigits2 a) (Zdigits2 b)).
  { destruct (Z.eq_dec a 0) as [->|]; [apply Z.pow_pos_nonneg; lia|].
    pose proof (Zdigits2_bounds a ltac:(lia)) as [_ Hh].
    eapply Z.lt_le_trans; [exact Hh|]. apply Z.pow_le_mono_r; lia. }
  assert (Hb' : b < 2 ^ Z.max (Zdigits2 a) (Zdigits2 b)).
  { destruct (Z.eq_dec b 0) as [->|]; [apply Z.pow_pos_nonneg; lia|].
    pose proof (Zdigits2_bounds b ltac:(lia)) as [_ Hh].
    eapply Z.lt_le_trans; [exact Hh|]. apply Z.pow_le_mono_r; lia. }
  rewrite Z.pow_add_r by lia. lia.
Qed.

Lemma sub_nn B x B' y :
  nn B x -> nn B' y -> Zval y <= Zval x -> B <= 1023 ->
  nn (Z.max B emin + 1) (sub x y).
Proof.
  intros Hx Hy Hle HB.
  destruct x as [sx| | |[] mx ex]; simpl in Hx; try tauto;
    destruct y as [sy| | |[] my ey]; simpl in Hy; try tauto.
  - destruct sx, sy; exact I.
  - exfalso. simpl in Hle. pose proof (units_pos (Z.pos my) ey). lia.
  - simpl. lia.
  - destruct Hx as (Hdx & Hex & HEx). destruct Hy as (Hdy & Hey & HEy).
    simpl in Hle. rewrite sub_finite_exact by lia.
    destruct (units (Z.pos mx) ex =? units (Z.pos my) ey); [exact I|].
    set (ez := Z.min ex ey).
    assert (Hpz : 0 < 2 ^ (ez - emin)) by (apply Z.pow_pos_nonneg; unfold ez; lia).
    assert (Hu : forall m e, ez <= e -> units m e = m * 2 ^ (e - ez) * 2 ^ (ez - emin)).
    { intros m e He. unfold units.
      rewrite <- Z.mul_assoc, <- Z.pow_add_r by (unfold ez in *; lia). do 2 f_equal. lia. }
    rewrite (Hu (Z.pos mx) ex), (Hu (Z.pos my) ey) in Hle by (unfold ez; lia).
    set (X := Z.pos mx * 2 ^ (ex - ez)) in *. set (Y := Z.pos my * 2 ^ (ey - ez)) in *.
    assert (HY : 0 < Y).
    { unfold Y. pose proof (Z.pow_pos_nonneg 2 (ey - ez)). unfold ez in *. nia. }
    assert (Hd : Zdigits2 (X - Y) <= Zdigits2 X) by (apply Zdigits2_mono; nia).
    assert (HdX : Zdigits2 X = Zdigits2 (Z.pos mx) + (ex - ez)).
    { unfold X. apply Zdigits2_shift; unfold ez; lia. }
    simpl Zdigits2 in HdX.
    eapply nn_weaken; [|apply binary_normalize_coarse]; try nia; unfold ez in *; lia.
Qed.

Lemma floor_nn B x : nn B x -> nn (Z.max B 54) (floor x).
Proof.
  intros Hx. destruct x as [sx| | |[] m e]; simpl in Hx; try tauto.
  unfold floor.
  destruct (0 <=? e) eqn:H0; [simpl; lia|]. apply Z.leb_gt in H0.
  destruct (Z.pos m mod 2 ^ (- e) =? 0); [simpl; lia|].
  simpl cond_Zopp. destruct Hx as (Hd & He & HE).
  assert (Hp : 0 < 2 ^ (- e)) by (apply Z.pow_pos_nonneg; lia).
  assert (Hq : 0 <= Z.pos m / 2 ^ (- e)) by (apply Z.div_pos; lia).
  assert (Hdq : Zdigits2 (Z.pos m / 2 ^ (- e)) <= 53).
  { change (Z.pos (digits2_pos m)) with (Zdigits2 (Z.pos m)) in Hd.
    etransitivity; [apply Zdigits2_mono|exact Hd]. split; [lia|].
    apply Z.div_le_upper_bound; nia. }
  eapply nn_weaken; [|apply binary_normalize_coarse]; unfold emin; lia.
Qed.

Lemma add_one_nn B x : nn B x -> B <= 1021 -> nn (Z.max B 1 + 2) (add x one).
Proof.
  intros Hx HB. change one with (S754_finite false 4503599627370496 (-52)).
  destruct x as [sx| | |[] mx ex]; simpl in Hx; try tauto.
  - simpl. unfold emin. lia.
  - destruct Hx as (Hdx & Hex & HEx). unfold add, SFadd. simpl cond_Zopp.
    pose proof (shl_align_spec mx ex (Z.min ex (-52))) as [HX _].
    pose proof (shl_align_spec 4503599627370496 (-52) (Z.min ex (-52))) as [HY _].
    rewrite HX, HY.
    replace (Z.min ex (Z.min ex (-52))) with (Z.min ex (-52)) by lia.
    replace (Z.min (-52) (Z.min ex (-52))) with (Z.min ex (-52)) by lia.
    set (ez := Z.min ex (-52)).
    assert (HdX : Zdigits2 (Z.pos mx * 2 ^ (ex - ez)) = Zdigits2 (Z.pos mx) + (ex - ez)).
    { apply Zdigits2_shift; unfold ez; lia. }
    assert (HdY : Zdigits2 (4503599627370496 * 2 ^ (-52 - ez)) = 53 + (-52 - ez)).
    { rewrite Zdigits2_shift by (unfold ez; lia). reflexivity. }
    simpl Zdigits2 in HdX.
    assert (0 < Z.pos mx * 2 ^ (ex - ez)).
    { pose proof (Z.pow_pos_nonneg 2 (ex - ez)). unfold ez in *. nia. }
    assert (0 < 4503599627370496 * 2 ^ (-52 - ez)).
    { pose proof (Z.pow_pos_nonneg 2 (-52 - ez)). unfold ez in *. nia. }
    pose proof (Zdigits2_add (Z.pos mx * 2 ^ (ex - ez)) (4503599627370496 * 2 ^ (-52 - ez))
                  ltac:(lia) ltac:(lia)) as Hadd.
    eapply nn_weaken; [|apply binary_normalize_coarse]; unfold ez, emin in *; lia.
Qed.

Lemma shiftl_case m s :
  0 <= s ->
  match s with Z.pos _ => Z.shiftl m s | 0 => m | Z.neg _ => 0 end = m * 2 ^ s.
Proof.
  intros Hs. destruct s as [|p|p]; [simpl; lia| |lia].
  now rewrite Z.shiftl_mul_pow2 by lia.
Qed.

(** Division by a positive float with a full mantissa. *)
Lemma div_nn B x my ey :
  nn B x -> Zdigits2 (Z.pos my) = 53 -> B - ey <= 1075 ->
  nn (Z.max (B - ey - 52) 971 + 1) (div x (S754_finite false my ey)).
Proof.
  intros Hx Hdy HB.
  destruct x as [sx| | |[] mx ex]; simpl in Hx; try tauto.
  destruct Hx as (Hdx & Hex & HEx). unfold div, SFdiv, SFdiv_core_binary.
  rewrite fexp_eq, Hdy. simpl xorb.
  change (Zdigits2 (Z.pos mx)) with (Z.pos (digits2_pos mx)).
  set (d1 := Z.pos (digits2_pos mx)) in *.
  set (e' := Z.min (fexp (d1 + ex - (53 + ey))) (ex - ey)).
  set (s := ex - ey - e').
  assert (Hs : 0 <= s) by (unfold s, e'; lia).
  rewrite (shiftl_case (Z.pos mx) s Hs).
  set (m' := Z.pos mx * 2 ^ s).
  assert (Hq : fst (Z.div_eucl m' (Z.pos my)) = m' / Z.pos my) by reflexivity.
  destruct (Z.div_eucl m' (Z.pos my)) as [q r]. simpl in Hq. subst q.
  assert (Hps : 0 < 2 ^ s) by (apply Z.pow_pos_nonneg; lia).
  assert (Hm0 : 0 < m') by (unfold m'; nia).
  assert (Hmy : 2 ^ 52 <= Z.pos my).
  { pose proof (Zdigits2_bounds (Z.pos my) ltac:(lia)) as [Hlo _].
    rewrite Hdy in Hlo. exact Hlo. }
  assert (Hq0 : 0 <= m' / Z.pos my) by (apply Z.div_pos; lia).
  assert (HE : Zdigits2 (m' / Z.pos my) + e' <= Z.max (B - ey - 52) 971).
  { destruct (Z.eq_dec (m' / Z.pos my) 0) as [->|Hnz].
    { simpl. unfold e', fexp, emin. lia. }
    assert (Hle : m' / Z.pos my <= m' / 2 ^ 52).
    { apply Z.div_le_compat_l; [lia|]. split; [reflexivity|exact Hmy]. }
    assert (Hdm : Zdigits2 m' = d1 + s).
    { unfold m'. apply Zdigits2_shift; lia. }
    assert (52 < Zdigits2 m').
    { destruct (Z_lt_le_dec 52 (Zdigits2 m')) as [?|Hge]; [assumption|].
      rewrite (Zdigits2_div_small m' 52) in Hle; lia. }
    assert (Zdigits2 (m' / Z.pos my) <= Zdigits2 (m' / 2 ^ 52))
      by (apply Zdigits2_mono; lia).
    rewrite Zdigits2_div in * by lia. unfold s in *. lia. }
  pose proof (binary_round_aux_coarse false (m' / Z.pos my) e'
                (new_location (Z.pos my) r) Hq0) as H.
  destruct (binary_round_aux prec emax false (m' / Z.pos my) e' _) as [s0|s0| |s0 m0 e0].
  - exact I.
  - destruct H as [_ H]. unfold e', fexp, emin in *. lia.
  - exact H.
  - destruct H as (-> & H1 & H2 & _ & H3). unfold nn. unfold emin in *. lia.
Qed.


(** *** Whole hours and milliseconds *)

(** Whole hours: the quotient by 3600 is a float [int()] accepts, and is
    not negative. *)
Lemma floordiv_3600 B x :
  nn B x -> B <= 1016 ->
  exists n, py_int (PyFloat (fst (float_div_mod x (of_Z 3600)))) = Ok n /\ 0 <= n < 2 ^ 1024.
Proof.
  intros Hx HB. pose proof U_pos as HU.
  destruct (of_Z_canon 3600 ltac:(lia)) as [Hfw Hw].
  destruct (nn_canon _ Hfw) as [Hnnw Hvw]. rewrite <- Hw in Hnnw, Hvw.
  assert (Hpos : 0 < Zval (of_Z 3600)) by lia.
  rewrite float_div_mod_nonneg; [|reflexivity|eapply fmod_lt0; eassumption].
  assert (Hm : nn 1024 (fmod x (of_Z 3600)) /\ Zval (fmod x (of_Z 3600)) <= Zval x).
  { pose proof (nn_Zval_nonneg _ _ Hx) as Hx0.
    destruct (fmod_spec _ _ _ _ Hx Hnnw Hpos) as [(_ & s & ->)|(Hf & ->)].
    - split; [exact I|exact Hx0].
    - destruct (nn_canon _ Hf) as [Hc ->]. split; [exact Hc|]. apply Z.mod_le; lia. }
  assert (Hd0 : nn 1017 (sub x (fmod x (of_Z 3600)))).
  { pose proof (sub_nn B x 1024 _ Hx (proj1 Hm) (proj2 Hm) ltac:(lia)) as H.
    eapply nn_weaken; [|exact H]. unfold emin. lia. }
  unfold fd_tail.
  set (d0 := sub x (fmod x (of_Z 3600))) in *.
  assert (Hdiv : nn 1007 (div d0 (of_Z 3600))).
  { change (of_Z 3600) with (S754_finite false 7916483719987200 (-41)).
    eapply nn_weaken; [|eapply div_nn; [exact Hd0|reflexivity|lia]]. lia. }
  assert (Hres : forall r, nn 1021 r ->
                 exists n, py_int (PyFloat r) = Ok n /\ 0 <= n < 2 ^ 1024).
  { intros r Hr. rewrite (py_int_nn _ _ Hr). eexists. split; [reflexivity|].
    pose proof (nn_Zval_lt _ _ Hr ltac:(lia)) as Hlt.
    split; [apply Z.div_pos; [eapply nn_Zval_nonneg, Hr | lia]|].
    apply Z.div_lt_upper_bound; [lia|].
    eapply Z.lt_le_trans; [exact Hlt|]. rewrite (Z.mul_comm U).
    apply Z.mul_le_mono_nonneg_r; [lia|]. apply Z.pow_le_mono_r; lia. }
  destruct (nonzero (div d0 (of_Z 3600))).
  - unfold fd_snap. pose proof (floor_nn _ _ Hdiv) as Hfl.
    destruct (SFltb half _).
    + apply Hres. eapply nn_weaken; [|eapply add_one_nn; [exact Hfl|lia]]. lia.
    + apply Hres. eapply nn_weaken; [|exact Hfl]. lia.
  - apply Hres. exact I.
Qed.

(** The product with 1000 of an acceptable float, when it is finite. *)
Lemma mul_1000 B x :
  nn B x -> is_finite (mul x (of_Z 1000)) = true ->
  nn 1024 (mul x (of_Z 1000)) /\ nn 1015 x.
Proof.
  intros Hx Hfin. change (of_Z 1000) with (S754_finite false 8796093022208000 (-43)) in *.
  destruct x as [sx| | |[] mx ex]; simpl in Hx; try tauto;
    try (split; exact I).
  destruct Hx as (Hdx & Hex & HEx).
  unfold mul, SFmul in *. simpl xorb in *.
  assert (Hd : Zdigits2 (Z.pos mx) + 52 <= Zdigits2 (Z.pos (mx * 8796093022208000))).
  { rewrite <- (Zdigits2_shift (Z.pos mx) 52) by lia.
    apply Zdigits2_mono. rewrite Pos2Z.inj_mul.
    change (2 ^ 52) with 4503599627370496. lia. }
  simpl Zdigits2 in Hd.
  pose proof (binary_round_aux_coarse false (Z.pos (mx * 8796093022208000)) (ex + -43)
                loc_Exact ltac:(lia)) as H.
  destruct (binary_round_aux prec emax false (Z.pos (mx * 8796093022208000)) (ex + -43)
              loc_Exact) as [s0|s0| |s0 m0 e0]; try discriminate.
  - split; [exact I|]. destruct H as [_ [H|H]]; [lia|].
    simpl Zdigits2 in H. unfold nn, emin in *. simpl Zdigits2. lia.
  - destruct H as (-> & H1 & H2 & H3 & H4). simpl Zdigits2 in *.
    unfold nn, fexp, emin in *. simpl Zdigits2. lia.
Qed.

Lemma valid_nn x :
  valid x = true -> is_finite x = true -> lt0 x = false -> nn 1024 x.
Proof.
  destruct x as [sx| | |[] mx ex]; simpl; try discriminate; try (intros; exact I).
  unfold valid, valid_binary, bounded, canonical_mantissa. rewrite fexp_eq.
  intros H _ _. apply andb_true_iff in H. destruct H as [H1 H2].
  apply Z.eqb_eq in H1. apply Z.leb_le in H2. unfold fexp, emin, emax, prec in *. lia.
Qed.


(** *** The operators on a float and a small [int] *)

Lemma float_rem_form B x B' y :
  nn B x -> nn B' y -> 0 < Zval y ->
  (exists s, float_rem x y = S754_zero s) \/
  (exists R, fits R /\ float_rem x y = canon R /\ R = Zval x mod Zval y).
Proof.
  intros Hx Hy Hpos. unfold float_rem.
  destruct (fmod_spec B x B' y Hx Hy Hpos) as [(Hz & s & ->)|(Hf & ->)].
  - left. simpl. eauto.
  - right. rewrite (nn_lt0 _ _ Hy). simpl. eauto.
Qed.

Lemma py_floordiv_float x n w :
  as_float (PyInt n) = Ok w -> nonzero w = true ->
  py_floordiv (PyFloat x) (PyInt n) = Ok (PyFloat (fst (float_div_mod x w))).
Proof. intros H1 H2. unfold py_floordiv. rewrite H1. simpl. now rewrite H2. Qed.

Lemma py_mod_float x n w :
  as_float (PyInt n) = Ok w -> nonzero w = true ->
  py_mod (PyFloat x) (PyInt n) = Ok (PyFloat (float_rem x w)).
Proof. intros H1 H2. unfold py_mod. rewrite H1. simpl. now rewrite H2. Qed.

Lemma py_mul_float x n w :
  as_float (PyInt n) = Ok w ->
  py_mul (PyFloat x) (PyInt n) = Ok (PyFloat (mul x w)).
Proof. intros H1. unfold py_mul. now rewrite H1. Qed.

Lemma as_float_small n :
  0 < n < 2 ^ 53 -> as_float (PyInt n) = Ok (of_Z n) /\ nonzero (of_Z n) = true.
Proof.
  intros Hn. destruct (of_Z_canon n Hn) as [_ H]. unfold as_float. rewrite H. auto.
Qed.

Lemma of_Z_nn n : 0 < n < 2 ^ 53 -> nn 1024 (of_Z n) /\ Zval (of_Z n) = n * U.
Proof.
  intros Hn. destruct (of_Z_canon n Hn) as [Hf ->]. now apply nn_canon.
Qed.

End F64Facts.

(** ** Widths of the formatted fields *)

Lemma length_zeros k : String.length (zeros k) = k.
Proof. induction k; simpl; auto. Qed.

Lemma length_zfill width s : String.length (zfill width s) = Nat.max width (String.length s).
Proof. unfold zfill. rewrite length_app_s, length_zeros. lia. Qed.

Lemma format_int0_nonneg width n : 0 <= n -> format_int0 width n = zfill width (str_of_nonneg n).
Proof. intros Hn. unfold format_int0. now destruct (Z.ltb_spec n 0); [lia|]. Qed.

Lemma format_int0_min_width width n : 0 <= n -> (width <= String.length (format_int0 width n))%nat.
Proof. intros Hn. rewrite format_int0_nonneg, length_zfill by exact Hn. lia. Qed.

Lemma format_int0_2 n : 0 <= n < 100 -> String.length (format_int0 2 n) = 2%nat.
Proof.
  intros Hn.
  assert (H : forallb (fun k => Nat.eqb (String.length (format_int0 2 (Z.of_nat k))) 2)
                (seq 0 100) = true) by (vm_compute; reflexivity).
  rewrite forallb_forall in H. specialize (H (Z.to_nat n)).
  rewrite Z2Nat.id in H by lia. apply Nat.eqb_eq, H, in_seq. lia.
Qed.

Lemma format_int0_3 n : 0 <= n < 1000 -> String.length (format_int0 3 n) = 3%nat.
Proof.
  intros Hn.
  assert (H : forallb (fun k => Nat.eqb (String.length (format_int0 3 (Z.of_nat k))) 3)
                (seq 0 1000) = true) by (vm_compute; reflexivity).
  rewrite forallb_forall in H. specialize (H (Z.to_nat n)).
  rewrite Z2Nat.id in H by lia. apply Nat.eqb_eq, H, in_seq. lia.
Qed.

Lemma uint_of_zeros k s :
  option_map N.of_uint (NilEmpty.uint_of_string (zeros k +:+ s))
  = option_map N.of_uint (NilEmpty.uint_of_string s).
Proof.
  induction k as [|k IH]; [reflexivity|].
  simpl zeros. rewrite app_cons. simpl NilEmpty.uint_of_string.
  destruct (NilEmpty.uint_of_string (zeros k +:+ s)) as [d|];
    destruct (NilEmpty.uint_of_string s) as [d'|]; simpl in *; congruence.
Qed.

Lemma decimal_value_format width n : 0 <= n -> decimal_value (format_int0 width n) = Some n.
Proof.
  intros Hn. rewrite format_int0_nonneg by exact Hn.
  unfold decimal_value, zfill, str_of_nonneg.
  set (d := N.to_uint (Z.to_N n)).
  assert (Hne : NilZero.string_of_uint d <> EmptyString).
  { unfold NilZero.string_of_uint. destruct d; discriminate. }
  assert (Hz : NilZero.uint_of_string (zeros (width - String.length (NilZero.string_of_uint d))
                                       +:+ NilZero.string_of_uint d)
               = NilEmpty.uint_of_string (zeros (width - String.length (NilZero.string_of_uint d))
                                          +:+ NilZero.string_of_uint d)).
  { destruct (zeros _) as [|c z]; [|reflexivity].
    rewrite app_empty_l. destruct (NilZero.string_of_uint d); [contradiction|reflexivity]. }
  rewrite Hz.
  assert (Hv : option_map N.of_uint (NilEmpty.uint_of_string (NilZero.string_of_uint d))
               = Some (Z.to_N n)).
  { rewrite <- (DecimalN.Unsigned.of_to (Z.to_N n)). fold d.
    destruct d; try reflexivity;
      unfold NilZero.string_of_uint; now rewrite NilEmpty.usu. }
  pose proof (uint_of_zeros (width - String.length (NilZero.string_of_uint d))
                (NilZero.string_of_uint d)) as Hk.
  rewrite Hv in Hk.
  destruct (NilEmpty.uint_of_string _) as [d'|]; simpl in Hk; [|discriminate].
  simpl. inversion Hk. f_equal. lia.
Qed.

(** ** The characters of the formatted fields *)

Lemma occurs_app c a b : occurs c (a +:+ b) = occurs c a || occurs c b.
Proof.
  induction a as [|d a IH]; [reflexivity|].
  rewrite app_cons. simpl. rewrite IH. now rewrite orb_assoc.
Qed.

Lemma occurs_uint c d :
  (nat_of_ascii c < 48 \/ 57 < nat_of_ascii c)%nat ->
  occurs c (NilEmpty.string_of_uint d) = false.
Proof.
  intros Hc.
  assert (Hne : forall a, (48 <= nat_of_ascii a <= 57)%nat -> Ascii.eqb c a = false).
  { intros a Ha. apply Ascii.eqb_neq. intros ->. lia. }
  induction d as [|d IH|d IH|d IH|d IH|d IH|d IH|d IH|d IH|d IH|d IH];
    [reflexivity|simpl; rewrite IH, Hne by (vm_compute; lia); reflexivity..].
Qed.

Lemma occurs_zeros c k : c <> "0"%char -> occurs c (zeros k) = false.
Proof.
  intros Hc. induction k as [|k IH]; [reflexivity|]. simpl. rewrite IH.
  apply Ascii.eqb_neq in Hc. now rewrite Hc.
Qed.

(** A formatted integer holds digits and at most a minus sign. *)
Lemma occurs_format_int0 c width n :
  c <> "-"%char -> (nat_of_ascii c < 48 \/ 57 < nat_of_ascii c)%nat ->
  occurs c (format_int0 width n) = false.
Proof.
  intros Hm Hd.
  assert (H0 : c <> "0"%char) by (intros ->; vm_compute in Hd; lia).
  assert (Hs : forall m, occurs c (str_of_nonneg m) = false).
  { intros m. unfold str_of_nonneg, NilZero.string_of_uint.
    destruct (N.to_uint (Z.to_N m)) eqn:E; rewrite <- ?E;
      try apply occurs_uint; try exact Hd.
    simpl. apply Ascii.eqb_neq in H0. now rewrite H0. }
  unfold format_int0, zfill. destruct (n <? 0).
  - rewrite app_cons, app_empty_l. simpl.
    rewrite occurs_app, occurs_zeros, Hs by exact H0.
    apply Ascii.eqb_neq in Hm. now rewrite Hm.
  - now rewrite occurs_app, occurs_zeros, Hs by exact H0.
Qed.

(** ** The fields of a timestamp *)

Section Fields.

Import F64 F64Facts.

Lemma timestamp_fields s :
  seconds_ok s ->
  exists q3600 r3600 q60 r60 p r1000 hrs mins secs ms,
    py_floordiv s (PyInt 3600) = Ok q3600 /\ py_int q3600 = Ok hrs /\
    py_mod s (PyInt 3600) = Ok r3600 /\ py_floordiv r3600 (PyInt 60) = Ok q60 /\
    py_int q60 = Ok mins /\
    py_mod s (PyInt 60) = Ok r60 /\ py_int r60 = Ok secs /\
    py_mul s (PyInt 1000) = Ok p /\ py_mod p (PyInt 1000) = Ok r1000 /\
    py_int r1000 = Ok ms /\
    0 <= hrs < str_limit /\ 0 <= mins < 60 /\ 0 <= secs < 60 /\ 0 <= ms < 1000.
Proof.
  pose proof str_limit_pos as HL.
  destruct s as [n|x]; simpl seconds_ok.
  - intros Hn.
    exists (PyInt (n / 3600)), (PyInt (n mod 3600)), (PyInt (n mod 3600 / 60)),
           (PyInt (n mod 60)), (PyInt (n * 1000)), (PyInt ((n * 1000) mod 1000)),
           (n / 3600), (n mod 3600 / 60), (n mod 60), ((n * 1000) mod 1000).
    repeat (split; [reflexivity|]).
    pose proof (Z.mod_pos_bound n 3600 ltac:(lia)).
    pose proof (Z.mod_pos_bound n 60 ltac:(lia)).
    pose proof (Z.mod_pos_bound (n * 1000) 1000 ltac:(lia)).
    split; [split; [apply Z.div_pos; lia | apply Z.div_lt_upper_bound; lia]|]. split; [|lia].
    split; [apply Z.div_pos; lia | apply Z.div_lt_upper_bound; lia].
  - intros (Hv & Hfin & Hneg & Hmul). pose proof U_pos as HU.
    pose proof (valid_nn x Hv Hfin Hneg) as Hx0.
    destruct (mul_1000 _ x Hx0 Hmul) as [Hp Hx].
    destruct (as_float_small 3600 ltac:(lia)) as [Ha3600 Hn3600].
    destruct (as_float_small 60 ltac:(lia)) as [Ha60 Hn60].
    destruct (as_float_small 1000 ltac:(lia)) as [Ha1000 Hn1000].
    destruct (of_Z_nn 3600 ltac:(lia)) as [Hw3600 Hv3600].
    destruct (of_Z_nn 60 ltac:(lia)) as [Hw60 Hv60].
    destruct (of_Z_nn 1000 ltac:(lia)) as [Hw1000 Hv1000].
    destruct (floordiv_3600 _ x Hx ltac:(lia)) as (hrs & Hhrs & Hhrs0).
    destruct (float_rem_spec _ x _ _ Hx Hw3600 ltac:(lia)) as [Hr3600 Hz3600].
    destruct (float_rem_spec _ x _ _ Hx Hw60 ltac:(lia)) as [Hr60 Hz60].
    destruct (float_rem_spec _ _ _ _ Hp Hw1000 ltac:(lia)) as [Hr1000 Hz1000].
    rewrite Hv3600 in Hz3600. rewrite Hv60 in Hz60. rewrite Hv1000 in Hz1000.
    pose proof (Z.mod_pos_bound (Zval x) (3600 * U) ltac:(lia)) as Hb3600.
    pose proof (Z.mod_pos_bound (Zval x) (60 * U) ltac:(lia)) as Hb60.
    pose proof (Z.mod_pos_bound (Zval (F64.mul x (F64.of_Z 1000))) (1000 * U) ltac:(lia))
      as Hb1000.
    assert (Hmins : py_int (PyFloat (fst (F64.float_div_mod
                                            (F64.float_rem x (F64.of_Z 3600)) (F64.of_Z 60))))
                    = Ok (Zval (F64.float_rem x (F64.of_Z 3600)) / (60 * U))).
    { apply floordiv_60.
      destruct (float_rem_form _ x _ _ Hx Hw3600 ltac:(lia)) as [[s0 Hs0]|(R & HfR & HR & HRv)].
      - left. eauto.
      - right. exists R. rewrite Hv3600 in HRv.
        split; [exact HfR|]. split; [exact HR|lia]. }
    exists (PyFloat (fst (F64.float_div_mod x (F64.of_Z 3600)))),
           (PyFloat (F64.float_rem x (F64.of_Z 3600))),
           (PyFloat (fst (F64.float_div_mod (F64.float_rem x (F64.of_Z 3600)) (F64.of_Z 60)))),
           (PyFloat (F64.float_rem x (F64.of_Z 60))),
           (PyFloat (F64.mul x (F64.of_Z 1000))),
           (PyFloat (F64.float_rem (F64.mul x (F64.of_Z 1000)) (F64.of_Z 1000))),
           hrs, (Zval (F64.float_rem x (F64.of_Z 3600)) / (60 * U)),
           (Zval (F64.float_rem x (F64.of_Z 60)) / U),
           (Zval (F64.float_rem (F64.mul x (F64.of_Z 1000)) (F64.of_Z 1000)) / U).
    split; [now apply py_floordiv_float|]. split; [exact Hhrs|].
    split; [now apply py_mod_float|]. split; [now apply py_floordiv_float|].
    split; [exact Hmins|].
    split; [now apply py_mod_float|]. split; [eapply py_int_nn, Hr60|].
    split; [now apply py_mul_float|]. split; [now apply py_mod_float|].
    split; [eapply py_int_nn, Hr1000|].
    split; [lia|].
    rewrite Hz3600, Hz60, Hz1000.
    split; [split; [apply Z.div_pos; lia | apply Z.div_lt_upper_bound; lia]|].
    split; split; try (apply Z.div_pos; lia); apply Z.div_lt_upper_bound; lia.
Qed.

End Fields.

(** An [int] whose hours have more than 4300 digits is not rendered. *)
Lemma timestamp_int_refused n :
  str_limit <= Z.abs (n / 3600) -> format_timestamp (PyInt n) = Raise ValueError.
Proof.
  intros H. unfold format_timestamp. cbn [py_floordiv py_mod py_mul py_int res_bind Z.eqb].
  now rewrite py_format_int0_raise.
Qed.

(** ** Subtitle files read back *)

Module WebVTTFacts.
Import WebVTT.





(** *** Words *)




(** *** Timestamps *)

Lemma cut_at_sep c a b : occurs c a = false -> cut_at c (a +:+ String c b) = Some (a, b).
Proof.
  induction a as [|d a IH]; intros H.
  - rewrite app_empty_l. cbn [cut_at]. now rewrite Ascii.eqb_refl.
  - cbn [occurs] in H. apply orb_false_iff in H. destruct H as [H1 H2].
    rewrite app_cons. cbn [cut_at]. rewrite Ascii.eqb_sym, H1, IH by exact H2. reflexivity.
Qed.

Lemma cut_at_none c a : occurs c a = false -> cut_at c a = None.
Proof.
  induction a as [|d a IH]; intros H; [reflexivity|].
  cbn [occurs] in H. apply orb_false_iff in H. destruct H as [H1 H2].
  cbn [cut_at]. now rewrite Ascii.eqb_sym, H1, IH.
Qed.

Lemma all_digits_app a b : all_digits (a +:+ b) = all_digits a && all_digits b.
Proof.
  induction a as [|c a IH]; [reflexivity|].
  rewrite app_cons. cbn [all_digits]. now rewrite IH, andb_assoc.
Qed.

Lemma all_digits_uint d : all_digits (NilEmpty.string_of_uint d) = true.
Proof. induction d; simpl; auto. Qed.

Lemma all_digits_zeros k : all_digits (zeros k) = true.
Proof. induction k; simpl; auto. Qed.

Lemma all_digits_format_int0 width n : 0 <= n -> all_digits (format_int0 width n) = true.
Proof.
  intros Hn. rewrite format_int0_nonneg by exact Hn. unfold zfill.
  rewrite all_digits_app, all_digits_zeros. unfold str_of_nonneg, NilZero.string_of_uint.
  destruct (N.to_uint (Z.to_N n)) eqn:E; rewrite <- ?E; try apply all_digits_uint. reflexivity.
Qed.

Lemma sixtieth_format n : 0 <= n < 60 -> sixtieth (format_int0 2 n) = true.
Proof.
  intros Hn.
  assert (H : forallb (fun k => sixtieth (format_int0 2 (Z.of_nat k))) (seq 0 60) = true)
    by (vm_compute; reflexivity).
  rewrite forallb_forall in H. specialize (H (Z.to_nat n)).
  rewrite Z2Nat.id in H by lia. apply H, in_seq. lia.
Qed.

(** The rendering of four fields in range is a timestamp. *)
Lemma is_timestamp_fields hrs mins secs ms :
  0 <= hrs -> 0 <= mins < 60 -> 0 <= secs < 60 -> 0 <= ms < 1000 ->
  is_timestamp (format_int0 2 hrs +:+ ":" +:+ format_int0 2 mins +:+ ":"
                +:+ format_int0 2 secs +:+ "." +:+ format_int0 3 ms) = true.
Proof.
  intros Hh Hm Hs Hms.
  assert (Hcolon : forall w n, occurs ":" (format_int0 w n) = false)
    by (intros; apply occurs_format_int0; [discriminate|vm_compute; lia]).
  assert (Hdot : forall w n, occurs "." (format_int0 w n) = false)
    by (intros; apply occurs_format_int0; [discriminate|vm_compute; lia]).
  unfold is_timestamp.
  replace (format_int0 2 hrs +:+ ":" +:+ format_int0 2 mins +:+ ":"
           +:+ format_int0 2 secs +:+ "." +:+ format_int0 3 ms)
    with ((format_int0 2 hrs +:+ ":" +:+ format_int0 2 mins +:+ ":" +:+ format_int0 2 secs)
          +:+ String "." (format_int0 3 ms))
    by (rewrite !app_assoc_s; reflexivity).
  rewrite cut_at_sep by (rewrite !occurs_app, !Hdot; reflexivity).
  rewrite all_digits_format_int0, format_int0_3 by lia. cbn [andb Nat.eqb].
  change (format_int0 2 hrs +:+ ":" +:+ format_int0 2 mins +:+ ":" +:+ format_int0 2 secs)
    with (format_int0 2 hrs +:+ String ":" (format_int0 2 mins +:+ ":" +:+ format_int0 2 secs)).
  rewrite cut_at_sep by apply Hcolon.
  change (format_int0 2 mins +:+ ":" +:+ format_int0 2 secs)
    with (format_int0 2 mins +:+ String ":" (format_int0 2 secs)).
  rewrite cut_at_sep by apply Hcolon.
  rewrite all_digits_format_int0, !sixtieth_format by lia.
  pose proof (format_int0_min_width 2 hrs Hh) as Hw.
  assert (Hw1 : (1 <=? String.length (format_int0 2 hrs))%nat = true)
    by (apply Nat.leb_le; lia).
  rewrite Hw1. reflexivity.
Qed.

(** A timestamp holds digits, colons and a dot. *)
Lemma occurs_fields c hrs mins secs ms :
  c <> "-"%char -> c <> ":"%char -> c <> "."%char ->
  (nat_of_ascii c < 48 \/ 57 < nat_of_ascii c)%nat ->
  occurs c (format_int0 2 hrs +:+ ":" +:+ format_int0 2 mins +:+ ":"
            +:+ format_int0 2 secs +:+ "." +:+ format_int0 3 ms) = false.
Proof.
  intros H1 H2 H3 H4.
  rewrite !occurs_app, !occurs_format_int0 by assumption.
  cbn [occurs orb]. apply Ascii.eqb_neq in H2, H3. now rewrite H2, H3.
Qed.





End WebVTTFacts.

(** ** The file of [create_vtt] read back *)

(** The rendering of an acceptable seconds value is a timestamp. *)
Lemma timestamp_well_formed s :
  seconds_ok s ->
  exists t, format_timestamp s = Ok t /\
    WebVTT.is_timestamp t = true /\ WebVTT.no_space t = true /\ WebVTT.one_line t = true.
Proof.
  intros Hs.
  destruct (timestamp_fields s Hs)
    as (q3600 & r3600 & q60 & r60 & p & r1000 & hrs & mins & secs & ms &
        H1 & H2 & H3 & H4 & H5 & H6 & H7 & H8 & H9 & H10 & Hh & Hm & Hsec & Hms).
  eexists. split.
  - unfold format_timestamp.
    rewrite H1, H3, H6, H8. cbn [res_bind].
    rewrite H2, H4, H9. cbn [res_bind]. rewrite H5, H7, H10. cbn [res_bind].
    apply format_fields; lia.
  - split; [apply WebVTTFacts.is_timestamp_fields; lia|].
    unfold WebVTT.no_space, WebVTT.one_line.
    rewrite !WebVTTFacts.occurs_fields by (discriminate || (vm_compute; lia)).
    split; reflexivity.
Qed.


(** On an acceptable seconds value [format_timestamp] returns. *)
Lemma timestamp_returns s : seconds_ok s -> exists t, format_timestamp s = Ok t.
Proof. intros Hs. destruct (timestamp_well_formed s Hs) as (t & Ht & _). eauto. Qed.





(** ** The model on values CPython was asked about

    The floats below are written with the mantissa [float.hex] prints;
    the results are those of CPython 3 on the same inputs. *)

Example literal_59_9999 :
  F64.literal 599999 10000 = S754_finite false 0x1dfffcb923a29c (-47).
Proof. vm_compute. reflexivity. Qed.

Example literal_1_9995 :
  F64.literal 19995 10000 = S754_finite false 0x1ffdf3b645a1cb (-52).
Proof. vm_compute. reflexivity. Qed.

Example literal_3661_5 :
  F64.literal 36615 10 = S754_finite false 0x1c9b0000000000 (-41).
Proof. vm_compute. reflexivity. Qed.

Example literal_1_2 :
  F64.literal 12 10 = S754_finite false 0x13333333333333 (-52).
Proof. vm_compute. reflexivity. Qed.

(** [1.001 * 1000] is [1000.9999999999999], so the milliseconds are 0. *)
Example timestamp_1_001 :
  format_timestamp (PyFloat (F64.literal 1001 1000)) = Ok "00:00:01.000"%string.
Proof. vm_compute. reflexivity. Qed.

Example timestamp_1e22 :
  format_timestamp (PyFloat (F64.of_Z (10 ^ 22)))
  = Ok "2777777777777777664:46:40.664"%string.
Proof. vm_compute. reflexivity. Qed.

(** Below zero the fields follow the floor division: [-1.5] is one hour
    before [59:58.500]. *)
Example timestamp_minus_1_5 :
  format_timestamp (PyFloat (F64.literal (-15) 10)) = Ok "-1:59:58.500"%string.
Proof. vm_compute. reflexivity. Qed.

(** And just below zero the remainders round up to the divisor: the
    bounds on the fields need a seconds value that is not negative. *)
Example timestamp_minus_5e_324 :
  format_timestamp (PyFloat (S754_finite true 1 (-1074))) = Ok "-1:60:60.1000"%string.
Proof. vm_compute. reflexivity. Qed.

Example timestamp_inf :
  format_timestamp (PyFloat (S754_infinity false)) = Raise ValueError.
Proof. vm_compute. reflexivity. Qed.

Example timestamp_minus_1_int :
  format_timestamp (PyInt (-1)) = Ok "-1:59:59.000"%string.
Proof. vm_compute. reflexivity. Qed.

(** * The claims *)

(** C1, as the code has it: for every [int] from zero up whose hours
    have at most 4300 digits, and for every float from zero up whose
    product with 1000 is still finite (up to about 1.797e305),
    [format_timestamp] returns the string made of the hours
    [int(s // 3600)], the minutes [int((s % 3600) // 60)], the seconds
    [int(s % 60)] and the milliseconds [int((s * 1000) % 1000)], each cut
    to an integer by [int], none negative, minutes and seconds below 60
    and milliseconds below 1000, written in decimal as [HH:MM:SS.mmm]
    with at least two digits for the hours, two for the minutes, two for
    the seconds and three for the milliseconds.  [int] truncates: on a
    float of [n] units of [2^-1074] it returns the whole number of ones
    in [n], with the sign of the float.  And [format_timestamp(0)] is
    [00:00:00.000], [format_timestamp(3661.5)] is [01:01:01.500]. *)
Theorem format_timestamp_fields :
  (forall s, seconds_ok s ->
     exists hrs mins secs ms HH MM SS mmm,
       (let? q := py_floordiv s (PyInt 3600) in py_int q) = Ok hrs /\
       (let? r := py_mod s (PyInt 3600) in
        let? q := py_floordiv r (PyInt 60) in py_int q) = Ok mins /\
       (let? r := py_mod s (PyInt 60) in py_int r) = Ok secs /\
       (let? p := py_mul s (PyInt 1000) in
        let? r := py_mod p (PyInt 1000) in py_int r) = Ok ms /\
       0 <= hrs /\ 0 <= mins < 60 /\ 0 <= secs < 60 /\ 0 <= ms < 1000 /\
       format_timestamp s = Ok (HH +:+ ":" +:+ MM +:+ ":" +:+ SS +:+ "." +:+ mmm) /\
       decimal_value HH = Some hrs /\ decimal_value MM = Some mins /\
       decimal_value SS = Some secs /\ decimal_value mmm = Some ms /\
       (2 <= String.length HH)%nat /\ String.length MM = 2%nat /\
       String.length SS = 2%nat /\ String.length mmm = 3%nat) /\
  (forall x, F64.valid x = true -> F64.is_finite x = true ->
     py_int (PyFloat x) = Ok (cond_Zopp (F64.signbit x) (F64.Zval x / F64.U))) /\
  format_timestamp (PyInt 0) = Ok "00:00:00.000"%string /\
  format_timestamp (PyFloat (F64.literal 36615 10)) = Ok "01:01:01.500"%string.
Proof.
  split; [|split; [exact F64Facts.py_int_trunc | split; vm_compute; reflexivity]].
  intros s Hs.
  destruct (timestamp_fields s Hs)
    as (q3600 & r3600 & q60 & r60 & p & r1000 & hrs & mins & secs & ms &
        H1 & H2 & H3 & H4 & H5 & H6 & H7 & H8 & H9 & H10 & Hh & Hm & Hsec & Hms).
  exists hrs, mins, secs, ms,
    (format_int0 2 hrs), (format_int0 2 mins), (format_int0 2 secs), (format_int0 3 ms).
  unfold format_timestamp.
  rewrite H1, H3, H6, H8. cbn [res_bind].
  rewrite H2, H4, H9. cbn [res_bind]. rewrite H5, H7, H10. cbn [res_bind].
  rewrite format_fields by lia.
  repeat (split; [reflexivity || assumption || lia|]).
  repeat (split; [apply decimal_value_format; lia|]).
  split; [apply format_int0_min_width; lia|].
  split; [apply format_int0_2; lia|].
  split; [apply format_int0_2; lia | apply format_int0_3; lia].
Qed.

Lemma format_timestamp_fields_witness :
  seconds_ok (PyFloat (F64.literal 36615 10)) /\
  exists hrs mins secs ms HH MM SS mmm,
    0 <= hrs /\ 0 <= mins < 60 /\ 0 <= secs < 60 /\ 0 <= ms < 1000 /\
    format_timestamp (PyFloat (F64.literal 36615 10))
    = Ok (HH +:+ ":" +:+ MM +:+ ":" +:+ SS +:+ "." +:+ mmm) /\
    decimal_value HH = Some hrs /\ decimal_value MM = Some mins /\
    decimal_value SS = Some secs /\ decimal_value mmm = Some ms.
Proof.
  assert (Hok : seconds_ok (PyFloat (F64.literal 36615 10))).
  { repeat split; vm_compute; reflexivity. }
  split; [exact Hok|].
  destruct (proj1 format_timestamp_fields _ Hok)
    as (hrs & mins & secs & ms & HH & MM & SS & mmm &
        _ & _ & _ & _ & Hh & Hm & Hs & Hms & Hf & D1 & D2 & D3 & D4 & _).
  exists hrs, mins, secs, ms, HH, MM, SS, mmm. auto 10.
Defined.

(** C1 fails on a float so large that its product with 1000 is
    infinite: 1e306 is finite and positive, [1e306 * 1000] is [inf],
    [inf % 1000] is NaN, and [int] raises [ValueError] on NaN.  It fails
    on an [int] whose hours have more than 4300 digits too:
    [3600 * 10**4300] is not rendered, the conversion of its hours to a
    string raises [ValueError]. *)
Lemma format_timestamp_raises_on_1e306 :
  let s := F64.of_Z (10 ^ 306) in
  F64.valid s = true /\ F64.is_finite s = true /\ F64.lt0 s = false /\
  py_mul (PyFloat s) (PyInt 1000) = Ok (PyFloat (S754_infinity false)) /\
  py_mod (PyFloat (S754_infinity false)) (PyInt 1000) = Ok (PyFloat S754_nan) /\
  format_timestamp (PyFloat s) = Raise ValueError /\
  format_timestamp (PyInt (3600 * 10 ^ 4300)) = Raise ValueError.
Proof.
  do 6 (split; [vm_compute; reflexivity|]).
  apply timestamp_int_refused. rewrite Z.mul_comm, Z.div_mul by lia.
  change (10 ^ 4300) with str_limit. lia.
Qed.

(** C2: [format_timestamp] cuts the milliseconds off and does not round
    them: 59.9999 s is rendered [00:00:59.999] and 1.9995 s is rendered
    [00:00:01.999], not [00:00:02.000].  For 1.9995 the product with 1000
    is exactly 1999.5 and its remainder by 1000 exactly 999.5, half-way to
    the next millisecond, and the digits written are 999. *)
Theorem format_timestamp_truncates :
  format_timestamp (PyFloat (F64.literal 599999 10000)) = Ok "00:00:59.999"%string /\
  format_timestamp (PyFloat (F64.literal 19995 10000)) = Ok "00:00:01.999"%string /\
  format_timestamp (PyFloat (F64.literal 19995 10000)) <> Ok "00:00:02.000"%string /\
  py_mul (PyFloat (F64.literal 19995 10000)) (PyInt 1000) = Ok (PyFloat (F64.literal 19995 10)) /\
  py_mod (PyFloat (F64.literal 19995 10)) (PyInt 1000) = Ok (PyFloat (F64.literal 9995 10)) /\
  py_int (PyFloat (F64.literal 9995 10)) = Ok 999.
Proof.
  repeat split; try (vm_compute; reflexivity).
  vm_compute. discriminate.
Qed.

(** C4: translation leaves the timing alone.  Every element of the list
    [translate_segments] returns has the [start] and the [end] of the
    input segment at the same position, and its [text] is what the
    translator returned for that segment's text. *)
Theorem translation_keeps_timing {Ext : Type}
    (translator_translate : string -> string -> Ext -> res string * Ext)
    (segments : list Segment) (target_lang : string) (w w' : world Ext)
    (out : list TranslatedSegment) :
  translate_segments translator_translate segments target_lang w = (Ok out, w') ->
  length out = length segments /\
  forall i seg, segments !! i = Some seg ->
    exists ts, out !! i = Some ts /\
      start ts = seg_start seg /\ end_ ts = seg_end seg /\
      exists e e', translator_translate (seg_text seg) target_lang e = (Ok (text ts), e').
Proof.
  intros H. apply translate_loop_ok in H.
  destruct H as (new & -> & Hall & _). simpl. split.
  - symmetry. eapply Forall2_length, Hall.
  - intros i seg Hi.
    destruct (Forall2_lookup_l _ _ _ _ _ Hall Hi) as (ts & Hts & H1 & H2 & H3).
    exists ts. auto.
Qed.

Lemma translation_keeps_timing_witness :
  exists out w',
    translate_segments Demo.french Demo.hello_world "fr" (Demo.empty_world tt) = (Ok out, w') /\
    length out = 2%nat /\
    forall i seg, Demo.hello_world !! i = Some seg ->
      exists ts, out !! i = Some ts /\
        start ts = seg_start seg /\ end_ ts = seg_end seg /\
        exists e e', Demo.french (seg_text seg) "fr" e = (Ok (text ts), e').
Proof.
  eexists _, _. split; [vm_compute; reflexivity|].
  exact (translation_keeps_timing Demo.french Demo.hello_world "fr"
           (Demo.empty_world tt) _ _ eq_refl).
Defined.







(** C6: the scenario of the specification.  For the segments
    [{0.0, 1.2, Hello}] and [{1.2, 3.0, World}], whenever the translator
    answers [Bonjour] and [Monde], the file [create_vtt] writes from the
    result of [translate_segments], to a destination that can be opened,
    is exactly the expected one. *)
Theorem hello_world_scenario {Ext : Type}
    (translator_translate : string -> string -> Ext -> res string * Ext)
    (os_open_w : string -> Ext -> res unit)
    (file_path : string) (w w1 : world Ext) (out : list TranslatedSegment) :
  translate_segments translator_translate Demo.hello_world "fr" w = (Ok out, w1) ->
  map text out = ["Bonjour"; "Monde"]%string ->
  os_open_w file_path (ext w1) = Ok tt ->
  exists w2,
    create_vtt os_open_w out file_path w1 = (Ok tt, w2) /\
    files w2 !! file_path
    = Some ("WEBVTT" +:+ nl +:+ nl +:+
            "00:00:00.000 --> 00:00:01.200" +:+ nl +:+ "Bonjour" +:+ nl +:+ nl +:+
            "00:00:01.200 --> 00:00:03.000" +:+ nl +:+ "Monde" +:+ nl +:+ nl).
Proof.
  intros H Htext Hopen. apply translate_loop_ok in H.
  destruct H as (new & -> & Hall & _). rewrite app_nil_l in *.
  unfold Demo.hello_world in Hall.
  inversion Hall as [|s1 t1 ? l1 (Hs1 & He1 & _) Hall1]; subst.
  inversion Hall1 as [|s2 t2 ? l2 (Hs2 & He2 & _) Hall2]; subst.
  inversion Hall2; subst.
  destruct t1 as [a1 b1 c1], t2 as [a2 b2 c2].
  cbn [start end_ text seg_start seg_end map] in *.
  inversion Htext; subst.
  assert (T0 : format_timestamp (Demo.float 0 10) = Ok "00:00:00.000"%string)
    by (vm_compute; reflexivity).
  assert (T1 : format_timestamp (Demo.float 12 10) = Ok "00:00:01.200"%string)
    by (vm_compute; reflexivity).
  assert (T2 : format_timestamp (Demo.float 30 10) = Ok "00:00:03.000"%string)
    by (vm_compute; reflexivity).
  eexists. split.
  - apply create_vtt_ok; [exact Hopen|]. constructor; [|constructor; [|constructor]].
    + apply (cue_block_stamped _ ("00:00:00.000", "00:00:01.200")%string). split; assumption.
    + apply (cue_block_stamped _ ("00:00:01.200", "00:00:03.000")%string). split; assumption.
  - cbn [files]. rewrite lookup_insert_eq. reflexivity.
Qed.

Lemma hello_world_scenario_witness :
  exists out w1 w2,
    translate_segments Demo.french Demo.hello_world "fr" (Demo.empty_world tt) = (Ok out, w1) /\
    map text out = ["Bonjour"; "Monde"]%string /\
    create_vtt Demo.grants out "subs.vtt" w1 = (Ok tt, w2) /\
    files w2 !! "subs.vtt"%string
    = Some ("WEBVTT" +:+ nl +:+ nl +:+
            "00:00:00.000 --> 00:00:01.200" +:+ nl +:+ "Bonjour" +:+ nl +:+ nl +:+
            "00:00:01.200 --> 00:00:03.000" +:+ nl +:+ "Monde" +:+ nl +:+ nl).
Proof.
  eexists _, _.
  destruct (hello_world_scenario Demo.french Demo.grants "subs.vtt" (Demo.empty_world tt) _ _
              eq_refl eq_refl eq_refl) as (w2 & Hrun & Hfile).
  exists w2. repeat split; [exact Hrun | exact Hfile].
Defined.

(** C7, as the code has it: [extract_audio] never looks at the exit
    status of the transcoder.  Once the process has been started,
    whatever status it ends with (1 when the input has no audio stream,
    say), [extract_audio] returns [None] and the files are as the process
    left them.  When the process cannot be started, the exception of the
    launch is the exception of [extract_audio]. *)
Theorem extract_audio_ignores_exit_status {Ext : Type}
    (spawn : list string -> gmap string string -> Ext -> res Z * gmap string string * Ext)
    (video_path audio_path : string) (w : world Ext) :
  extract_audio spawn video_path audio_path w
  = let '(r, fs, e) :=
      spawn ["ffmpeg"; "-y"; "-i"; video_path; "-vn"; "-acodec"; "mp3"; audio_path]%string
            (files w) (ext w) in
    (match r with Ok status => Ok tt | Raise x => Raise x end,
     World fs e (translate_log w) (ui w)).
Proof.
  unfold extract_audio, bind, subprocess_run, ret.
  destruct (spawn _ (files w) (ext w)) as [[[status|x] fs] e]; reflexivity.
Qed.

(** C7 fails where the transcoder is not installed: starting it raises
    [FileNotFoundError], and so does [extract_audio]. *)
Lemma extract_audio_raises_without_ffmpeg :
  extract_audio Demo.no_ffmpeg "in.mp4" "out.mp3" (Demo.empty_world tt)
  = (Raise FileNotFoundError, Demo.empty_world tt).
Proof. reflexivity. Qed.

(** A transcoder that finds no audio stream goes unnoticed. *)
Lemma extract_audio_silent_without_audio :
  extract_audio Demo.ffmpeg_no_audio "in.mp4" "out.mp3" (Demo.empty_world tt)
  = (Ok tt, Demo.empty_world tt).
Proof. reflexivity. Qed.

(** C8: a failed translation ends the job.  When the calls for the
    segments before [seg] succeed and the call for [seg] raises [x], then
    [translate_segments] raises [x] and returns no list; the translator was
    called once for each segment up to [seg], in order, and not for the
    segments after it; and the job raises [x] with the files and the page
    as they were when translation began, so [create_vtt] never ran. *)
Theorem translation_failure_aborts_job {Ext : Type}
    (spawn : list string -> gmap string string -> Ext -> res Z * gmap string string * Ext)
    (whisper_transcribe : string -> string -> gmap string string -> Ext ->
                          res (list Segment) * Ext)
    (translator_translate : string -> string -> Ext -> res string * Ext)
    (temp_name : string -> gmap string string -> Ext -> string * Ext)
    (b64encode : string -> string)
    (os_open_w : string -> Ext -> res unit)
    (uploaded_video source_lang target_lang video_path temp_audio temp_subs : string)
    (pre post : list Segment) (seg : Segment) (out1 : list TranslatedSegment)
    (w w1 w2 : world Ext) (x : exn) (e3 : Ext) :
  job_prepare spawn whisper_transcribe temp_name uploaded_video source_lang w
  = (Ok (video_path, temp_audio, temp_subs, pre ++ seg :: post), w1) ->
  translate_segments translator_translate pre target_lang w1 = (Ok out1, w2) ->
  translator_translate (seg_text seg) target_lang (ext w2) = (Raise x, e3) ->
  let w3 := World (files w1) e3
              (translate_log w1 ++ map (call_of target_lang) (pre ++ [seg])) (ui w1) in
  translate_segments translator_translate (pre ++ seg :: post) target_lang w1 = (Raise x, w3) /\
  job spawn whisper_transcribe translator_translate temp_name b64encode os_open_w
      uploaded_video source_lang target_lang w = (Raise x, w3).
Proof.
  intros Hprep Hpre Hcall w3.
  assert (Htr : translate_segments translator_translate (pre ++ seg :: post) target_lang w1
                = (Raise x, w3)).
  { unfold translate_segments in *.
    rewrite (translate_loop_raise _ _ _ _ _ _ _ _ _ _ _ Hpre Hcall).
    apply translate_loop_ok in Hpre. destruct Hpre as (new & _ & _ & Hf & Hu & Hl).
    unfold w3. rewrite Hf, Hu, Hl, map_app, <- app_assoc. reflexivity. }
  split; [exact Htr|].
  unfold job. rewrite (bind_ok _ _ _ _ _ Hprep).
  apply bind_raise, Htr.
Qed.

Lemma translation_failure_aborts_job_witness :
  let w0 := Demo.empty_world 0%nat in
  let hello := {| seg_start := Demo.float 0 10; seg_end := Demo.float 12 10;
                  seg_text := "Hello" |} in
  let world := {| seg_start := Demo.float 12 10; seg_end := Demo.float 30 10;
                  seg_text := "World" |} in
  exists w1 w3,
    job_prepare Demo.ffmpeg_no_audio Demo.whisper_hello Demo.temp_name "VIDEO" "en" w0
    = (Ok ("/tmp/tmp.mp4", "/tmp/tmp.mp3", "/tmp/tmp.vtt", [hello] ++ world :: []), w1) /\
    translate_segments Demo.rate_limited ([hello] ++ world :: []) "fr" w1
    = (Raise (ExternalError "rate limit"), w3) /\
    job Demo.ffmpeg_no_audio Demo.whisper_hello Demo.rate_limited Demo.temp_name Demo.b64
        Demo.grants "VIDEO" "en" "fr" w0 = (Raise (ExternalError "rate limit"), w3) /\
    files w3 = files w1 /\
    files w3 !! "/tmp/tmp.vtt" = Some EmptyString /\
    translate_log w3 = [("Hello", "fr"); ("World", "fr")].
Proof.
  intros w0 hello world.
  pose (w1 := snd (job_prepare Demo.ffmpeg_no_audio Demo.whisper_hello Demo.temp_name
                     "VIDEO" "en" w0)).
  pose (w2 := snd (translate_segments Demo.rate_limited [hello] "fr" w1)).
  assert (Hprep : job_prepare Demo.ffmpeg_no_audio Demo.whisper_hello Demo.temp_name
                    "VIDEO" "en" w0
                  = (Ok ("/tmp/tmp.mp4", "/tmp/tmp.mp3", "/tmp/tmp.vtt",
                         [hello] ++ world :: []), w1))
    by (vm_compute; reflexivity).
  assert (Hpre : translate_segments Demo.rate_limited [hello] "fr" w1
                 = (Ok [ {| start := Demo.float 0 10; end_ := Demo.float 12 10;
                            text := "<Hello>" |} ], w2))
    by (vm_compute; reflexivity).
  assert (Hcall : Demo.rate_limited (seg_text world) "fr" (ext w2)
                  = (Raise (ExternalError "rate limit"), 2%nat))
    by (vm_compute; reflexivity).
  destruct (translation_failure_aborts_job
              Demo.ffmpeg_no_audio Demo.whisper_hello Demo.rate_limited Demo.temp_name Demo.b64
              Demo.grants "VIDEO" "en" "fr" "/tmp/tmp.mp4" "/tmp/tmp.mp3" "/tmp/tmp.vtt"
              [hello] [] world _ w0 w1 w2 _ _ Hprep Hpre Hcall) as [Htr Hjob].
  eexists w1, _. split; [exact Hprep|]. split; [exact Htr|]. split; [exact Hjob|].
  split; [reflexivity|]. split; vm_compute; reflexivity.
Defined.

(** C9: for the empty list of segments the file [create_vtt] writes, to
    a destination that can be opened, is the header line and one empty
    line, eight bytes, and nothing more. *)
Theorem create_vtt_empty {Ext : Type} (os_open_w : string -> Ext -> res unit)
    (file_path : string) (w : world Ext) :
  os_open_w file_path (ext w) = Ok tt ->
  create_vtt os_open_w [] file_path w
  = (Ok tt, World (<[file_path := "WEBVTT" +:+ nl +:+ nl]> (files w))
              (ext w) (translate_log w) (ui w)) /\
  files (snd (create_vtt os_open_w [] file_path w)) !! file_path
  = Some ("WEBVTT" +:+ nl +:+ nl) /\
  String.length ("WEBVTT" +:+ nl +:+ nl) = 8%nat.
Proof.
  intros Hopen.
  assert (H : create_vtt os_open_w [] file_path w
              = (Ok tt, World (<[file_path := "WEBVTT" +:+ nl +:+ nl]> (files w))
                          (ext w) (translate_log w) (ui w))).
  { rewrite (create_vtt_ok os_open_w [] [] file_path w Hopen) by constructor.
    simpl. now rewrite app_empty_r. }
  split; [exact H|]. rewrite H. simpl. split; [apply lookup_insert_eq | reflexivity].
Qed.

Lemma create_vtt_empty_witness :
  create_vtt Demo.grants [] "subs.vtt" (Demo.empty_world tt)
  = (Ok tt, World (<["subs.vtt"%string := "WEBVTT" +:+ nl +:+ nl]> ∅) tt [] []) /\
  files (snd (create_vtt Demo.grants [] "subs.vtt" (Demo.empty_world tt))) !! "subs.vtt"%string
  = Some ("WEBVTT" +:+ nl +:+ nl) /\
  String.length ("WEBVTT" +:+ nl +:+ nl) = 8%nat.
Proof. exact (create_vtt_empty Demo.grants "subs.vtt" (Demo.empty_world tt) eq_refl). Defined.




(** * More about the code

    ** Binary64 arithmetic, exactly

    Where the quotient of two floats is a whole number below [2^53] the
    division is exact, so the hours of a float below [2^53] are exact;
    a rounded mantissa tells where the product with 1000 lands; and
    nothing at or below the largest float rounds to infinity. *)

Module F64Exact.

Import F64 F64Facts.

(** *** Exact quotients *)

(** A valid float that is positive is the canonical float of its count
    of units. *)
Lemma valid_canon m e :
  valid (S754_finite false m e) = true ->
  fits (units (Z.pos m) e) /\ S754_finite false m e = canon (units (Z.pos m) e).
Proof.
  unfold valid, valid_binary, bounded, canonical_mantissa. rewrite fexp_eq.
  intros H. apply andb_true_iff in H. destruct H as [H1 H2].
  apply Z.eqb_eq in H1. apply Z.leb_le in H2. unfold emax, prec in H2.
  change (Z.pos (digits2_pos m)) with (Zdigits2 (Z.pos m)) in H1.
  pose proof (Zdigits2_pos (Z.pos m) ltac:(lia)) as Hd.
  assert (He : emin <= e) by (unfold fexp in H1; lia).
  assert (Hdn : Zdigits2 (units (Z.pos m) e) = Zdigits2 (Z.pos m) + e - emin)
    by (apply units_digits; lia).
  assert (Hs : slack (units (Z.pos m) e) = e - emin).
  { unfold slack. rewrite Hdn. unfold fexp in H1. lia. }
  assert (Hp : 0 < 2 ^ (e - emin)) by (apply Z.pow_pos_nonneg; lia).
  split.
  - split; [apply units_pos; lia|]. split.
    + rewrite Hs. unfold units. apply Z.mod_mul. lia.
    + rewrite Hdn. unfold fexp, emin in *. lia.
  - unfold canon. rewrite Hs. unfold units at 1. rewrite Z.div_mul by lia.
    simpl Z.to_pos. f_equal. lia.
Qed.

(** [binary_round_aux] on an exact mantissa whose exponent is not above
    the one the format gives its value. *)
Lemma binary_round_aux_canon m e :
  0 < m -> emin <= e -> e <= fexp (Zdigits2 m + e) -> fits (units m e) ->
  binary_round_aux prec emax false m e loc_Exact = canon (units m e).
Proof.
  intros Hm He Hle (Hn & Hmod & Hd).
  assert (Hdn : Zdigits2 (units m e) = Zdigits2 m + e - emin) by (apply units_digits; lia).
  unfold canon. set (sh := slack (units m e)) in *.
  assert (Hs : emin + sh = fexp (Zdigits2 m + e)).
  { unfold sh, slack, fexp. rewrite Hdn. lia. }
  assert (Hs0 : 0 <= sh) by (unfold sh, slack; lia).
  assert (He2 : Z.max e (fexp (Zdigits2 m + e)) = emin + sh) by lia.
  assert (Hp1 : 0 < 2 ^ (e - emin)) by (apply Z.pow_pos_nonneg; lia).
  assert (Hp2 : 0 < 2 ^ (emin + sh - e)) by (apply Z.pow_pos_nonneg; lia).
  assert (Hsplit : 2 ^ sh = 2 ^ (emin + sh - e) * 2 ^ (e - emin)).
  { rewrite <- Z.pow_add_r by lia. f_equal. lia. }
  assert (Hmm : m mod 2 ^ (emin + sh - e) = 0).
  { apply Z.mod_divide in Hmod; [|lia]. destruct Hmod as [q Hq].
    unfold units in Hq. rewrite Hsplit, Z.mul_assoc in Hq.
    apply Z.mul_reg_r in Hq; [|lia]. rewrite Hq. apply Z.mod_mul. lia. }
  rewrite binary_round_aux_exact; rewrite ?He2; try assumption;
    [|unfold sh, slack, emin in *; lia].
  do 2 f_equal.
  rewrite Hsplit. unfold units.
  rewrite Z.div_mul_cancel_r by lia. reflexivity.
Qed.

Lemma new_location_0 n : new_location n 0 = loc_Exact.
Proof. unfold new_location. destruct (Z.even n); reflexivity. Qed.

(** The quotient of two positive floats whose values are in a whole
    ratio [q] below [2^53] is the float of [q]. *)
Lemma div_exact mx ex my ey q :
  emin <= ex -> emin <= ey -> Zdigits2 (Z.pos mx) <= 53 -> 0 < q < 2 ^ 53 ->
  units (Z.pos mx) ex = q * units (Z.pos my) ey ->
  div (S754_finite false mx ex) (S754_finite false my ey) = canon (q * U).
Proof.
  intros Hex Hey Hdx Hq Hu.
  destruct (of_Z_canon q Hq) as [Hfq _].
  unfold div, SFdiv, SFdiv_core_binary. rewrite fexp_eq. simpl xorb.
  set (d1 := Zdigits2 (Z.pos mx)) in *. set (d2 := Zdigits2 (Z.pos my)).
  set (e' := Z.min (fexp (d1 + ex - (d2 + ey))) (ex - ey)).
  set (s := ex - ey - e').
  assert (Hs : 0 <= s) by (unfold s, e'; lia).
  rewrite (shiftl_case (Z.pos mx) s Hs).
  assert (Hd1 : 0 < d1) by (apply Zdigits2_pos; lia).
  assert (Hd2 : 0 < d2) by (apply Zdigits2_pos; lia).
  pose proof (Zdigits2_bounds (Z.pos mx) ltac:(lia)) as [Hx1 Hx2]. fold d1 in Hx1, Hx2.
  pose proof (Zdigits2_bounds (Z.pos my) ltac:(lia)) as [Hy1 Hy2]. fold d2 in Hy1, Hy2.
  pose proof (Zdigits2_bounds q ltac:(lia)) as [Hq1 Hq2].
  pose proof (Zdigits2_pos q ltac:(lia)) as Hdq0.
  assert (Hdq53 : Zdigits2 q <= 53) by (apply Zdigits2_le; lia).
  (* the magnitudes: [d1 + ex - (d2 + ey) <= digits q] *)
  assert (Hmag : d1 + ex - (d2 + ey) <= Zdigits2 q).
  { destruct (Z_le_gt_dec (d1 + ex - (d2 + ey)) (Zdigits2 q)) as [?|Hgt]; [assumption|exfalso].
    (* x >= 2^(d1-1+ex) and q*y < 2^(digits q + d2 + ey) *)
    unfold units in Hu.
    assert (Hp : 0 < 2 ^ (ex - emin)) by (apply Z.pow_pos_nonneg; lia).
    assert (Hp' : 0 < 2 ^ (ey - emin)) by (apply Z.pow_pos_nonneg; lia).
    assert (H1 : 2 ^ (d1 - 1 + (ex - emin)) <= Z.pos mx * 2 ^ (ex - emin)).
    { rewrite Z.pow_add_r by lia. nia. }
    assert (H2 : q * (Z.pos my * 2 ^ (ey - emin)) < 2 ^ (Zdigits2 q + d2 + (ey - emin))).
    { rewrite !Z.pow_add_r by lia.
      assert (0 < 2 ^ Zdigits2 q) by (apply Z.pow_pos_nonneg; lia).
      assert (0 < 2 ^ d2) by (apply Z.pow_pos_nonneg; lia).
      assert (q * Z.pos my < 2 ^ Zdigits2 q * 2 ^ d2) by nia. nia. }
    assert (2 ^ (Zdigits2 q + d2 + (ey - emin)) <= 2 ^ (d1 - 1 + (ex - emin)))
      by (apply Z.pow_le_mono_r; lia).
    lia. }
  assert (He'f : e' <= Zdigits2 q - 53) by (unfold e', fexp, emin in *; lia).
  assert (He'0 : e' <= 0) by lia.
  assert (He'min : emin <= e').
  { assert (- 53 < ex - ey); [|unfold e', fexp, emin in *; lia].
    destruct (Z_lt_le_dec (- 53) (ex - ey)) as [?|Hge]; [assumption|exfalso].
    unfold units in Hu.
    assert (Hp' : 0 < 2 ^ (ey - emin)) by (apply Z.pow_pos_nonneg; lia).
    assert (Hp : 0 < 2 ^ (ex - emin)) by (apply Z.pow_pos_nonneg; lia).
    assert (2 ^ d1 <= 2 ^ 53) by (apply Z.pow_le_mono_r; lia).
    assert (H1 : Z.pos mx * 2 ^ (ex - emin) < 2 ^ (53 + (ex - emin))).
    { rewrite Z.pow_add_r by lia. nia. }
    assert (2 ^ (53 + (ex - emin)) <= 2 ^ (ey - emin)) by (apply Z.pow_le_mono_r; lia).
    assert (1 * 2 ^ (ey - emin) <= q * Z.pos my * 2 ^ (ey - emin)).
    { apply Z.mul_le_mono_nonneg_r; [lia|nia]. }
    lia. }
  (* the shifted mantissa is a multiple of the divisor *)
  assert (Hps : 0 < 2 ^ s) by (apply Z.pow_pos_nonneg; lia).
  assert (Hpe : 0 < 2 ^ (- e')) by (apply Z.pow_pos_nonneg; lia).
  assert (Hm' : Z.pos mx * 2 ^ s = q * 2 ^ (- e') * Z.pos my).
  { unfold units in Hu.
    assert (Hp' : 0 < 2 ^ (ey - emin + s)) by (apply Z.pow_pos_nonneg; lia).
    apply (Z.mul_reg_r _ _ (2 ^ (ex - emin))); [pose proof (Z.pow_pos_nonneg 2 (ex - emin)); lia|].
    replace (Z.pos mx * 2 ^ s * 2 ^ (ex - emin)) with (Z.pos mx * 2 ^ (ex - emin) * 2 ^ s) by ring.
    rewrite Hu.
    replace (ex - emin) with ((ey - emin) + (ex - ey)) by lia.
    replace (ex - ey) with (s + e') at 2 by (unfold s; lia).
    replace (q * 2 ^ (- e') * Z.pos my * 2 ^ ((ey - emin) + (ex - ey)))
      with (q * Z.pos my * (2 ^ (- e') * 2 ^ ((ey - emin) + (ex - ey)))) by ring.
    rewrite <- (Z.pow_add_r 2 (- e')) by lia.
    replace (q * (Z.pos my * 2 ^ (ey - emin)) * 2 ^ s)
      with (q * Z.pos my * (2 ^ (ey - emin) * 2 ^ s)) by ring.
    rewrite <- Z.pow_add_r by lia. do 2 f_equal. unfold s. lia. }
  rewrite Hm'.
  assert (Hde : Z.div_eucl (q * 2 ^ (- e') * Z.pos my) (Z.pos my) = (q * 2 ^ (- e'), 0)).
  { assert (H : forall a b, Z.div_eucl a b = (a / b, a mod b)).
    { intros a b. unfold Z.div, Z.modulo. now destruct (Z.div_eucl a b). }
    rewrite H, Z.div_mul, Z.mod_mul by lia. reflexivity. }
  rewrite Hde, new_location_0.
  assert (Hunits : units (q * 2 ^ (- e')) e' = q * U).
  { unfold units, U. rewrite <- Z.mul_assoc, <- Z.pow_add_r by (unfold emin in *; lia).
    do 2 f_equal. unfold emin. lia. }
  rewrite <- Hunits. apply binary_round_aux_canon.
  - nia.
  - exact He'min.
  - rewrite Zdigits2_shift by lia. unfold fexp, emin in *. lia.
  - now rewrite Hunits.
Qed.


(** A float whose value is a whole number is its own [floor]. *)
Lemma floor_whole k : 0 < k < 2 ^ 53 -> floor (canon (k * U)) = canon (k * U).
Proof.
  intros Hk. destruct (of_Z_canon k Hk) as [Hf _].
  pose proof (canon_spec _ Hf) as (Hm & _ & Hu & _).
  unfold canon in *. set (sh := slack (k * U)) in *.
  set (m := k * U / 2 ^ sh) in *.
  assert (Hsh : 0 <= sh) by (unfold sh, slack; lia).
  unfold floor. destruct (0 <=? emin + sh) eqn:H0; [reflexivity|].
  apply Z.leb_gt in H0. rewrite Z2Pos.id by exact Hm.
  assert (Hmod : m mod 2 ^ (- (emin + sh)) = 0).
  { unfold units, U in Hu.
    replace (emin + sh - emin) with sh in Hu by lia.
    replace 1074 with (- (emin + sh) + sh) in Hu by (unfold emin; lia).
    rewrite Z.pow_add_r, Z.mul_assoc in Hu by lia.
    apply Z.mul_reg_r in Hu; [|pose proof (Z.pow_pos_nonneg 2 sh); lia].
    rewrite Hu. apply Z.mod_mul. pose proof (Z.pow_pos_nonneg 2 (- (emin + sh))). lia. }
  now rewrite Hmod.
Qed.

Lemma half_lt_zero : SFltb half (S754_zero false) = false.
Proof. reflexivity. Qed.

(** The end of [float_div_mod] on a quotient that is a whole number. *)
Lemma fd_snap_whole k : 0 < k < 2 ^ 53 -> fd_snap (canon (k * U)) = canon (k * U).
Proof.
  intros Hk. destruct (of_Z_canon k Hk) as [Hf _].
  unfold fd_snap. rewrite floor_whole by exact Hk.
  rewrite (sub_exact (k * U) (k * U) _ _ eq_refl eq_refl Hf Hf ltac:(lia) ltac:(now left)).
  rewrite Z.eqb_refl, half_lt_zero. reflexivity.
Qed.

(** Floor division of a float below [2^53] that is not negative by a
    whole number [W]: [int(x // W)] is the whole part of [x / W]. *)
Lemma floordiv_whole W x :
  0 < W < 2 ^ 53 ->
  (exists s, x = S754_zero s) \/ (exists R, fits R /\ x = canon R /\ R < 2 ^ 53 * U) ->
  py_int (PyFloat (fst (float_div_mod x (of_Z W)))) = Ok (Zval x / (W * U)).
Proof.
  intros HW Hx. pose proof U_pos as HU.
  destruct (of_Z_canon W HW) as [HfW HcW].
  destruct (nn_canon _ HfW) as [HnnW HvW]. rewrite <- HcW in HnnW, HvW.
  assert (HnzW : nonzero (of_Z W) = true) by (rewrite HcW; reflexivity).
  assert (HfinW : is_finite (of_Z W) = true) by (rewrite HcW; reflexivity).
  assert (Hlt0W : lt0 (of_Z W) = false) by (rewrite HcW; reflexivity).
  destruct Hx as [[s ->]|(R & HfR & -> & Hlt)].
  - rewrite float_div_mod_nonneg; [|exact Hlt0W|rewrite HcW; reflexivity].
    assert (Hsub : sub (S754_zero s) (fmod (S754_zero s) (of_Z W)) = S754_zero false).
    { rewrite HcW. now destruct s. }
    rewrite Hsub, fd_tail_zero by assumption. reflexivity.
  - destruct (nn_canon _ HfR) as [HnnR HvR].
    assert (HR0 : 0 < R) by apply HfR.
    rewrite float_div_mod_nonneg;
      [|exact Hlt0W|eapply fmod_lt0; [exact HnnR|exact HnnW|lia]].
    rewrite HvR.
    set (k := R / (W * U)).
    assert (Hk0 : 0 <= k) by (apply Z.div_pos; nia).
    assert (HRk : R = W * U * k + R mod (W * U)) by (apply Z.div_mod; nia).
    pose proof (Z.mod_pos_bound R (W * U) ltac:(nia)) as HM.
    assert (HWk : 1 <= k -> 0 < W * k < 2 ^ 53) by (intros; nia).
    assert (Hkk : 1 <= k -> 0 < k < 2 ^ 53) by (intros; nia).
    assert (Hd0 : sub (canon R) (fmod (canon R) (of_Z W))
                  = if k =? 0 then sub (canon R) (fmod (canon R) (of_Z W))
                    else canon (W * k * U)).
    { destruct (Z.eqb_spec k 0) as [?|Hk]; [reflexivity|].
      assert (H1 : 1 <= k) by lia.
      destruct (of_Z_canon (W * k) (HWk H1)) as [HfWk _].
      destruct (fmod_spec _ _ _ _ HnnR HnnW ltac:(lia)) as [(Hz & s & Hfm)|(HfM & Hfm)];
        rewrite HvR, HvW in *; rewrite Hfm.
      - replace (W * k * U) with R by lia. reflexivity.
      - rewrite (sub_exact R (R mod (W * U)) _ _ eq_refl eq_refl HfR HfM ltac:(lia)).
        + destruct (Z.eqb_spec R (R mod (W * U))) as [Heq|Hne]; [nia|].
          f_equal. lia.
        + right. replace (R - R mod (W * U)) with (W * k * U) by lia. exact HfWk. }
    destruct (Z.eqb_spec k 0) as [Hk|Hk].
    + (* less than [W]: the remainder is the float itself *)
      assert (Hsmall : R mod (W * U) = R) by (apply Z.mod_small; nia).
      destruct (fmod_spec _ _ _ _ HnnR HnnW ltac:(lia)) as [(Hz & s & Hfm)|(HfM & Hfm)];
        rewrite HvR, HvW in *; [lia|].
      rewrite Hfm, Hsmall.
      rewrite (sub_exact R R _ _ eq_refl eq_refl HfR HfR ltac:(lia) ltac:(now left)).
      rewrite Z.eqb_refl, fd_tail_zero by assumption. now rewrite Hk.
    + assert (H1 : 1 <= k) by lia.
      rewrite Hd0. unfold fd_tail.
      destruct (of_Z_canon (W * k) (HWk H1)) as [HfWk _].
      destruct (of_Z_canon k (Hkk H1)) as [Hfk _].
      assert (Hdiv : div (canon (W * k * U)) (of_Z W) = canon (k * U)).
      { rewrite HcW.
        pose proof (canon_spec _ HfWk) as (Hm1 & Hd1 & Hu1 & He1).
        pose proof (canon_spec _ HfW) as (Hm2 & Hd2 & Hu2 & He2).
        assert (0 <= slack (W * k * U)) by (unfold slack; lia).
        assert (0 <= slack (W * U)) by (unfold slack; lia).
        unfold canon at 1 2. apply div_exact; rewrite ?Z2Pos.id by assumption;
          try assumption; lia. }
      rewrite Hdiv. change (nonzero (canon (k * U))) with true. cbv iota.
      rewrite fd_snap_whole by auto.
      destruct (nn_canon _ Hfk) as [Hnnk Hvk].
      rewrite (py_int_nn _ _ Hnnk), Hvk, Z.div_mul by lia. reflexivity.
Qed.

(** *** Floats below a bound *)

Lemma Zdigits2_mul a b :
  0 < a -> 0 < b -> Zdigits2 (a * b) <= Zdigits2 a + Zdigits2 b.
Proof.
  intros Ha Hb.
  pose proof (Zdigits2_bounds a Ha) as [_ Ha2]. pose proof (Zdigits2_bounds b Hb) as [_ Hb2].
  pose proof (Zdigits2_pos a Ha). pose proof (Zdigits2_pos b Hb).
  apply Zdigits2_le; [lia|]. rewrite Z.pow_add_r by lia. nia.
Qed.

(** The product with 1000 of a float below [2^1013] is finite. *)
Lemma mul_1000_finite B x :
  nn B x -> B <= 1013 -> is_finite (mul x (of_Z 1000)) = true.
Proof.
  intros Hx HB. change (of_Z 1000) with (S754_finite false 8796093022208000 (-43)).
  destruct x as [sx| | |[] mx ex]; simpl in Hx; try contradiction; [reflexivity|].
  destruct Hx as (Hdx & Hex & HEx).
  unfold mul, SFmul. simpl xorb.
  pose proof (binary_round_aux_coarse false (Z.pos (mx * 8796093022208000)) (ex + -43)
                loc_Exact ltac:(lia)) as H.
  destruct (binary_round_aux prec emax false (Z.pos (mx * 8796093022208000)) (ex + -43)
              loc_Exact) as [s0|s0| |s0 m0 e0]; try reflexivity; [|contradiction].
  exfalso. destruct H as [_ [H|H]]; [lia|].
  pose proof (Zdigits2_mul (Z.pos mx) 8796093022208000 ltac:(lia) ltac:(lia)) as Hm.
  rewrite Pos2Z.inj_mul in H.
  change (Zdigits2 8796093022208000) with 53 in Hm.
  change (Zdigits2 (Z.pos mx)) with (Z.pos (digits2_pos mx)) in Hm. lia.
Qed.

(** A float that is not negative and is below [2^53]. *)
Lemma nn_below x :
  nn 1024 x -> Zval x < 2 ^ 53 * U -> nn 53 x.
Proof.
  destruct x as [sx| | |[] mx ex]; simpl; try tauto.
  intros (Hd & He & HE) Hlt. split; [exact Hd|]. split; [exact He|].
  assert (Hdu : Zdigits2 (units (Z.pos mx) ex) <= 53 + 1074).
  { apply Zdigits2_le; [lia|]. split.
    - pose proof (units_pos (Z.pos mx) ex). lia.
    - rewrite Z.pow_add_r by lia. exact Hlt. }
  rewrite units_digits in Hdu by lia. simpl Zdigits2 in Hdu. unfold emin in *. lia.
Qed.

(** A valid float that is not negative is a zero or the canonical float
    of its count of units. *)
Lemma valid_form x :
  valid x = true -> is_finite x = true -> lt0 x = false ->
  (exists s, x = S754_zero s) \/ (fits (Zval x) /\ x = canon (Zval x)).
Proof.
  destruct x as [sx| | |[] mx ex]; simpl; try discriminate; intros Hv _ _.
  - left. eauto.
  - right. now apply valid_canon.
Qed.

(** *** The rounded mantissa *)

(** The round bit after [k] steps is the last bit dropped. *)
Lemma shr_iter_r k m :
  0 <= m ->
  shr_r (Nat.iter (S k) shr_1 (Build_shr_record m false false)) = Z.odd (m / 2 ^ Z.of_nat k).
Proof.
  intros Hm. rewrite Nat.iter_succ.
  pose proof (shr_iter_m k m false false Hm) as H.
  destruct (Nat.iter k shr_1 (Build_shr_record m false false)) as [m' r' s'].
  simpl in H. subst m'.
  apply shr_1_flags. apply Z.div_pos; [lia|]. apply Z.pow_pos_nonneg; lia.
Qed.

(** A mantissa whose dropped bits are below one half is rounded down. *)
Lemma odd_half m k :
  0 <= m -> 0 < k -> m mod 2 ^ k < 2 ^ (k - 1) -> Z.odd (m / 2 ^ (k - 1)) = false.
Proof.
  intros Hm Hk Hlt.
  assert (Hp : 0 < 2 ^ (k - 1)) by (apply Z.pow_pos_nonneg; lia).
  assert (H2 : 2 ^ k = 2 ^ (k - 1) * 2).
  { replace k with ((k - 1) + 1) at 1 by lia. rewrite Z.pow_add_r by lia. reflexivity. }
  rewrite H2 in Hlt. rewrite Z.rem_mul_r in Hlt by lia.
  pose proof (Z.mod_pos_bound m (2 ^ (k - 1)) Hp).
  pose proof (Z.mod_pos_bound (m / 2 ^ (k - 1)) 2 ltac:(lia)).
  assert (Hz : (m / 2 ^ (k - 1)) mod 2 = 0) by nia.
  rewrite Zmod_odd in Hz. now destruct (Z.odd (m / 2 ^ (k - 1))).
Qed.

(** The first step of [binary_round_aux]: the mantissa is cut to the
    exponent of the format and rounded to nearest. *)
Lemma shr_fexp_round m e :
  0 <= m ->
  let e1 := Z.max e (fexp (Zdigits2 m + e)) in
  let k := e1 - e in
  let rec := fst (shr_fexp prec emax m e loc_Exact) in
  let m2 := round_nearest_even (shr_m rec) (loc_of_shr_record rec) in
  snd (shr_fexp prec emax m e loc_Exact) = e1 /\
  m / 2 ^ k <= m2 <= m / 2 ^ k + 1 /\
  (k = 0 \/ m mod 2 ^ k < 2 ^ (k - 1) -> m2 = m / 2 ^ k).
Proof.
  intros Hm e1 k rec m2.
  pose proof (shr_fexp_spec m e loc_Exact Hm) as (He & Hm1 & Hex).
  fold e1 in He, Hm1, Hex. fold k in Hm1, Hex. fold rec in Hm1, Hex.
  split; [exact He|].
  pose proof (round_nearest_even_bounds (shr_m rec) (loc_of_shr_record rec)) as Hb.
  fold m2 in Hb. rewrite Hm1 in Hb. split; [exact Hb|].
  intros [Hk|Hlt].
  - unfold m2. rewrite Hex; [exact Hm1|reflexivity|]. rewrite Hk. apply Z.mod_1_r.
  - assert (Hk : 0 < k).
    { destruct (Z_lt_le_dec 0 k) as [?|Hle]; [assumption|exfalso].
      assert (k = 0) by (unfold k, e1; lia).
      replace k with 0 in Hlt by lia. simpl in Hlt. rewrite Z.mod_1_r in Hlt. lia. }
    assert (Hr : shr_r rec = false).
    { unfold rec, shr_fexp. rewrite fexp_eq. unfold shr.
      destruct (fexp (Zdigits2 m + e) - e) as [|p|p] eqn:Hd;
        try (exfalso; unfold k, e1 in Hk; lia).
      simpl fst. rewrite iter_pos_nat. simpl shr_record_of_loc.
      destruct (Pos.to_nat p) as [|n] eqn:Hn; [lia|].
      rewrite shr_iter_r by exact Hm.
      replace (Z.of_nat n) with (k - 1) by (unfold k, e1; lia).
      apply odd_half; assumption. }
    unfold m2. rewrite <- Hm1.
    destruct rec as [m' r' s']. simpl in Hr. subst r'. now destruct s'.
Qed.

(** The last bit dropped and the bits below it. *)
Lemma mod_pow2_succ m k :
  0 <= k ->
  m mod 2 ^ (k + 1) = m mod 2 ^ k + (if Z.odd (m / 2 ^ k) then 2 ^ k else 0).
Proof.
  intros Hk. assert (Hp : 0 < 2 ^ k) by (apply Z.pow_pos_nonneg; lia).
  rewrite Z.pow_add_r by lia. change (2 ^ 1) with 2.
  rewrite Z.rem_mul_r, Zmod_odd by lia.
  destruct (Z.odd (m / 2 ^ k)); lia.
Qed.

(** The sticky bit after [k] steps tells whether a bit below the last
    one dropped is set. *)
Lemma shr_iter_s k : forall m,
  0 <= m ->
  shr_s (Nat.iter (S k) shr_1 (Build_shr_record m false false))
  = negb (m mod 2 ^ Z.of_nat k =? 0).
Proof.
  induction k as [|k IH]; intros m Hm.
  - unfold Nat.iter. cbn [nat_rect]. destruct (shr_1_flags m false false Hm) as [_ ->].
    simpl. now rewrite Z.mod_1_r.
  - rewrite Nat.iter_succ.
    pose proof (shr_iter_m (S k) m false false Hm) as Hm'.
    pose proof (shr_iter_r k m Hm) as Hr. specialize (IH m Hm).
    destruct (Nat.iter (S k) shr_1 (Build_shr_record m false false)) as [m' r' s'].
    simpl in Hm', Hr, IH. subst.
    assert (Hp : 0 < 2 ^ Z.of_nat (S k)) by (apply Z.pow_pos_nonneg; lia).
    destruct (shr_1_flags (m / 2 ^ Z.of_nat (S k)) (Z.odd (m / 2 ^ Z.of_nat k))
                (negb (m mod 2 ^ Z.of_nat k =? 0)) ltac:(apply Z.div_pos; lia)) as [_ ->].
    rewrite (Nat2Z.inj_succ k), <- Z.add_1_r, mod_pow2_succ by lia.
    assert (Hpk : 0 < 2 ^ Z.of_nat k) by (apply Z.pow_pos_nonneg; lia).
    pose proof (Z.mod_pos_bound m (2 ^ Z.of_nat k) Hpk).
    destruct (Z.odd (m / 2 ^ Z.of_nat k));
      destruct (Z.eqb_spec (m mod 2 ^ Z.of_nat k) 0) as [H0|H0]; simpl;
      symmetry; try (apply Bool.negb_true_iff, Z.eqb_neq; lia).
    apply Bool.negb_false_iff, Z.eqb_eq. lia.
Qed.

(** The rounding of the first step is to the nearest multiple, half-way
    to the even one. *)
Lemma shr_fexp_rule m e :
  0 <= m ->
  let e1 := Z.max e (fexp (Zdigits2 m + e)) in
  let k := e1 - e in
  let rec := fst (shr_fexp prec emax m e loc_Exact) in
  round_nearest_even (shr_m rec) (loc_of_shr_record rec) = round_to_grid m (2 ^ k).
Proof.
  intros Hm e1 k rec. unfold round_to_grid.
  unfold rec, shr_fexp. rewrite fexp_eq. unfold shr.
  destruct (fexp (Zdigits2 m + e) - e) as [|p|p] eqn:Hd.
  - replace k with 0 by (unfold k, e1; lia). simpl fst. simpl.
    rewrite Z.mod_1_r, Z.div_1_r. simpl. lia.
  - simpl fst. rewrite iter_pos_nat. simpl shr_record_of_loc.
    destruct (Pos.to_nat p) as [|n] eqn:Hn; [lia|].
    assert (Hk : k = Z.of_nat n + 1) by (unfold k, e1; lia).
    pose proof (shr_iter_m (S n) m false false Hm) as Hm1.
    pose proof (shr_iter_r n m Hm) as Hr.
    pose proof (shr_iter_s n m Hm) as Hs.
    destruct (Nat.iter (S n) shr_1 (Build_shr_record m false false)) as [m' r' s'].
    simpl in Hm1, Hr, Hs. subst m' r' s'.
    rewrite Nat2Z.inj_succ, <- Z.add_1_r, <- Hk.
    assert (Hpn : 0 < 2 ^ Z.of_nat n) by (apply Z.pow_pos_nonneg; lia).
    assert (H2 : 2 ^ k = 2 * 2 ^ Z.of_nat n).
    { rewrite Hk, Z.pow_add_r by lia. change (2 ^ 1) with 2. lia. }
    pose proof (Z.mod_pos_bound m (2 ^ Z.of_nat n) Hpn) as Hb.
    pose proof (mod_pow2_succ m (Z.of_nat n) ltac:(lia)) as Hmod. rewrite <- Hk in Hmod.
    set (Q := m / 2 ^ k) in *. set (R := m mod 2 ^ k) in *. set (G := 2 ^ k) in *.
    destruct (Z.odd (m / 2 ^ Z.of_nat n));
      destruct (Z.eqb_spec (m mod 2 ^ Z.of_nat n) 0) as [H0|H0];
      destruct (Z.ltb_spec G (2 * R)); destruct (Z.eqb_spec (2 * R) G);
      simpl; try lia;
      rewrite <- Z.negb_odd; destruct (Z.odd Q); simpl; lia.
  - replace k with 0 by (unfold k, e1; lia). simpl fst. simpl.
    rewrite Z.mod_1_r, Z.div_1_r. simpl. lia.
Qed.

(** [binary_round_aux] on an exact positive mantissa: the value of the
    result is the rounded mantissa at the exponent of the format. *)
Lemma binary_round_aux_value mx ex :
  0 < mx -> ex <= 971 ->
  let e1 := Z.max ex (fexp (Zdigits2 mx + ex)) in
  let k := e1 - ex in
  exists m2,
    mx / 2 ^ k <= m2 <= mx / 2 ^ k + 1 /\
    (k = 0 \/ mx mod 2 ^ k < 2 ^ (k - 1) -> m2 = mx / 2 ^ k) /\
    m2 = round_to_grid mx (2 ^ k) /\
    (Zdigits2 m2 + e1 <= 1024 ->
     nn 1024 (binary_round_aux prec emax false mx ex loc_Exact) /\
     Zval (binary_round_aux prec emax false mx ex loc_Exact) = m2 * 2 ^ (e1 - emin)).
Proof.
  intros Hm Hex e1 k.
  pose proof (shr_fexp_round mx ex ltac:(lia)) as (He1 & Hb & Hdown).
  pose proof (shr_fexp_rule mx ex ltac:(lia)) as Hrule.
  fold e1 in He1, Hb, Hdown, Hrule. fold k in Hb, Hdown, Hrule.
  unfold binary_round_aux.
  destruct (shr_fexp prec emax mx ex loc_Exact) as [rec1 e1'] eqn:E1.
  simpl in He1, Hb, Hdown, Hrule. subst e1'.
  set (m2 := round_nearest_even (shr_m rec1) (loc_of_shr_record rec1)) in *.
  exists m2. split; [exact Hb|]. split; [exact Hdown|]. split; [exact Hrule|]. intros Hd.
  assert (Hk : 0 <= k) by (unfold k, e1; lia).
  assert (Hpk : 0 < 2 ^ k) by (apply Z.pow_pos_nonneg; lia).
  assert (Hm1 : 0 <= mx / 2 ^ k) by (apply Z.div_pos; lia).
  assert (Hm2 : 0 <= m2) by lia.
  assert (Hemin : emin <= e1) by (unfold e1, fexp; lia).
  (* the mantissa before rounding has at most 53 digits *)
  assert (Hd1 : Zdigits2 (mx / 2 ^ k) <= 53).
  { destruct (Z.eq_dec (mx / 2 ^ k) 0) as [->|Hnz]; [simpl; lia|].
    assert (k < Zdigits2 mx).
    { destruct (Z_lt_le_dec k (Zdigits2 mx)) as [?|Hge]; [assumption|].
      rewrite Zdigits2_div_small in Hnz; lia. }
    rewrite Zdigits2_div by lia. unfold k, e1, fexp. lia. }
  assert (Hlt1 : mx / 2 ^ k < 2 ^ 53).
  { destruct (Z.eq_dec (mx / 2 ^ k) 0) as [->|Hnz]; [reflexivity|].
    pose proof (Zdigits2_bounds (mx / 2 ^ k) ltac:(lia)) as [_ Hh].
    eapply Z.lt_le_trans; [exact Hh|]. apply Z.pow_le_mono_r; lia. }
  pose proof (shr_fexp_spec m2 e1 loc_Exact Hm2) as (He2 & Hm3 & _).
  destruct (shr_fexp prec emax m2 e1 loc_Exact) as [rec2 e2]. simpl in He2, Hm3.
  rewrite <- He2 in Hm3.
  destruct (Z.eq_dec m2 (2 ^ 53)) as [Htop|Hntop].
  - (* rounded up to the next power of two *)
    rewrite Htop in *. change (Zdigits2 (2 ^ 53)) with 54 in *.
    assert (He2' : e2 = e1 + 1) by (unfold fexp, emin in *; lia).
    rewrite He2' in *. replace (e1 + 1 - e1) with 1 in Hm3 by lia.
    rewrite Hm3. change (2 ^ 53 / 2 ^ 1) with (Z.pos 4503599627370496).
    replace (e1 + 1 <=? emax - prec) with true
      by (symmetry; apply Z.leb_le; unfold emax, prec; lia).
    split.
    + unfold nn. change (Zdigits2 (Z.pos 4503599627370496)) with 53.
      unfold emin in *. lia.
    + simpl Zval. unfold units.
      replace (e1 + 1 - emin) with (1 + (e1 - emin)) by lia.
      rewrite Z.pow_add_r by lia. lia.
  - assert (Hd2 : Zdigits2 m2 <= 53) by (apply Zdigits2_le; lia).
    assert (He2' : e2 = e1).
    { destruct (Z.eq_dec m2 0) as [Hz|Hz].
      - rewrite Hz in He2. simpl Zdigits2 in He2. unfold fexp, emin in *. lia.
      - unfold fexp, emin in *. lia. }
    rewrite He2' in *. rewrite Z.sub_diag, Z.div_1_r in Hm3. rewrite Hm3.
    destruct m2 as [|p|p]; [split; [exact I|reflexivity]| |lia].
    assert (Hle : e1 <= 971).
    { destruct (Z_le_gt_dec e1 971) as [?|Hgt]; [assumption|exfalso].
      pose proof (Zdigits2_pos (Z.pos p) ltac:(lia)).
      assert (fexp (Zdigits2 mx + ex) = e1) by (unfold e1 in *; lia).
      (* the digits of the rounded mantissa would exceed the format *)
      assert (Zdigits2 (mx / 2 ^ k) + e1 = Zdigits2 mx + ex).
      { destruct (Z.eq_dec (mx / 2 ^ k) 0) as [Hz|Hnz].
        - exfalso. assert (Z.pos p = 1) by lia.
          assert (Zdigits2 mx <= k).
          { apply Zdigits2_le; [lia|]. split; [lia|].
            destruct (Z_lt_le_dec mx (2 ^ k)) as [?|Hge]; [assumption|].
            assert (1 <= mx / 2 ^ k) by (apply Z.div_le_lower_bound; lia). lia. }
          unfold k, fexp, emin in *. lia.
        - assert (k < Zdigits2 mx).
          { destruct (Z_lt_le_dec k (Zdigits2 mx)) as [?|Hge]; [assumption|].
            rewrite Zdigits2_div_small in Hnz; lia. }
          rewrite Zdigits2_div by lia. unfold k. lia. }
      assert (Zdigits2 (mx / 2 ^ k) <= Zdigits2 (Z.pos p)) by (apply Zdigits2_mono; lia).
      unfold fexp, emin in *. lia. }
    replace (e1 <=? emax - prec) with true
      by (symmetry; apply Z.leb_le; unfold emax, prec; lia).
    split; [|reflexivity].
    simpl. simpl Zdigits2 in Hd2, Hd. unfold emin in *. lia.
Qed.

(** *** Up to the largest float *)

(** Normalizing a value that is not above the largest float gives a
    finite float. *)
Lemma binary_normalize_top m e :
  0 < m -> emin <= e <= 971 -> units m e <= units (2 ^ 53 - 1) 971 ->
  nn 1024 (binary_normalize prec emax m e false).
Proof.
  intros Hm He Hle.
  destruct (Z_le_gt_dec (Zdigits2 m + e) 1023) as [Hsmall|Hbig].
  { eapply nn_weaken; [|apply binary_normalize_coarse]; unfold emin in *; lia. }
  assert (Hd : Zdigits2 m + e = 1024).
  { assert (Zdigits2 (units m e) <= 53 + 971 - emin).
    { apply Zdigits2_le; [unfold emin; lia|]. split.
      - pose proof (units_pos m e Hm ltac:(lia)). lia.
      - eapply Z.le_lt_trans; [exact Hle|]. unfold units.
        assert (0 < 2 ^ (971 - emin)) by (apply Z.pow_pos_nonneg; unfold emin; lia).
        replace (53 + 971 - emin) with (53 + (971 - emin)) by lia.
        rewrite Z.pow_add_r by (unfold emin; lia). lia. }
    rewrite units_digits in * by lia. lia. }
  destruct m as [|p|p]; try lia.
  unfold binary_normalize, binary_round.
  change (Z.pos (digits2_pos p)) with (Zdigits2 (Z.pos p)).
  rewrite fexp_eq, Hd. change (fexp 1024) with 971.
  assert (Hsh : shl_align p e 971 = (p, e)).
  { unfold shl_align. destruct (971 - e) eqn:E; try reflexivity. lia. }
  rewrite Hsh.
  destruct (binary_round_aux_value (Z.pos p) e ltac:(lia) ltac:(lia))
    as (m2 & Hb & Hdown & _ & Hres).
  rewrite Hd in *. change (fexp 1024) with 971 in *.
  replace (Z.max e 971) with 971 in * by lia.
  set (k := 971 - e) in *.
  assert (Hk : 0 <= k) by (unfold k; lia).
  assert (Hpk : 0 < 2 ^ k) by (apply Z.pow_pos_nonneg; lia).
  assert (Hmax : Z.pos p <= (2 ^ 53 - 1) * 2 ^ k).
  { unfold units in Hle.
    replace (971 - emin) with (k + (e - emin)) in Hle by (unfold k; lia).
    rewrite Z.pow_add_r, Z.mul_assoc in Hle by (unfold emin in *; lia).
    apply Z.mul_le_mono_pos_r in Hle; [exact Hle|].
    apply Z.pow_pos_nonneg; unfold emin in *; lia. }
  assert (Hm1 : Z.pos p / 2 ^ k <= 2 ^ 53 - 1).
  { apply Z.div_le_upper_bound; lia. }
  assert (Hm2 : m2 <= 2 ^ 53 - 1).
  { destruct (Z.eq_dec (Z.pos p / 2 ^ k) (2 ^ 53 - 1)) as [Heq|Hne]; [|lia].
    rewrite Hdown; [lia|].
    assert (Hmod : Z.pos p mod 2 ^ k = 0).
    { pose proof (Z.div_mod (Z.pos p) (2 ^ k) ltac:(lia)) as Hdm.
      pose proof (Z.mod_pos_bound (Z.pos p) (2 ^ k) Hpk). rewrite Heq in Hdm. lia. }
    destruct (Z.eq_dec k 0) as [?|Hk0]; [now left|right].
    rewrite Hmod. apply Z.pow_pos_nonneg; lia. }
  apply Hres.
  assert (Zdigits2 m2 <= 53); [|lia].
  apply Zdigits2_le; [lia|]. split; [|lia].
  pose proof (Z.div_pos (Z.pos p) (2 ^ k) ltac:(lia) Hpk). lia.
Qed.

(** The difference of a float and a smaller one is finite, whatever the
    size of the float. *)
Lemma sub_nn_top x B' y :
  nn 1024 x -> nn B' y -> Zval y <= Zval x -> nn 1024 (sub x y).
Proof.
  intros Hx Hy Hle.
  destruct x as [sx| | |[] mx ex]; simpl in Hx; try contradiction;
    destruct y as [sy| | |[] my ey]; simpl in Hy; try contradiction.
  - destruct sx, sy; exact I.
  - exfalso. simpl in Hle. pose proof (units_pos (Z.pos my) ey). lia.
  - simpl. lia.
  - destruct Hx as (Hdx & Hex & HEx). destruct Hy as (Hdy & Hey & HEy).
    simpl in Hle. rewrite sub_finite_exact by lia.
    destruct (units (Z.pos mx) ex =? units (Z.pos my) ey) eqn:Heq; [exact I|].
    apply Z.eqb_neq in Heq.
    set (ez := Z.min ex ey).
    assert (Hpz : 0 < 2 ^ (ez - emin)) by (apply Z.pow_pos_nonneg; unfold ez; lia).
    assert (Hu : forall m e, ez <= e -> units m e = m * 2 ^ (e - ez) * 2 ^ (ez - emin)).
    { intros m e He. unfold units.
      rewrite <- Z.mul_assoc, <- Z.pow_add_r by (unfold ez in *; lia). do 2 f_equal. lia. }
    pose proof (Hu (Z.pos mx) ex ltac:(unfold ez; lia)) as HX.
    pose proof (Hu (Z.pos my) ey ltac:(unfold ez; lia)) as HY.
    set (X := Z.pos mx * 2 ^ (ex - ez)) in *. set (Y := Z.pos my * 2 ^ (ey - ez)) in *.
    assert (Hd : units (X - Y) ez = units (Z.pos mx) ex - units (Z.pos my) ey).
    { rewrite HX, HY. unfold units. ring. }
    assert (HXY : 0 < X - Y) by (rewrite HX, HY in *; nia).
    apply binary_normalize_top; [exact HXY|unfold ez; lia|].
    rewrite Hd.
    assert (Hmx : Z.pos mx <= 2 ^ 53 - 1).
    { pose proof (Zdigits2_bounds (Z.pos mx) ltac:(lia)) as [_ Hh].
      assert (2 ^ Zdigits2 (Z.pos mx) <= 2 ^ 53) by (apply Z.pow_le_mono_r; simpl; lia).
      lia. }
    pose proof (units_pos (Z.pos my) ey ltac:(lia) ltac:(lia)).
    assert (units (Z.pos mx) ex <= units (2 ^ 53 - 1) 971); [|lia].
    unfold units.
    assert (2 ^ (ex - emin) <= 2 ^ (971 - emin)) by (apply Z.pow_le_mono_r; lia).
    assert (0 < 2 ^ (ex - emin)) by (apply Z.pow_pos_nonneg; lia).
    nia.
Qed.

(** Whole hours of any float that is not negative: the quotient by 3600
    is a float [int()] accepts. *)
Lemma floordiv_3600_top x :
  nn 1024 x ->
  exists n, py_int (PyFloat (fst (float_div_mod x (of_Z 3600)))) = Ok n /\ 0 <= n.
Proof.
  intros Hx. pose proof U_pos as HU.
  destruct (of_Z_canon 3600 ltac:(lia)) as [Hfw Hw].
  destruct (nn_canon _ Hfw) as [Hnnw Hvw]. rewrite <- Hw in Hnnw, Hvw.
  assert (Hpos : 0 < Zval (of_Z 3600)) by lia.
  rewrite float_div_mod_nonneg; [|reflexivity|eapply fmod_lt0; eassumption].
  assert (Hm : nn 1024 (fmod x (of_Z 3600)) /\ Zval (fmod x (of_Z 3600)) <= Zval x).
  { pose proof (nn_Zval_nonneg _ _ Hx) as Hx0.
    destruct (fmod_spec _ _ _ _ Hx Hnnw Hpos) as [(_ & s & ->)|(Hf & ->)].
    - split; [exact I|exact Hx0].
    - destruct (nn_canon _ Hf) as [Hc ->]. split; [exact Hc|]. apply Z.mod_le; lia. }
  pose proof (sub_nn_top x 1024 _ Hx (proj1 Hm) (proj2 Hm)) as Hd0.
  unfold fd_tail.
  set (d0 := sub x (fmod x (of_Z 3600))) in *.
  assert (Hdiv : nn 1014 (div d0 (of_Z 3600))).
  { change (of_Z 3600) with (S754_finite false 7916483719987200 (-41)).
    eapply nn_weaken; [|eapply div_nn; [exact Hd0|reflexivity|lia]]. lia. }
  assert (Hres : forall r, nn 1021 r -> exists n, py_int (PyFloat r) = Ok n /\ 0 <= n).
  { intros r Hr. rewrite (py_int_nn _ _ Hr). eexists. split; [reflexivity|].
    apply Z.div_pos; [eapply nn_Zval_nonneg, Hr | lia]. }
  destruct (nonzero (div d0 (of_Z 3600))).
  - unfold fd_snap. pose proof (floor_nn _ _ Hdiv) as Hfl.
    destruct (SFltb half _).
    + apply Hres. eapply nn_weaken; [|eapply add_one_nn; [exact Hfl|lia]]. lia.
    + apply Hres. eapply nn_weaken; [|exact Hfl]. lia.
  - apply Hres. exact I.
Qed.

(** A product with 1000 that is not finite is the positive infinity. *)
Lemma mul_1000_overflow x :
  nn 1024 x -> is_finite (mul x (of_Z 1000)) = false ->
  mul x (of_Z 1000) = S754_infinity false.
Proof.
  intros Hx. change (of_Z 1000) with (S754_finite false 8796093022208000 (-43)).
  destruct x as [sx| | |[] mx ex]; simpl in Hx; try contradiction; [discriminate|].
  unfold mul, SFmul. simpl xorb.
  pose proof (binary_round_aux_coarse false (Z.pos (mx * 8796093022208000)) (ex + -43)
                loc_Exact ltac:(lia)) as H.
  destruct (binary_round_aux prec emax false (Z.pos (mx * 8796093022208000)) (ex + -43)
              loc_Exact) as [s0|s0| |s0 m0 e0]; try discriminate; [|contradiction].
  destruct H as [-> _]. reflexivity.
Qed.

(** *** The product with 1000 *)

(** The rounded product with 1000 of a float below [2^43] lies in the
    same second as the float: its whole part, divided by 1000, is the
    whole part of the float.  And its whole part is the whole part of
    the exact product, or one more. *)
Lemma mul_1000_whole x :
  valid x = true -> is_finite x = true -> lt0 x = false ->
  Zval x < 2 ^ 43 * U ->
  Zval (mul x (of_Z 1000)) / U / 1000 = Zval x / U /\
  1000 * Zval x / U <= Zval (mul x (of_Z 1000)) / U <= 1000 * Zval x / U + 1.
Proof.
  intros Hv Hfin Hneg Hlt. pose proof U_pos as HU.
  change (of_Z 1000) with (S754_finite false 8796093022208000 (-43)).
  destruct x as [sx| | |[] mx ex]; try discriminate;
    [split; [reflexivity|split; discriminate]|].
  (* the float is canonical and small *)
  assert (Hcan : fexp (Zdigits2 (Z.pos mx) + ex) = ex /\ Zdigits2 (Z.pos mx) + ex <= 43).
  { unfold valid, valid_binary, bounded, canonical_mantissa in Hv. rewrite fexp_eq in Hv.
    apply andb_true_iff in Hv. destruct Hv as [H1 _]. apply Z.eqb_eq in H1.
    split; [exact H1|].
    assert (He : emin <= ex) by (unfold fexp in H1; lia).
    assert (Hdu : Zdigits2 (units (Z.pos mx) ex) <= 43 + 1074).
    { apply Zdigits2_le; [lia|]. split.
      - pose proof (units_pos (Z.pos mx) ex). lia.
      - rewrite Z.pow_add_r by lia. exact Hlt. }
    rewrite units_digits in Hdu by lia. unfold emin in *. lia. }
  destruct Hcan as [Hc Hd43].
  pose proof (Zdigits2_pos (Z.pos mx) ltac:(lia)) as Hdpos.
  assert (Hex : emin <= ex <= -10) by (unfold fexp, emin in *; lia).
  unfold mul, SFmul. simpl xorb. rewrite Pos2Z.inj_mul.
  set (c := 8796093022208000).
  set (M := Z.pos mx * c). set (E := ex + -43).
  assert (HM : 0 < M) by (unfold M, c; lia).
  destruct (binary_round_aux_value M E HM ltac:(unfold E; lia))
    as (m2 & Hb & Hdown & _ & Hres).
  set (e1 := Z.max E (fexp (Zdigits2 M + E))) in *.
  set (k := e1 - E) in *.
  assert (HdM : Zdigits2 M <= Zdigits2 (Z.pos mx) + 53).
  { unfold M. apply (Zdigits2_mul (Z.pos mx) c); unfold c; lia. }
  assert (HdM0 : 0 < Zdigits2 M) by (apply Zdigits2_pos; lia).
  assert (He1 : emin <= e1 <= 0) by (unfold e1, E, fexp, emin in *; lia).
  assert (Hk : 0 <= k <= 53) by (unfold k, e1, E, fexp, emin in *; lia).
  assert (Hkd : Zdigits2 M - 53 <= k) by (unfold k, e1, fexp; lia).
  assert (Hpk : 0 < 2 ^ k) by (apply Z.pow_pos_nonneg; lia).
  assert (Hm1 : 0 <= M / 2 ^ k < 2 ^ 53).
  { split; [apply Z.div_pos; lia|]. apply Z.div_lt_upper_bound; [lia|].
    pose proof (Zdigits2_bounds M HM) as [_ Hh].
    eapply Z.lt_le_trans; [exact Hh|]. rewrite <- Z.pow_add_r by lia.
    apply Z.pow_le_mono_r; lia. }
  assert (Hd2 : Zdigits2 m2 + e1 <= 1024).
  { assert (Zdigits2 m2 <= 54); [|lia].
    apply Zdigits2_le; [lia|]. change (2 ^ 54) with (2 * 2 ^ 53). lia. }
  destruct (Hres Hd2) as [_ Hval]. rewrite Hval. clear Hres Hval.
  (* everything in whole numbers: [a] and [b] are the bits after the point *)
  set (a := - ex). set (b := - e1).
  assert (Ha : 0 <= a) by (unfold a; lia). assert (Hb0 : 0 <= b) by (unfold b; lia).
  assert (Hpa : 0 < 2 ^ a) by (apply Z.pow_pos_nonneg; lia).
  assert (Hpb : 0 < 2 ^ b) by (apply Z.pow_pos_nonneg; lia).
  assert (HS : Zval (S754_finite false mx ex) / U = Z.pos mx / 2 ^ a).
  { simpl Zval. unfold units, U.
    replace 1074 with (a + (ex - emin)) by (unfold a, emin; lia).
    rewrite (Z.pow_add_r 2 a) by (unfold emin in *; lia).
    rewrite Z.div_mul_cancel_r; [reflexivity|lia|].
    pose proof (Z.pow_pos_nonneg 2 (ex - emin)). unfold emin in *. lia. }
  assert (HP : m2 * 2 ^ (e1 - emin) / U = m2 / 2 ^ b).
  { unfold U. replace 1074 with (b + (e1 - emin)) by (unfold b, emin; lia).
    rewrite (Z.pow_add_r 2 b) by (unfold emin in *; lia).
    rewrite Z.div_mul_cancel_r; [reflexivity|lia|].
    pose proof (Z.pow_pos_nonneg 2 (e1 - emin)). unfold emin in *. lia. }
  assert (HT : 1000 * Zval (S754_finite false mx ex) / U = M / 2 ^ k / 2 ^ b).
  { simpl Zval. unfold units, U.
    replace 1074 with (a + (ex - emin)) by (unfold a, emin; lia).
    rewrite (Z.pow_add_r 2 a) by (unfold emin in *; lia).
    rewrite Z.mul_assoc, Z.div_mul_cancel_r;
      [|lia|pose proof (Z.pow_pos_nonneg 2 (ex - emin)); unfold emin in *; lia].
    rewrite Z.div_div by lia.
    assert (Hs : 2 ^ k * 2 ^ b = 2 ^ a * 2 ^ 43).
    { rewrite <- !Z.pow_add_r by lia. f_equal. unfold k, b, a, E. lia. }
    rewrite Hs. unfold M, c. change 8796093022208000 with (1000 * 2 ^ 43).
    replace (Z.pos mx * (1000 * 2 ^ 43)) with (1000 * Z.pos mx * 2 ^ 43) by ring.
    rewrite Z.div_mul_cancel_r by lia. reflexivity. }
  rewrite HT, HS, HP. split; cycle 1.
  { pose proof (Z.div_mod (M / 2 ^ k) (2 ^ b) ltac:(lia)) as Hq.
    pose proof (Z.mod_pos_bound (M / 2 ^ k) (2 ^ b) Hpb) as Hr.
    split.
    - apply Z.div_le_mono; lia.
    - assert (m2 / 2 ^ b < M / 2 ^ k / 2 ^ b + 2); [|lia].
      apply Z.div_lt_upper_bound; [lia|]. nia. }
  set (S := Z.pos mx / 2 ^ a).
  pose proof (Z.div_mod (Z.pos mx) (2 ^ a) ltac:(lia)) as Hdm. fold S in Hdm.
  pose proof (Z.mod_pos_bound (Z.pos mx) (2 ^ a) Hpa) as Hmb.
  assert (HS0 : 0 <= S) by (apply Z.div_pos; lia).
  (* [2^(a+43) = 2^k * 2^b] *)
  assert (Hsplit : 2 ^ a * 2 ^ 43 = 2 ^ k * 2 ^ b).
  { rewrite <- !Z.pow_add_r by lia. f_equal. unfold k, b, a, E. lia. }
  assert (Hc1000 : c = 1000 * 2 ^ 43) by reflexivity.
  assert (Hlo : 1000 * S * 2 ^ b * 2 ^ k <= M).
  { unfold M. rewrite Hc1000.
    replace (1000 * S * 2 ^ b * 2 ^ k) with (1000 * S * (2 ^ k * 2 ^ b)) by ring.
    rewrite <- Hsplit. nia. }
  assert (Hhi : M + c <= 1000 * (S + 1) * 2 ^ b * 2 ^ k).
  { unfold M. rewrite Hc1000.
    replace (1000 * (S + 1) * 2 ^ b * 2 ^ k) with (1000 * (S + 1) * (2 ^ k * 2 ^ b)) by ring.
    rewrite <- Hsplit. nia. }
  set (N := 1000 * (S + 1) * 2 ^ b) in *. set (N' := 1000 * S * 2 ^ b) in *.
  assert (Hm1lo : N' <= M / 2 ^ k) by (apply Z.div_le_lower_bound; lia).
  assert (Hm1hi : M / 2 ^ k < N).
  { apply Z.div_lt_upper_bound; [lia|]. unfold c in Hhi. lia. }
  assert (Hm2hi : m2 <= N - 1).
  { destruct (Z.eq_dec (M / 2 ^ k) (N - 1)) as [Heq|Hne]; [|lia].
    rewrite Hdown; [lia|].
    destruct (Z.eq_dec k 0) as [?|Hk0]; [now left|right].
    pose proof (Z.div_mod M (2 ^ k) ltac:(lia)) as HdM'. rewrite Heq in HdM'.
    assert (Hmod : M mod 2 ^ k <= 2 ^ k - c) by lia.
    assert (H2 : 2 ^ k = 2 * 2 ^ (k - 1)).
    { replace k with (1 + (k - 1)) at 1 by lia. rewrite Z.pow_add_r by lia. reflexivity. }
    assert (2 ^ (k - 1) <= 2 ^ 52) by (apply Z.pow_le_mono_r; lia).
    change (2 ^ 52) with 4503599627370496 in *. unfold c in *. lia. }
  (* the whole part is between the two multiples of 1000 *)
  assert (HPlo : 1000 * S <= m2 / 2 ^ b).
  { apply Z.div_le_lower_bound; [lia|]. unfold N' in *. lia. }
  assert (HPhi : m2 / 2 ^ b < 1000 * (S + 1)).
  { apply Z.div_lt_upper_bound; [lia|]. unfold N in *. lia. }
  symmetry. apply Z.div_unique with (m2 / 2 ^ b - 1000 * S); lia.
Qed.

(** *** Rounding keeps the order *)

Lemma round_to_grid_bounds A G : A / G <= round_to_grid A G <= A / G + 1.
Proof. unfold round_to_grid. destruct (_ || _); lia. Qed.

Lemma round_to_grid_mono A B G :
  0 < G -> A <= B -> round_to_grid A G <= round_to_grid B G.
Proof.
  intros HG Hle.
  pose proof (Z.div_le_mono A B G HG Hle) as Hq.
  destruct (Z.eq_dec (A / G) (B / G)) as [Heq|Hne].
  - pose proof (Z.div_mod A G ltac:(lia)) as HA.
    pose proof (Z.div_mod B G ltac:(lia)) as HB.
    assert (Hr : A mod G <= B mod G) by nia.
    unfold round_to_grid. rewrite Heq.
    destruct (Z.ltb_spec G (2 * (A mod G))); destruct (Z.eqb_spec (2 * (A mod G)) G);
      destruct (Z.ltb_spec G (2 * (B mod G))); destruct (Z.eqb_spec (2 * (B mod G)) G);
      destruct (Z.odd (B / G)); simpl; lia.
  - pose proof (round_to_grid_bounds A G). pose proof (round_to_grid_bounds B G). lia.
Qed.

(** The grid may be counted in any unit. *)
Lemma round_to_grid_scale A G s :
  0 < G -> 0 < s -> round_to_grid (A * s) (G * s) = round_to_grid A G.
Proof.
  intros HG Hs. unfold round_to_grid.
  rewrite Z.div_mul_cancel_r, Z.mul_mod_distr_r by lia.
  destruct (Z.ltb_spec (G * s) (2 * (A mod G * s)));
    destruct (Z.ltb_spec G (2 * (A mod G)));
    destruct (Z.eqb_spec (2 * (A mod G * s)) (G * s));
    destruct (Z.eqb_spec (2 * (A mod G)) G); simpl; try reflexivity; nia.
Qed.

(** The product with 1000 of a positive float below [2^43], on its
    grid: with [A] the exact product in units of [2^(emin-43)] and [G]
    the step of the grid in the same units, the rounded product is the
    nearest multiple of [G]; a grid above the lowest one is used from
    [2^52] steps on. *)
Lemma mul_1000_grid mz ez :
  valid (S754_finite false mz ez) = true ->
  units (Z.pos mz) ez < 2 ^ 43 * U ->
  exists g, 0 <= g /\
    let A := 8796093022208000 * units (Z.pos mz) ez in
    let G := 2 ^ (g + 43) in
    Zval (mul (S754_finite false mz ez) (of_Z 1000)) * 2 ^ 43 = round_to_grid A G * G /\
    0 <= A / G < 2 ^ 53 /\ (0 < g -> 2 ^ 52 <= A / G).
Proof.
  intros Hv Hlt. pose proof U_pos as HU.
  change (of_Z 1000) with (S754_finite false 8796093022208000 (-43)).
  assert (Hcan : fexp (Zdigits2 (Z.pos mz) + ez) = ez /\ Zdigits2 (Z.pos mz) + ez <= 43).
  { unfold valid, valid_binary, bounded, canonical_mantissa in Hv. rewrite fexp_eq in Hv.
    apply andb_true_iff in Hv. destruct Hv as [H1 _]. apply Z.eqb_eq in H1.
    split; [exact H1|].
    assert (He : emin <= ez) by (unfold fexp in H1; lia).
    assert (Hdu : Zdigits2 (units (Z.pos mz) ez) <= 43 + 1074).
    { apply Zdigits2_le; [lia|]. split.
      - pose proof (units_pos (Z.pos mz) ez). lia.
      - rewrite Z.pow_add_r by lia. exact Hlt. }
    rewrite units_digits in Hdu by lia. unfold emin in *. lia. }
  destruct Hcan as [Hc Hd43].
  pose proof (Zdigits2_pos (Z.pos mz) ltac:(lia)) as Hdpos.
  assert (Hex : emin <= ez <= -10) by (unfold fexp, emin in *; lia).
  unfold mul, SFmul. simpl xorb. rewrite Pos2Z.inj_mul.
  set (c := 8796093022208000).
  set (M := Z.pos mz * c). set (E := ez + -43).
  assert (HM : 0 < M) by (unfold M, c; lia).
  destruct (binary_round_aux_value M E HM ltac:(unfold E; lia))
    as (m2 & Hb & _ & Hrule & Hres).
  set (e1 := Z.max E (fexp (Zdigits2 M + E))) in *.
  set (k := e1 - E) in *.
  assert (HdM : Zdigits2 M <= Zdigits2 (Z.pos mz) + 53).
  { unfold M. apply (Zdigits2_mul (Z.pos mz) c); unfold c; lia. }
  assert (HdM53 : 53 <= Zdigits2 M).
  { change 53 with (Zdigits2 c). apply Zdigits2_mono. unfold M, c. lia. }
  assert (He1 : emin <= e1 <= 0) by (unfold e1, E, fexp, emin in *; lia).
  assert (Hk : 0 <= k <= 53) by (unfold k, e1, E, fexp, emin in *; lia).
  assert (Hkd : Zdigits2 M - 53 <= k) by (unfold k, e1, fexp; lia).
  assert (Hpk : 0 < 2 ^ k) by (apply Z.pow_pos_nonneg; lia).
  pose proof (Zdigits2_bounds M HM) as [HMlo HMhi].
  assert (Hm1 : 0 <= M / 2 ^ k < 2 ^ 53).
  { split; [apply Z.div_pos; lia|]. apply Z.div_lt_upper_bound; [lia|].
    eapply Z.lt_le_trans; [exact HMhi|]. rewrite <- Z.pow_add_r by lia.
    apply Z.pow_le_mono_r; lia. }
  assert (Hd2 : Zdigits2 m2 + e1 <= 1024).
  { assert (Zdigits2 m2 <= 54); [|lia].
    apply Zdigits2_le; [lia|]. change (2 ^ 54) with (2 * 2 ^ 53). lia. }
  destruct (Hres Hd2) as [_ Hval]. rewrite Hval. clear Hres Hval.
  exists (e1 - emin). split; [lia|]. cbv zeta.
  set (s := 2 ^ (ez - emin)).
  assert (Hs : 0 < s) by (apply Z.pow_pos_nonneg; lia).
  assert (HA : c * units (Z.pos mz) ez = M * s) by (unfold units, M, s; ring).
  assert (HG : 2 ^ (e1 - emin + 43) = 2 ^ k * s).
  { unfold s. rewrite <- Z.pow_add_r by lia. f_equal. unfold k, E. lia. }
  assert (HG' : 2 ^ (e1 - emin + 43) = 2 ^ (e1 - emin) * 2 ^ 43)
    by (rewrite Z.pow_add_r by lia; reflexivity).
  rewrite HA. split.
  - rewrite HG at 1. rewrite round_to_grid_scale, <- Hrule, HG' by lia. ring.
  - rewrite HG, Z.div_mul_cancel_r by lia. split; [exact Hm1|].
    intros Hg.
    assert (Hk' : k = Zdigits2 M - 53) by (unfold k, e1, E, fexp, emin in *; lia).
    apply Z.div_le_lower_bound; [lia|].
    rewrite Z.mul_comm, <- Z.pow_add_r by lia.
    replace (52 + k) with (Zdigits2 M - 1) by lia. exact HMlo.
Qed.

(** The product with 1000 keeps the order of the floats below [2^43]
    that are not negative. *)
Lemma mul_1000_mono x y :
  valid x = true -> valid y = true -> is_finite x = true -> is_finite y = true ->
  lt0 x = false -> lt0 y = false ->
  Zval x <= Zval y -> Zval y < 2 ^ 43 * U ->
  Zval (mul x (of_Z 1000)) <= Zval (mul y (of_Z 1000)).
Proof.
  intros Hvx Hvy Hfx Hfy Hnx Hny Hle Hlt. pose proof U_pos as HU.
  assert (Hmin : forall m e, valid (S754_finite false m e) = true -> emin <= e).
  { intros m e Hv. unfold valid, valid_binary, bounded, canonical_mantissa in Hv.
    rewrite fexp_eq in Hv. apply andb_true_iff in Hv. destruct Hv as [H1 _].
    apply Z.eqb_eq in H1. unfold fexp in H1. lia. }
  destruct x as [sx| | |[] mx ex]; try discriminate.
  { (* zero *)
    change (of_Z 1000) with (S754_finite false 8796093022208000 (-43)).
    simpl mul. simpl Zval at 1.
    destruct (mul y _) as [| | |s m e]; simpl; try lia.
    unfold units. pose proof (Z.pow_nonneg 2 (e - emin)). nia. }
  pose proof (units_pos (Z.pos mx) ex ltac:(lia) (Hmin _ _ Hvx)) as Hxpos.
  destruct y as [sy| | |[] my ey]; try discriminate; simpl in Hle; [lia|].
  simpl in Hlt.
  destruct (mul_1000_grid mx ex Hvx ltac:(lia)) as (gx & Hgx & Hx & Hqx & Htx).
  destruct (mul_1000_grid my ey Hvy Hlt) as (gy & Hgy & Hy & Hqy & Hty).
  cbv zeta in *.
  set (c := 8796093022208000) in *.
  set (Ax := c * units (Z.pos mx) ex) in *. set (Ay := c * units (Z.pos my) ey) in *.
  assert (HA : Ax <= Ay) by (unfold Ax, Ay, c; lia).
  set (Gx := 2 ^ (gx + 43)) in *. set (Gy := 2 ^ (gy + 43)) in *.
  assert (HGx : 0 < Gx) by (apply Z.pow_pos_nonneg; lia).
  assert (HGy : 0 < Gy) by (apply Z.pow_pos_nonneg; lia).
  pose proof (round_to_grid_bounds Ax Gx) as Hbx.
  pose proof (round_to_grid_bounds Ay Gy) as Hby.
  assert (Hgoal : round_to_grid Ax Gx * Gx <= round_to_grid Ay Gy * Gy).
  { destruct (Z.lt_trichotomy gx gy) as [Hg|[Hg|Hg]].
    - (* the larger float is on a coarser grid *)
      assert (HG2 : 2 * Gx <= Gy).
      { pose proof (Z.pow_le_mono_r 2 (Z.succ (gx + 43)) (gy + 43) ltac:(lia) ltac:(lia))
          as H.
        rewrite Z.pow_succ_r in H by lia. exact H. }
      specialize (Hty ltac:(lia)).
      assert (H1 : round_to_grid Ax Gx * Gx <= 2 ^ 53 * Gx)
        by (apply Z.mul_le_mono_nonneg_r; lia).
      assert (H2 : 2 ^ 52 * Gy <= round_to_grid Ay Gy * Gy)
        by (apply Z.mul_le_mono_nonneg_r; lia).
      assert (H3 : 2 ^ 53 * Gx <= 2 ^ 52 * Gy).
      { change (2 ^ 53) with (2 ^ 52 * 2). rewrite <- Z.mul_assoc.
        apply Z.mul_le_mono_nonneg_l; lia. }
      lia.
    - unfold Gy. rewrite <- Hg. fold Gx.
      apply Z.mul_le_mono_nonneg_r; [lia|]. now apply round_to_grid_mono.
    - (* the smaller float cannot be on a coarser grid *)
      exfalso.
      assert (HG2 : 2 * Gy <= Gx).
      { pose proof (Z.pow_le_mono_r 2 (Z.succ (gy + 43)) (gx + 43) ltac:(lia) ltac:(lia))
          as H.
        rewrite Z.pow_succ_r in H by lia. exact H. }
      specialize (Htx ltac:(lia)).
      pose proof (Z.div_mod Ax Gx ltac:(lia)) as Hdx.
      pose proof (Z.mod_pos_bound Ax Gx HGx) as Hrx.
      pose proof (Z.div_mod Ay Gy ltac:(lia)) as Hdy.
      pose proof (Z.mod_pos_bound Ay Gy HGy) as Hry.
      assert (Hlo : 2 ^ 52 * Gx <= Ax / Gx * Gx)
        by (apply Z.mul_le_mono_nonneg_r; lia).
      assert (Hhi : (Ay / Gy + 1) * Gy <= 2 ^ 53 * Gy)
        by (apply Z.mul_le_mono_nonneg_r; lia).
      assert (Hgr : 2 ^ 53 * Gy <= 2 ^ 52 * Gx).
      { change (2 ^ 53) with (2 ^ 52 * 2). rewrite <- Z.mul_assoc.
        apply Z.mul_le_mono_nonneg_l; lia. }
      lia. }
  rewrite <- Hx, <- Hy in Hgoal.
  apply Z.mul_le_mono_pos_r in Hgoal; [exact Hgoal|reflexivity].
Qed.

(** The comparison of two valid floats that are not negative is the
    comparison of their counts of units. *)
Lemma leb_Zval x y :
  valid x = true -> valid y = true -> is_finite x = true -> is_finite y = true ->
  lt0 x = false -> lt0 y = false ->
  SFleb x y = true -> Zval x <= Zval y.
Proof.
  intros Hvx Hvy Hfx Hfy Hnx Hny Hle.
  assert (Hcan : forall m e, valid (S754_finite false m e) = true ->
                 fexp (Zdigits2 (Z.pos m) + e) = e).
  { intros m e Hv. unfold valid, valid_binary, bounded, canonical_mantissa in Hv.
    rewrite fexp_eq in Hv. apply andb_true_iff in Hv. destruct Hv as [H1 _].
    now apply Z.eqb_eq in H1. }
  destruct x as [sx| | |[] mx ex]; try discriminate;
    destruct y as [sy| | |[] my ey]; try discriminate; simpl Zval; try lia.
  - pose proof (Hcan _ _ Hvy) as Hy.
    pose proof (units_pos (Z.pos my) ey ltac:(lia) ltac:(unfold fexp in Hy; lia)). lia.
  - pose proof (Hcan _ _ Hvx) as Hx. pose proof (Hcan _ _ Hvy) as Hy.
    pose proof (Zdigits2_pos (Z.pos mx) ltac:(lia)) as Hdx.
    pose proof (Zdigits2_pos (Z.pos my) ltac:(lia)) as Hdy.
    pose proof (Zdigits2_bounds (Z.pos mx) ltac:(lia)) as [_ Hxhi].
    pose proof (Zdigits2_bounds (Z.pos my) ltac:(lia)) as [Hylo _].
    assert (Hex : emin <= ex) by (unfold fexp in Hx; lia).
    assert (Hey : emin <= ey) by (unfold fexp in Hy; lia).
    unfold SFleb, SFcompare in Hle.
    destruct (Z.compare_spec ex ey) as [He|He|He]; try discriminate.
    + subst ey. rewrite Pos.compare_cont_spec in Hle. simpl in Hle.
      unfold units. apply Z.mul_le_mono_nonneg_r; [apply Z.pow_nonneg; lia|].
      destruct (Pos.compare_spec mx my); try discriminate; lia.
    + (* a larger exponent means a full mantissa *)
      assert (Hd53 : Zdigits2 (Z.pos my) = 53) by (unfold fexp in *; lia).
      assert (Hdx53 : Zdigits2 (Z.pos mx) <= 53) by (unfold fexp in *; lia).
      rewrite Hd53 in Hylo.
      assert (Z.pos mx < 2 ^ 53).
      { eapply Z.lt_le_trans; [exact Hxhi|]. apply Z.pow_le_mono_r; lia. }
      unfold units.
      replace (ey - emin) with ((ey - ex) + (ex - emin)) by lia.
      rewrite Z.pow_add_r, Z.mul_assoc by lia.
      apply Z.mul_le_mono_nonneg_r; [apply Z.pow_nonneg; lia|].
      assert (2 ^ 1 <= 2 ^ (ey - ex)) by (apply Z.pow_le_mono_r; lia).
      change (2 ^ 1) with 2 in *. change (2 ^ (53 - 1)) with (2 ^ 52) in *.
      change (2 ^ 53) with (2 * 2 ^ 52) in *. nia.
Qed.

End F64Exact.

(** Hours, minutes and seconds add up to the whole seconds. *)
Lemma hms_int n :
  3600 * (n / 3600) + 60 * (n mod 3600 / 60) + n mod 60 = n /\
  0 <= n mod 3600 / 60 < 60 /\ 0 <= n mod 60 < 60.
Proof.
  pose proof (Z.div_mod n 3600 ltac:(lia)) as H1.
  pose proof (Z.mod_pos_bound n 3600 ltac:(lia)) as B1.
  pose proof (Z.div_mod (n mod 3600) 60 ltac:(lia)) as H2.
  pose proof (Z.mod_pos_bound (n mod 3600) 60 ltac:(lia)) as B2.
  pose proof (Z.div_mod n 60 ltac:(lia)) as H3.
  pose proof (Z.mod_pos_bound n 60 ltac:(lia)) as B3.
  lia.
Qed.

(** ** The fields of a float below [2^53] *)

(** Whole parts of quotients and remainders of a count of units. *)
Lemma units_mod_div R W V U :
  0 < U -> 0 < V -> 0 < W ->
  (R mod (W * V * U)) / (V * U) = ((R / U) mod (W * V)) / V.
Proof.
  intros HU HV HW.
  replace (W * V * U) with (U * (W * V)) by ring.
  rewrite Z.rem_mul_r by lia.
  replace (V * U) with (U * V) by ring.
  rewrite <- Z.div_div by lia.
  rewrite (Z.mul_comm U (R / U mod (W * V))), Z.div_add by lia.
  rewrite (Z.div_small (R mod U)) by (apply Z.mod_pos_bound; lia).
  reflexivity.
Qed.

Lemma units_mod R W U :
  0 < U -> 0 < W -> (R mod (W * U)) / U = (R / U) mod W.
Proof.
  intros HU HW. pose proof (units_mod_div R W 1 U HU ltac:(lia) HW) as H.
  rewrite !Z.mul_1_r, Z.mul_1_l, Z.div_1_r in H. exact H.
Qed.

Section Closed.
Import F64 F64Facts F64Exact.

Lemma timestamp_float_closed x :
  valid x = true -> is_finite x = true -> lt0 x = false ->
  Zval x < 2 ^ 53 * U ->
  format_timestamp (PyFloat x)
  = Ok (format_int0 2 (Zval x / U / 3600) +:+ ":" +:+
        format_int0 2 ((Zval x / U) mod 3600 / 60) +:+ ":" +:+
        format_int0 2 ((Zval x / U) mod 60) +:+ "." +:+
        format_int0 3 ((Zval (mul x (of_Z 1000)) / U) mod 1000)).
Proof.
  intros Hv Hfin Hneg Hlt. pose proof U_pos as HU.
  pose proof (valid_nn x Hv Hfin Hneg) as Hx0.
  pose proof (nn_below x Hx0 Hlt) as Hx.
  pose proof (mul_1000_finite _ x Hx ltac:(lia)) as Hmul.
  destruct (mul_1000 _ x Hx0 Hmul) as [Hp _].
  destruct (as_float_small 3600 ltac:(lia)) as [Ha3600 Hn3600].
  destruct (as_float_small 60 ltac:(lia)) as [Ha60 Hn60].
  destruct (as_float_small 1000 ltac:(lia)) as [Ha1000 Hn1000].
  destruct (of_Z_nn 3600 ltac:(lia)) as [Hw3600 Hv3600].
  destruct (of_Z_nn 60 ltac:(lia)) as [Hw60 Hv60].
  destruct (of_Z_nn 1000 ltac:(lia)) as [Hw1000 Hv1000].
  destruct (float_rem_spec _ x _ _ Hx Hw3600 ltac:(lia)) as [Hr3600 Hz3600].
  destruct (float_rem_spec _ x _ _ Hx Hw60 ltac:(lia)) as [Hr60 Hz60].
  destruct (float_rem_spec _ _ _ _ Hp Hw1000 ltac:(lia)) as [Hr1000 Hz1000].
  rewrite Hv3600 in Hz3600. rewrite Hv60 in Hz60. rewrite Hv1000 in Hz1000.
  assert (Hhrs : py_int (PyFloat (fst (float_div_mod x (of_Z 3600)))) = Ok (Zval x / U / 3600)).
  { rewrite (floordiv_whole 3600 x ltac:(lia)).
    - rewrite Z.div_div by lia. now rewrite (Z.mul_comm U).
    - destruct (valid_form x Hv Hfin Hneg) as [?|[Hf Hc]]; [now left|right].
      exists (Zval x). auto. }
  assert (Hmins : py_int (PyFloat (fst (float_div_mod (float_rem x (of_Z 3600)) (of_Z 60))))
                  = Ok ((Zval x / U) mod 3600 / 60)).
  { rewrite (floordiv_whole 60 _ ltac:(lia)).
    - rewrite Hz3600. f_equal.
      exact (units_mod_div (Zval x) 60 60 U HU ltac:(lia) ltac:(lia)).
    - destruct (float_rem_form _ x _ _ Hx Hw3600 ltac:(lia)) as [[s0 Hs0]|(R & HfR & HR & HRv)].
      + left. eauto.
      + right. exists R. rewrite Hv3600 in HRv.
        pose proof (Z.mod_pos_bound (Zval x) (3600 * U) ltac:(lia)).
        split; [exact HfR|]. split; [exact HR|lia]. }
  unfold format_timestamp.
  rewrite (py_floordiv_float x 3600 _ Ha3600 Hn3600). cbn [res_bind]. rewrite Hhrs.
  rewrite (py_mod_float x 3600 _ Ha3600 Hn3600). cbn [res_bind].
  rewrite (py_floordiv_float _ 60 _ Ha60 Hn60). cbn [res_bind]. rewrite Hmins.
  rewrite (py_mod_float x 60 _ Ha60 Hn60). cbn [res_bind].
  rewrite (py_int_nn _ _ Hr60), Hz60. cbn [res_bind].
  rewrite (py_mul_float x 1000 _ Ha1000). cbn [res_bind].
  rewrite (py_mod_float _ 1000 _ Ha1000 Hn1000). cbn [res_bind].
  rewrite (py_int_nn _ _ Hr1000), Hz1000. cbn [res_bind].
  rewrite !units_mod by lia.
  assert (H0 : 0 <= Zval x / U) by (apply Z.div_pos; [eapply nn_Zval_nonneg, Hx0|lia]).
  assert (Hlt53 : Zval x / U < 2 ^ 53) by (apply Z.div_lt_upper_bound; lia).
  pose proof str_limit_pos as HL.
  destruct (hms_int (Zval x / U)) as (_ & Hm & Hs).
  pose proof (Z.mod_pos_bound (Zval (mul x (of_Z 1000)) / U) 1000 ltac:(lia)) as Hms.
  apply format_fields; try assumption.
  rewrite Z.abs_eq by (apply Z.div_pos; lia). apply Z.div_lt_upper_bound; lia.
Qed.

End Closed.

(** ** Floats whose milliseconds overflow *)

Section Overflow.
Import F64 F64Facts F64Exact.

Lemma timestamp_overflow x :
  valid x = true -> is_finite x = true -> lt0 x = false ->
  is_finite (mul x (of_Z 1000)) = false ->
  format_timestamp (PyFloat x) = Raise ValueError.
Proof.
  intros Hv Hfin Hneg Hinf. pose proof U_pos as HU.
  pose proof (valid_nn x Hv Hfin Hneg) as Hx.
  destruct (as_float_small 3600 ltac:(lia)) as [Ha3600 Hn3600].
  destruct (as_float_small 60 ltac:(lia)) as [Ha60 Hn60].
  destruct (as_float_small 1000 ltac:(lia)) as [Ha1000 Hn1000].
  destruct (of_Z_nn 3600 ltac:(lia)) as [Hw3600 Hv3600].
  destruct (of_Z_nn 60 ltac:(lia)) as [Hw60 Hv60].
  destruct (floordiv_3600_top x Hx) as (hrs & Hhrs & _).
  destruct (float_rem_spec _ x _ _ Hx Hw60 ltac:(lia)) as [Hr60 _].
  assert (Hmins : exists mins,
            py_int (PyFloat (fst (float_div_mod (float_rem x (of_Z 3600)) (of_Z 60))))
            = Ok mins).
  { eexists. apply floordiv_60.
    destruct (float_rem_form _ x _ _ Hx Hw3600 ltac:(lia)) as [[s0 Hs0]|(R & HfR & HR & HRv)].
    - left. eauto.
    - right. exists R. rewrite Hv3600 in HRv.
      pose proof (Z.mod_pos_bound (Zval x) (3600 * U) ltac:(lia)).
      split; [exact HfR|]. split; [exact HR|lia]. }
  destruct Hmins as [mins Hmins].
  unfold format_timestamp.
  rewrite (py_floordiv_float x 3600 _ Ha3600 Hn3600). cbn [res_bind]. rewrite Hhrs.
  rewrite (py_mod_float x 3600 _ Ha3600 Hn3600). cbn [res_bind].
  rewrite (py_floordiv_float _ 60 _ Ha60 Hn60). cbn [res_bind]. rewrite Hmins.
  rewrite (py_mod_float x 60 _ Ha60 Hn60). cbn [res_bind].
  rewrite (py_int_nn _ _ Hr60). cbn [res_bind].
  rewrite (py_mul_float x 1000 _ Ha1000). cbn [res_bind].
  rewrite (mul_1000_overflow x Hx Hinf). reflexivity.
Qed.

End Overflow.

Lemma div_mod_60 n : n mod 3600 / 60 = (n / 60) mod 60.
Proof.
  change 3600 with (60 * 60). rewrite Z.rem_mul_r by lia.
  rewrite (Z.mul_comm 60 ((n / 60) mod 60)), Z.div_add by lia.
  rewrite (Z.div_small (n mod 60)) by (apply Z.mod_pos_bound; lia). reflexivity.
Qed.

(** ** The fields of an [int] *)

Lemma timestamp_int_closed n :
  Z.abs (n / 3600) < str_limit ->
  format_timestamp (PyInt n)
  = Ok (format_int0 2 (n / 3600) +:+ ":" +:+ format_int0 2 (n mod 3600 / 60) +:+ ":" +:+
        format_int0 2 (n mod 60) +:+ "." +:+ format_int0 3 0).
Proof.
  intros H. unfold format_timestamp. cbn [py_floordiv py_mod py_mul py_int res_bind Z.eqb].
  rewrite Z.mod_mul by lia.
  destruct (hms_int n) as (_ & Hm & Hs). rewrite format_fields by lia. reflexivity.
Qed.

(** ** Strings cut at a separator *)

Lemma app_sep_inj c a : forall a' r r',
  occurs c a = false -> occurs c a' = false ->
  a +:+ String c r = a' +:+ String c r' -> a = a' /\ r = r'.
Proof.
  induction a as [|d a IH]; intros [|d' a'] r r' Ha Ha' H.
  - rewrite !app_empty_l in H. now inversion H.
  - rewrite app_empty_l, app_cons in H. inversion H; subst.
    simpl in Ha'. now rewrite Ascii.eqb_refl in Ha'.
  - rewrite app_empty_l, app_cons in H. inversion H; subst.
    simpl in Ha. now rewrite Ascii.eqb_refl in Ha.
  - rewrite !app_cons in H. inversion H; subst.
    simpl in Ha, Ha'. apply orb_false_iff in Ha, Ha'.
    destruct (IH a' r r') as [-> ->]; tauto.
Qed.

Lemma decimal_value_minus s : decimal_value (String "-" s) = None.
Proof.
  unfold decimal_value, NilZero.uint_of_string. simpl.
  now destruct (NilEmpty.uint_of_string s).
Qed.

Lemma format_int0_inj width a b : format_int0 width a = format_int0 width b -> a = b.
Proof.
  intros H.
  destruct (Z.ltb_spec a 0) as [Ha|Ha]; destruct (Z.ltb_spec b 0) as [Hb|Hb].
  - unfold format_int0 in H.
    destruct (Z.ltb_spec a 0); [|lia]. destruct (Z.ltb_spec b 0); [|lia].
    rewrite !app_cons, !app_empty_l in H. inversion H as [H'].
    rewrite <- !format_int0_nonneg in H' by lia.
    apply (f_equal decimal_value) in H'.
    rewrite !decimal_value_format in H' by lia. inversion H'. lia.
  - apply (f_equal decimal_value) in H.
    rewrite (decimal_value_format width b Hb) in H.
    unfold format_int0 in H. destruct (Z.ltb_spec a 0); [|lia].
    rewrite app_cons, decimal_value_minus in H. discriminate.
  - apply (f_equal decimal_value) in H.
    rewrite (decimal_value_format width a Ha) in H.
    unfold format_int0 in H. destruct (Z.ltb_spec b 0); [|lia].
    rewrite app_cons, decimal_value_minus in H. discriminate.
  - apply (f_equal decimal_value) in H.
    rewrite !decimal_value_format in H by lia. now inversion H.
Qed.

(** Two timestamps are equal only when their four fields are. *)
Lemma timestamp_fields_inj h m s ms h' m' s' ms' :
  format_int0 2 h +:+ ":" +:+ format_int0 2 m +:+ ":" +:+ format_int0 2 s +:+ "."
    +:+ format_int0 3 ms
  = format_int0 2 h' +:+ ":" +:+ format_int0 2 m' +:+ ":" +:+ format_int0 2 s' +:+ "."
    +:+ format_int0 3 ms' ->
  h = h' /\ m = m' /\ s = s' /\ ms = ms'.
Proof.
  intros H.
  assert (Hcolon : forall w n, occurs ":" (format_int0 w n) = false)
    by (intros; apply occurs_format_int0; [discriminate|vm_compute; lia]).
  assert (Hdot : forall w n, occurs "." (format_int0 w n) = false)
    by (intros; apply occurs_format_int0; [discriminate|vm_compute; lia]).
  change (":" +:+ ?x) with (String ":" x) in H.
  rewrite !app_cons, !app_empty_l in H.
  apply app_sep_inj in H; [|apply Hcolon..]. destruct H as [H1 H].
  apply app_sep_inj in H; [|apply Hcolon..]. destruct H as [H2 H].
  apply app_sep_inj in H; [|apply Hdot..]. destruct H as [H3 H4].
  apply format_int0_inj in H1, H2, H3, H4. auto.
Qed.

(** ** The loops, whatever their outcome *)

Section TranslateMore.
Context {Ext : Type}.
Variable translator_translate : string -> string -> Ext -> res string * Ext.

(** Whatever the outcome, the loop calls the translator for a prefix of
    the segments, once each and in order, and for all of them when it
    returns; it touches no file and shows nothing. *)
Lemma translate_loop_calls segments : forall target_lang acc w r w',
  translate_loop translator_translate segments target_lang acc w = (r, w') ->
  files w' = files w /\ ui w' = ui w /\
  exists k, (k <= length segments)%nat /\
    translate_log w' = translate_log w ++ map (call_of target_lang) (take k segments) /\
    match r with
    | Ok out => k = length segments
    | Raise x => (1 <= k)%nat /\
        exists seg e e', segments !! (k - 1)%nat = Some seg /\
          translator_translate (seg_text seg) target_lang e = (Raise x, e')
    end.
Proof.
  induction segments as [|seg rest IH]; intros tgt acc w r w' H; simpl in H.
  - unfold ret in H. inversion H; subst. repeat split; try reflexivity.
    exists O. simpl. rewrite app_nil_r. auto.
  - unfold bind, translate in H.
    destruct (translator_translate (seg_text seg) tgt (ext w)) as [[txt|x] e] eqn:Hcall.
    + apply IH in H. destruct H as (Hf & Hu & k & Hk & Hl & Hr). simpl in *.
      split; [exact Hf|]. split; [exact Hu|]. exists (S k). split; [lia|].
      split; [rewrite Hl, <- app_assoc; reflexivity|].
      destruct r as [out|y]; [lia|].
      destruct Hr as (H1 & s & e1 & e2 & Hs & Hc). split; [lia|].
      exists s, e1, e2. split; [|exact Hc].
      destruct k as [|k]; [lia|]. simpl in *. now rewrite Nat.sub_0_r in *.
    + inversion H; subst. simpl. repeat split; try reflexivity.
      exists 1%nat. split; [lia|]. split; [now destruct rest|].
      split; [lia|]. exists seg, (ext w), e. auto.
Qed.

(** The list built so far only prefixes the result. *)
Lemma translate_loop_acc segments : forall target_lang acc w,
  translate_loop translator_translate segments target_lang acc w
  = match translate_loop translator_translate segments target_lang [] w with
    | (Ok out, w') => (Ok (acc ++ out), w')
    | (Raise x, w') => (Raise x, w')
    end.
Proof.
  induction segments as [|seg rest IH]; intros tgt acc w; simpl.
  - unfold ret. now rewrite app_nil_r.
  - unfold bind, translate.
    destruct (translator_translate (seg_text seg) tgt (ext w)) as [[txt|x] e]; [|reflexivity].
    rewrite (IH tgt (acc ++ _)), (IH tgt [_]).
    destruct (translate_loop translator_translate rest tgt [] _) as [[out|x] w'];
      [|reflexivity].
    now rewrite <- app_assoc.
Qed.

Lemma translate_loop_app a : forall b target_lang acc w,
  translate_loop translator_translate (a ++ b) target_lang acc w
  = match translate_loop translator_translate a target_lang acc w with
    | (Ok out, w') => translate_loop translator_translate b target_lang out w'
    | (Raise x, w') => (Raise x, w')
    end.
Proof.
  induction a as [|seg rest IH]; intros b tgt acc w; simpl.
  - reflexivity.
  - unfold bind, translate.
    destruct (translator_translate (seg_text seg) tgt (ext w)) as [[txt|x] e]; [|reflexivity].
    apply IH.
Qed.

End TranslateMore.

Section CreateVttMore.
Context {Ext : Type}.
Variable os_open_w : string -> Ext -> res unit.

(** The loop of [create_vtt] stops at the first segment with a time
    that cannot be rendered; the blocks before it are in the file. *)
Lemma write_cues_raise (file_path : string) pre : forall bad post cues x (w : world Ext) old,
  Forall2 (fun seg c => cue_block seg = Ok c) pre cues ->
  cue_block bad = Raise x ->
  files w !! file_path = Some old ->
  for_each (pre ++ bad :: post) (write_cue file_path) w
  = (Raise x, World (<[file_path := old +:+ join cues]> (files w))
                (ext w) (translate_log w) (ui w)).
Proof.
  induction pre as [|seg rest IH]; intros bad post cues x w old Hall Hbad Hold.
  - inversion Hall; subst. simpl.
    unfold bind at 1. unfold write_cue, bind, lift. rewrite Hbad.
    rewrite app_empty_r, insert_id by exact Hold. now destruct w.
  - inversion Hall as [|? c ? cues' Hc Hrest]; subst. simpl.
    unfold bind at 1. unfold write_cue, bind, lift. rewrite Hc.
    unfold f_write at 1. rewrite Hold. simpl.
    erewrite IH; [|exact Hrest|exact Hbad|simpl; apply lookup_insert_eq].
    simpl. rewrite insert_insert_eq, app_assoc_s. reflexivity.
Qed.

Lemma create_vtt_raise pre bad post cues x (file_path : string) (w : world Ext) :
  os_open_w file_path (ext w) = Ok tt ->
  Forall2 (fun seg c => cue_block seg = Ok c) pre cues ->
  cue_block bad = Raise x ->
  create_vtt os_open_w (pre ++ bad :: post) file_path w
  = (Raise x, World (<[file_path := vtt_header +:+ join cues]> (files w))
                (ext w) (translate_log w) (ui w)).
Proof.
  intros Hopen Hall Hbad. unfold create_vtt, bind, open_w, f_write. rewrite Hopen. simpl.
  rewrite lookup_insert_eq. simpl.
  erewrite write_cues_raise; [|exact Hall|exact Hbad|simpl; apply lookup_insert_eq].
  simpl. rewrite !insert_insert_eq. reflexivity.
Qed.

(** Every list of segments splits into the ones whose times render and,
    when there is one, the first whose times do not. *)
Lemma cues_split segments :
  (exists cues, Forall2 (fun seg c => cue_block seg = Ok c) segments cues) \/
  (exists pre bad post cues x,
     segments = pre ++ bad :: post /\
     Forall2 (fun seg c => cue_block seg = Ok c) pre cues /\ cue_block bad = Raise x).
Proof.
  induction segments as [|seg rest IH].
  - left. exists []. constructor.
  - destruct (cue_block seg) as [c|x] eqn:Hc.
    + destruct IH as [[cues H]|(pre & bad & post & cues & x & -> & H & Hb)].
      * left. exists (c :: cues). now constructor.
      * right. exists (seg :: pre), bad, post, (c :: cues), x.
        split; [reflexivity|]. split; [now constructor|exact Hb].
    + right. exists [], seg, rest, [], x. split; [reflexivity|]. split; [constructor|exact Hc].
Qed.

(** Whatever the outcome, [create_vtt] changes nothing when the
    destination cannot be opened, and otherwise one entry of the file
    system and nothing else. *)
Lemma create_vtt_shape segments (file_path : string) (w : world Ext) :
  (exists x, os_open_w file_path (ext w) = Raise x /\
             create_vtt os_open_w segments file_path w = (Raise x, w)) \/
  (os_open_w file_path (ext w) = Ok tt /\
   exists r content,
     create_vtt os_open_w segments file_path w
     = (r, World (<[file_path := content]> (files w)) (ext w) (translate_log w) (ui w))).
Proof.
  destruct (os_open_w file_path (ext w)) as [[]|x] eqn:Hopen.
  - right. split; [reflexivity|].
    destruct (cues_split segments) as [[cues H]|(pre & bad & post & cues & x & -> & H & Hb)].
    + eexists _, _. apply create_vtt_ok; [exact Hopen|exact H].
    + eexists _, _. apply create_vtt_raise; eassumption.
  - left. exists x. split; [reflexivity|]. now apply create_vtt_refused.
Qed.

End CreateVttMore.

(** ** The job, step by step *)

Section JobMore.
Context {Ext : Type}.
Variable spawn : list string -> gmap string string -> Ext -> res Z * gmap string string * Ext.
Variable whisper_transcribe : string -> string -> gmap string string -> Ext ->
                              res (list Segment) * Ext.
Variable translator_translate : string -> string -> Ext -> res string * Ext.
Variable temp_name : string -> gmap string string -> Ext -> string * Ext.
Variable b64encode : string -> string.
Variable os_open_w : string -> Ext -> res unit.

(** Lines 74-87 run: the three temporary files are made, then the
    transcoder is started, then the speech model is called. *)
Lemma job_prepare_run uploaded_video source_lang (w : world Ext)
    video_path e1 temp_audio e2 temp_subs e3 :
  temp_name ".mp4" (files w) (ext w) = (video_path, e1) ->
  temp_name ".mp3" (<[video_path := uploaded_video]> (files w)) e1 = (temp_audio, e2) ->
  temp_name ".vtt" (<[temp_audio := EmptyString]> (<[video_path := uploaded_video]> (files w))) e2
  = (temp_subs, e3) ->
  job_prepare spawn whisper_transcribe temp_name uploaded_video source_lang w
  = let '(r, fs, e4) :=
      spawn (ffmpeg_cmd video_path temp_audio)
            (temp_files uploaded_video video_path temp_audio temp_subs (files w)) e3 in
    match r with
    | Raise x => (Raise x, World fs e4 (translate_log w) (ui w))
    | Ok _ =>
        let '(r', e5) := whisper_transcribe temp_audio source_lang fs e4 in
        (match r' with
         | Ok segments => Ok (video_path, temp_audio, temp_subs, segments)
         | Raise x => Raise x
         end, World fs e5 (translate_log w) (ui w))
    end.
Proof.
  intros H1 H2 H3.
  unfold job_prepare, bind, named_temporary_file, f_write, extract_audio, bind,
    subprocess_run, transcribe_audio, ret. cbn [files ext translate_log ui].
  rewrite H1. cbn [files ext translate_log ui].
  rewrite lookup_insert_eq. cbn [default]. rewrite app_empty_l, insert_insert_eq.
  rewrite H2. cbn [files ext translate_log ui]. rewrite H3. cbn [files ext translate_log ui].
  unfold ffmpeg_cmd, temp_files.
  destruct (spawn _ _ e3) as [[[status|x] fs] e4]; [|reflexivity].
  cbn [files ext translate_log ui].
  destruct (whisper_transcribe temp_audio source_lang fs e4) as [[segments|x] e5]; reflexivity.
Qed.

(** Up to the translation the job shows nothing and calls no
    translator. *)
Lemma job_prepare_quiet uploaded_video source_lang (w : world Ext) r w1 :
  job_prepare spawn whisper_transcribe temp_name uploaded_video source_lang w = (r, w1) ->
  ui w1 = ui w /\ translate_log w1 = translate_log w.
Proof.
  destruct (temp_name ".mp4" (files w) (ext w)) as [vp e1] eqn:H1.
  destruct (temp_name ".mp3" (<[vp := uploaded_video]> (files w)) e1) as [ta e2] eqn:H2.
  destruct (temp_name ".vtt" (<[ta := EmptyString]> (<[vp := uploaded_video]> (files w))) e2)
    as [ts e3] eqn:H3.
  rewrite (job_prepare_run _ _ _ _ _ _ _ _ _ H1 H2 H3).
  destruct (spawn _ _ e3) as [[[status|x] fs] e4].
  - destruct (whisper_transcribe ta source_lang fs e4) as [r' e5].
    intros H. inversion H; subst. auto.
  - intros H. inversion H; subst. auto.
Qed.




(** From the subtitle file on, the page gets the whole player and the
    closing message, or nothing. *)
Lemma job_finish_page video_path temp_audio temp_subs target_lang out (w : world Ext) r w' :
  job_finish b64encode os_open_w video_path temp_audio temp_subs target_lang out w = (r, w') ->
  (ui w' = ui w /\ r <> Ok tt) \/
  exists video_b64 subs_b64, ui w' = ui w ++ player_page video_b64 subs_b64 target_lang.
Proof.
  unfold job_finish. intros H.
  destruct (create_vtt_shape os_open_w out temp_subs w)
    as [(x0 & _ & Hc)|(_ & r0 & content & Hc)].
  { unfold bind at 1 in H. rewrite Hc in H. inversion H; subst.
    left. split; [reflexivity|discriminate]. }
  unfold bind at 1 in H. rewrite Hc in H.
  destruct r0 as [[]|x]; [|inversion H; subst; left; split; [reflexivity|discriminate]].
  unfold bind at 1 in H. unfold get_base64 at 1 in H. unfold bind at 1 in H.
  unfold read_file at 1 in H. cbn [files ext translate_log ui] in H.
  destruct (<[temp_subs:=content]> (files w) !! video_path) as [video|];
    [|inversion H; subst; left; split; [reflexivity|discriminate]].
  unfold ret at 1 in H.
  unfold bind at 1 in H. unfold get_base64 at 1 in H. unfold bind at 1 in H.
  unfold read_file at 1 in H. cbn [files ext translate_log ui] in H.
  destruct (<[temp_subs:=content]> (files w) !! temp_subs) as [subs|];
    [|inversion H; subst; left; split; [reflexivity|discriminate]].
  unfold ret at 1 in H.
  unfold bind at 1 in H. unfold st_show at 1 in H. cbn [files ext translate_log ui] in H.
  unfold bind at 1 in H. unfold st_show at 1 in H. cbn [files ext translate_log ui] in H.
  unfold bind at 1 in H. unfold st_show at 1 in H. cbn [files ext translate_log ui] in H.
  unfold bind at 1 in H. unfold st_show at 1 in H. cbn [files ext translate_log ui] in H.
  right. exists (b64encode video), (b64encode subs).
  assert (Hrm : forall p (w2 : world Ext) r2 w3, os_remove p w2 = (r2, w3) -> ui w3 = ui w2).
  { intros p w2 r2 w3. unfold os_remove. destruct (files w2 !! p); intros E; now inversion E. }
  unfold bind in H.
  repeat match type of H with
  | context [os_remove ?p ?w0] =>
      let E := fresh "E" in
      destruct (os_remove p w0) as [[[]|?] ?] eqn:E; apply Hrm in E; cbn [ui] in E
  end;
  inversion H; subst;
  repeat match goal with E : ui ?a = _ |- context [ui ?a] => rewrite E end;
  unfold player_page; rewrite <- !app_assoc; reflexivity.
Qed.

End JobMore.


(** * Further properties of the code *)

(** X1: which [int]s [format_timestamp] renders, and how.  On an [int]
    of any sign it returns when the hours [n // 3600] have at most 4300
    digits, and raises [ValueError] when they have more: CPython does
    not convert a longer [int] to a string.  When it returns, the fields
    are the quotient by 3600, the quotient by 60 of the remainder by
    3600, and the remainder by 60, floor division throughout, and the
    milliseconds are [000].  Minutes and seconds lie in 0..59 and the
    three fields add up to the input. *)
Theorem format_timestamp_int_closed_form (n : Z) :
  (Z.abs (n / 3600) < str_limit ->
   format_timestamp (PyInt n)
   = Ok (format_int0 2 (n / 3600) +:+ ":" +:+ format_int0 2 (n mod 3600 / 60) +:+ ":" +:+
         format_int0 2 (n mod 60) +:+ ".000")) /\
  (str_limit <= Z.abs (n / 3600) -> format_timestamp (PyInt n) = Raise ValueError) /\
  3600 * (n / 3600) + 60 * (n mod 3600 / 60) + n mod 60 = n /\
  0 <= n mod 3600 / 60 < 60 /\ 0 <= n mod 60 < 60.
Proof.
  split; [intros H; apply timestamp_int_closed, H|].
  split; [apply timestamp_int_refused | apply hms_int].
Qed.

(** One second before zero is rendered, one hour back;
    [3600 * 10**4300], whose hours are the least number of 4301 digits,
    is refused. *)
Lemma format_timestamp_int_closed_form_witness :
  (Z.abs (-1 / 3600) < str_limit /\
   format_timestamp (PyInt (-1)) = Ok "-1:59:59.000"%string) /\
  (str_limit <= Z.abs (3600 * str_limit / 3600) /\
   format_timestamp (PyInt (3600 * str_limit)) = Raise ValueError).
Proof.
  assert (H1 : Z.abs (-1 / 3600) < str_limit).
  { pose proof str_limit_pos as HL. change (-1 / 3600) with (-1).
    change (Z.abs (-1)) with 1. lia. }
  assert (H2 : str_limit <= Z.abs (3600 * str_limit / 3600)).
  { rewrite Z.mul_comm, Z.div_mul by lia. lia. }
  split; (split; [assumption|]).
  - exact (proj1 (format_timestamp_int_closed_form (-1)) H1).
  - exact (proj1 (proj2 (format_timestamp_int_closed_form (3600 * str_limit))) H2).
Defined.

(** X2: on a float that is not negative and is below [2^53], the hours,
    minutes and seconds of [format_timestamp] are exact: with [W] the
    whole seconds in the float, they are [W // 3600], [W % 3600 // 60]
    and [W % 60], and add up to [W].  The milliseconds are the last three
    digits of the whole part [P] of the float product [seconds * 1000]. *)
Theorem format_timestamp_float_closed_form (x : spec_float) :
  F64.valid x = true -> F64.is_finite x = true -> F64.lt0 x = false ->
  whole_seconds (PyFloat x) < 2 ^ 53 ->
  let W := whole_seconds (PyFloat x) in
  let P := whole_seconds (PyFloat (F64.mul x (F64.of_Z 1000))) in
  format_timestamp (PyFloat x)
  = Ok (format_int0 2 (W / 3600) +:+ ":" +:+ format_int0 2 (W mod 3600 / 60) +:+ ":" +:+
        format_int0 2 (W mod 60) +:+ "." +:+ format_int0 3 (P mod 1000)) /\
  3600 * (W / 3600) + 60 * (W mod 3600 / 60) + W mod 60 = W.
Proof.
  intros Hv Hfin Hneg Hlt W P. split; [|apply hms_int].
  apply timestamp_float_closed; try assumption.
  unfold whole_seconds in Hlt. pose proof F64Facts.U_pos as HU.
  pose proof (Z.div_mod (F64.Zval x) F64.U ltac:(lia)).
  pose proof (Z.mod_pos_bound (F64.Zval x) F64.U HU). nia.
Qed.

Lemma format_timestamp_float_closed_form_witness :
  F64.valid (F64.literal 36615 10) = true /\
  whole_seconds (PyFloat (F64.literal 36615 10)) = 3661 /\
  whole_seconds (PyFloat (F64.mul (F64.literal 36615 10) (F64.of_Z 1000))) = 3661500 /\
  format_timestamp (PyFloat (F64.literal 36615 10))
  = Ok (format_int0 2 (3661 / 3600) +:+ ":" +:+ format_int0 2 (3661 mod 3600 / 60) +:+ ":" +:+
        format_int0 2 (3661 mod 60) +:+ "." +:+ format_int0 3 (3661500 mod 1000)).
Proof.
  assert (Hv : F64.valid (F64.literal 36615 10) = true) by (vm_compute; reflexivity).
  assert (Hf : F64.is_finite (F64.literal 36615 10) = true) by (vm_compute; reflexivity).
  assert (Hn : F64.lt0 (F64.literal 36615 10) = false) by (vm_compute; reflexivity).
  assert (HS : whole_seconds (PyFloat (F64.literal 36615 10)) = 3661)
    by (vm_compute; reflexivity).
  assert (HP : whole_seconds (PyFloat (F64.mul (F64.literal 36615 10) (F64.of_Z 1000)))
               = 3661500) by (vm_compute; reflexivity).
  assert (Hlt : whole_seconds (PyFloat (F64.literal 36615 10)) < 2 ^ 53)
    by (vm_compute; reflexivity).
  split; [exact Hv|]. split; [exact HS|]. split; [exact HP|].
  rewrite <- HS, <- HP.
  exact (proj1 (format_timestamp_float_closed_form _ Hv Hf Hn Hlt)).
Defined.

(** X3: on a float that is not negative and is below [2^43], the
    timestamp is the rendering of one number of milliseconds, the whole
    part [P] of the float product [seconds * 1000]: the hours are
    [P // 3600000], the minutes [P // 60000 % 60], the seconds
    [P // 1000 % 60] and the milliseconds [P % 1000].  The rounding of
    the product never carries it into another second: [P // 1000] is
    the whole part of [seconds]. *)
Theorem format_timestamp_millisecond_count (x : spec_float) :
  F64.valid x = true -> F64.is_finite x = true -> F64.lt0 x = false ->
  whole_seconds (PyFloat x) < 2 ^ 43 ->
  let P := whole_seconds (PyFloat (F64.mul x (F64.of_Z 1000))) in
  P / 1000 = whole_seconds (PyFloat x) /\
  format_timestamp (PyFloat x)
  = Ok (format_int0 2 (P / 3600000) +:+ ":" +:+ format_int0 2 (P / 60000 mod 60) +:+ ":" +:+
        format_int0 2 (P / 1000 mod 60) +:+ "." +:+ format_int0 3 (P mod 1000)).
Proof.
  intros Hv Hfin Hneg Hlt P. unfold whole_seconds in *. pose proof F64Facts.U_pos as HU.
  assert (Hlt' : F64.Zval x < 2 ^ 43 * F64.U).
  { pose proof (Z.div_mod (F64.Zval x) F64.U ltac:(lia)).
    pose proof (Z.mod_pos_bound (F64.Zval x) F64.U HU). nia. }
  pose proof (proj1 (F64Exact.mul_1000_whole x Hv Hfin Hneg Hlt')) as Hsame.
  fold P in Hsame. split; [exact Hsame|].
  rewrite timestamp_float_closed; try assumption; [|lia].
  fold P. rewrite <- Hsame, div_mod_60, !Z.div_div by lia. reflexivity.
Qed.

Lemma format_timestamp_millisecond_count_witness :
  whole_seconds (PyFloat (F64.mul (F64.literal 19995 10000) (F64.of_Z 1000))) = 1999 /\
  whole_seconds (PyFloat (F64.literal 19995 10000)) = 1999 / 1000 /\
  format_timestamp (PyFloat (F64.literal 19995 10000))
  = Ok (format_int0 2 (1999 / 3600000) +:+ ":" +:+ format_int0 2 (1999 / 60000 mod 60) +:+ ":"
        +:+ format_int0 2 (1999 / 1000 mod 60) +:+ "." +:+ format_int0 3 (1999 mod 1000)).
Proof.
  assert (Hv : F64.valid (F64.literal 19995 10000) = true) by (vm_compute; reflexivity).
  assert (Hf : F64.is_finite (F64.literal 19995 10000) = true) by (vm_compute; reflexivity).
  assert (Hn : F64.lt0 (F64.literal 19995 10000) = false) by (vm_compute; reflexivity).
  assert (Hlt : whole_seconds (PyFloat (F64.literal 19995 10000)) < 2 ^ 43)
    by (vm_compute; reflexivity).
  assert (HP : whole_seconds (PyFloat (F64.mul (F64.literal 19995 10000) (F64.of_Z 1000)))
               = 1999) by (vm_compute; reflexivity).
  destruct (format_timestamp_millisecond_count _ Hv Hf Hn Hlt) as [H1 H2].
  rewrite HP in H1, H2. split; [exact HP|]. split; [symmetry; exact H1|exact H2].
Defined.

(** X4: how far the timestamp is from the time.  On a float that is not
    negative and is below [2^43], the milliseconds that the timestamp
    denotes, [P], are the whole milliseconds in the exact value of the
    float, or one more: the float product [seconds * 1000] is rounded,
    and the rounding can reach the next whole millisecond from below but
    never falls under the last one. *)
Theorem format_timestamp_within_one_millisecond (x : spec_float) :
  F64.valid x = true -> F64.is_finite x = true -> F64.lt0 x = false ->
  whole_seconds (PyFloat x) < 2 ^ 43 ->
  exists P,
    format_timestamp (PyFloat x)
    = Ok (format_int0 2 (P / 3600000) +:+ ":" +:+ format_int0 2 (P / 60000 mod 60) +:+ ":"
          +:+ format_int0 2 (P / 1000 mod 60) +:+ "." +:+ format_int0 3 (P mod 1000)) /\
    exact_milliseconds x <= P <= exact_milliseconds x + 1.
Proof.
  intros Hv Hfin Hneg Hlt. unfold whole_seconds in *. pose proof F64Facts.U_pos as HU.
  assert (Hlt' : F64.Zval x < 2 ^ 43 * F64.U).
  { pose proof (Z.div_mod (F64.Zval x) F64.U ltac:(lia)).
    pose proof (Z.mod_pos_bound (F64.Zval x) F64.U HU). nia. }
  destruct (F64Exact.mul_1000_whole x Hv Hfin Hneg Hlt') as [Hsame Hnear].
  exists (F64.Zval (F64.mul x (F64.of_Z 1000)) / F64.U). split; [|exact Hnear].
  rewrite timestamp_float_closed; try assumption; [|lia].
  rewrite <- Hsame, div_mod_60, !Z.div_div by lia. reflexivity.
Qed.

(** Both cases occur: 1.9995 is rendered with its own 1999 whole
    milliseconds, and 0.009, a float just below nine thousandths, with
    9 where it has 8. *)
Lemma format_timestamp_within_one_millisecond_witness :
  (exact_milliseconds (F64.literal 19995 10000) = 1999 /\
   format_timestamp (PyFloat (F64.literal 19995 10000)) = Ok "00:00:01.999"%string) /\
  (exact_milliseconds (F64.literal 9 1000) = 8 /\
   format_timestamp (PyFloat (F64.literal 9 1000)) = Ok "00:00:00.009"%string) /\
  exists P,
    format_timestamp (PyFloat (F64.literal 9 1000))
    = Ok (format_int0 2 (P / 3600000) +:+ ":" +:+ format_int0 2 (P / 60000 mod 60) +:+ ":"
          +:+ format_int0 2 (P / 1000 mod 60) +:+ "." +:+ format_int0 3 (P mod 1000)) /\
    8 <= P <= 8 + 1.
Proof.
  split; [split; vm_compute; reflexivity|]. split; [split; vm_compute; reflexivity|].
  assert (HT : exact_milliseconds (F64.literal 9 1000) = 8) by (vm_compute; reflexivity).
  assert (Hlt : whole_seconds (PyFloat (F64.literal 9 1000)) < 2 ^ 43)
    by (vm_compute; reflexivity).
  destruct (format_timestamp_within_one_millisecond (F64.literal 9 1000)
              ltac:(vm_compute; reflexivity) ltac:(vm_compute; reflexivity)
              ltac:(vm_compute; reflexivity) Hlt) as (P & Hs & Hn).
  exists P. rewrite HT in Hn. split; [exact Hs|exact Hn].
Defined.

(** X5: timestamps keep the order of the times.  For two floats
    [0 <= x <= y] in the comparison of the floats, with [y] below
    [2^43], both timestamps are renderings of a number of milliseconds,
    the whole parts [Px] and [Py] of the float products [x * 1000] and
    [y * 1000], and [Px <= Py]: the roundings of the two products never
    put the later time first, so a cue whose segment ends no earlier
    than it starts is written with an end no earlier than its start. *)
Theorem format_timestamp_keeps_order (x y : spec_float) :
  F64.valid x = true -> F64.valid y = true -> F64.is_finite y = true ->
  F64.lt0 x = false -> SFleb x y = true ->
  whole_seconds (PyFloat y) < 2 ^ 43 ->
  let Px := whole_seconds (PyFloat (F64.mul x (F64.of_Z 1000))) in
  let Py := whole_seconds (PyFloat (F64.mul y (F64.of_Z 1000))) in
  Px <= Py /\
  format_timestamp (PyFloat x)
  = Ok (format_int0 2 (Px / 3600000) +:+ ":" +:+ format_int0 2 (Px / 60000 mod 60) +:+ ":"
        +:+ format_int0 2 (Px / 1000 mod 60) +:+ "." +:+ format_int0 3 (Px mod 1000)) /\
  format_timestamp (PyFloat y)
  = Ok (format_int0 2 (Py / 3600000) +:+ ":" +:+ format_int0 2 (Py / 60000 mod 60) +:+ ":"
        +:+ format_int0 2 (Py / 1000 mod 60) +:+ "." +:+ format_int0 3 (Py mod 1000)).
Proof.
  intros Hvx Hvy Hfy Hnx Hle Hlt Px Py. unfold whole_seconds in *.
  pose proof F64Facts.U_pos as HU.
  assert (Hfx : F64.is_finite x = true).
  { destruct x as [sx|[]| |sx mx ex]; try reflexivity; try discriminate;
      destruct y as [sy|sy| |[] my ey]; discriminate. }
  assert (Hny : F64.lt0 y = false).
  { destruct y as [sy|sy| |[] my ey]; try reflexivity; try discriminate.
    destruct x as [sx|[]| |[] mx ex]; discriminate. }
  pose proof (F64Exact.leb_Zval x y Hvx Hvy Hfx Hfy Hnx Hny Hle) as Hxy.
  assert (Hlty : F64.Zval y < 2 ^ 43 * F64.U).
  { pose proof (Z.div_mod (F64.Zval y) F64.U ltac:(lia)).
    pose proof (Z.mod_pos_bound (F64.Zval y) F64.U HU). nia. }
  assert (Hltx : F64.Zval x < 2 ^ 43 * F64.U) by lia.
  assert (Hwx : F64.Zval x / F64.U < 2 ^ 43)
    by (apply Z.div_lt_upper_bound; lia).
  pose proof (proj1 (F64Exact.mul_1000_whole x Hvx Hfx Hnx Hltx)) as Hsx.
  pose proof (proj1 (F64Exact.mul_1000_whole y Hvy Hfy Hny Hlty)) as Hsy.
  fold Px in Hsx. fold Py in Hsy.
  split; [|split].
  - apply Z.div_le_mono; [lia|].
    now apply F64Exact.mul_1000_mono.
  - rewrite timestamp_float_closed; try assumption; [|lia].
    fold Px. rewrite <- Hsx, div_mod_60, !Z.div_div by lia. reflexivity.
  - rewrite timestamp_float_closed; try assumption; [|lia].
    fold Py. rewrite <- Hsy, div_mod_60, !Z.div_div by lia. reflexivity.
Qed.

(** A segment from 1.2 s to 2.5 s: 1200 and 2500 milliseconds. *)
Lemma format_timestamp_keeps_order_witness :
  whole_seconds (PyFloat (F64.mul (F64.literal 12 10) (F64.of_Z 1000))) = 1200 /\
  whole_seconds (PyFloat (F64.mul (F64.literal 25 10) (F64.of_Z 1000))) = 2500 /\
  1200 <= 2500 /\
  format_timestamp (PyFloat (F64.literal 12 10))
  = Ok (format_int0 2 (1200 / 3600000) +:+ ":" +:+ format_int0 2 (1200 / 60000 mod 60) +:+ ":"
        +:+ format_int0 2 (1200 / 1000 mod 60) +:+ "." +:+ format_int0 3 (1200 mod 1000)) /\
  format_timestamp (PyFloat (F64.literal 25 10))
  = Ok (format_int0 2 (2500 / 3600000) +:+ ":" +:+ format_int0 2 (2500 / 60000 mod 60) +:+ ":"
        +:+ format_int0 2 (2500 / 1000 mod 60) +:+ "." +:+ format_int0 3 (2500 mod 1000)).
Proof.
  assert (Hvx : F64.valid (F64.literal 12 10) = true) by (vm_compute; reflexivity).
  assert (Hvy : F64.valid (F64.literal 25 10) = true) by (vm_compute; reflexivity).
  assert (Hfy : F64.is_finite (F64.literal 25 10) = true) by (vm_compute; reflexivity).
  assert (Hnx : F64.lt0 (F64.literal 12 10) = false) by (vm_compute; reflexivity).
  assert (Hle : SFleb (F64.literal 12 10) (F64.literal 25 10) = true)
    by (vm_compute; reflexivity).
  assert (Hlt : whole_seconds (PyFloat (F64.literal 25 10)) < 2 ^ 43)
    by (vm_compute; reflexivity).
  assert (HPx : whole_seconds (PyFloat (F64.mul (F64.literal 12 10) (F64.of_Z 1000)))
                = 1200) by (vm_compute; reflexivity).
  assert (HPy : whole_seconds (PyFloat (F64.mul (F64.literal 25 10) (F64.of_Z 1000)))
                = 2500) by (vm_compute; reflexivity).
  destruct (format_timestamp_keeps_order _ _ Hvx Hvy Hfy Hnx Hle Hlt) as (H1 & H2 & H3).
  rewrite HPx in H1, H2. rewrite HPy in H1, H3.
  split; [exact HPx|]. split; [exact HPy|]. split; [exact H1|]. split; [exact H2|exact H3].
Defined.

(** X6: which floats [format_timestamp] renders.  On a float that is
    not negative, NaN and the positive infinity included,
    [format_timestamp] returns a string exactly when the float product
    [seconds * 1000] is finite, and raises [ValueError] exactly when it
    is not: when it overflows, or when [seconds] is NaN or infinite.  It
    raises nothing else. *)
Theorem format_timestamp_float_returns_iff (x : spec_float) :
  F64.valid x = true -> F64.lt0 x = false ->
  ((exists t, format_timestamp (PyFloat x) = Ok t) <->
   F64.is_finite (F64.mul x (F64.of_Z 1000)) = true) /\
  (format_timestamp (PyFloat x) = Raise ValueError <->
   F64.is_finite (F64.mul x (F64.of_Z 1000)) = false).
Proof.
  intros Hv Hneg.
  assert (Hcase : F64.is_finite (F64.mul x (F64.of_Z 1000)) = false ->
                  format_timestamp (PyFloat x) = Raise ValueError).
  { destruct (F64.is_finite x) eqn:Hfin; [now apply timestamp_overflow|].
    intros _. destruct x as [s|[]| |s m e]; try discriminate; vm_compute; reflexivity. }
  destruct (F64.is_finite (F64.mul x (F64.of_Z 1000))) eqn:Hmul.
  - assert (Hfin : F64.is_finite x = true).
    { destruct x as [s|s| |s m e]; try reflexivity; discriminate. }
    destruct (timestamp_returns (PyFloat x)) as [t Ht]; [simpl; auto|].
    split; split; try discriminate; eauto. rewrite Ht. discriminate.
  - pose proof (Hcase eq_refl) as Hr.
    split; split; try discriminate; auto. intros [t Ht]. rewrite Hr in Ht. discriminate.
Qed.

(** [4611686018427387 * 2^962], about 1.797e305, is rendered; the float
    after it is refused. *)
Lemma format_timestamp_float_returns_iff_witness :
  (exists t, format_timestamp (PyFloat (S754_finite false 4611686018427387 962)) = Ok t) /\
  format_timestamp (PyFloat (S754_finite false 4611686018427388 962)) = Raise ValueError.
Proof.
  split.
  - apply (proj1 (format_timestamp_float_returns_iff
                    (S754_finite false 4611686018427387 962) eq_refl eq_refl)).
    vm_compute. reflexivity.
  - apply (proj2 (format_timestamp_float_returns_iff
                    (S754_finite false 4611686018427388 962) eq_refl eq_refl)).
    vm_compute. reflexivity.
Defined.

(** X7: below one hundred hours a timestamp has exactly twelve
    characters, for an [int] and for a float alike. *)
Theorem format_timestamp_twelve_characters (s : pynum) :
  seconds_ok s -> whole_seconds s < 360000 ->
  exists t, format_timestamp s = Ok t /\ String.length t = 12%nat.
Proof.
  intros Hok Hlt. destruct s as [n|x]; simpl in Hok, Hlt.
  - pose proof str_limit_pos as HL.
    assert (Hh : 0 <= n / 3600 < 100)
      by (split; [apply Z.div_pos; lia | apply Z.div_lt_upper_bound; lia]).
    eexists. split; [apply timestamp_int_closed; lia|].
    destruct (hms_int n) as (_ & Hm & Hs).
    rewrite !length_app_s, !format_int0_2, format_int0_3; try lia. reflexivity.
  - destruct Hok as (Hv & Hfin & Hneg & _). pose proof F64Facts.U_pos as HU.
    assert (H0 : 0 <= F64.Zval x / F64.U).
    { apply Z.div_pos; [|lia].
      eapply F64Facts.nn_Zval_nonneg, F64Facts.valid_nn; eassumption. }
    eexists. split.
    + apply timestamp_float_closed; try assumption.
      pose proof (Z.div_mod (F64.Zval x) F64.U ltac:(lia)).
      pose proof (Z.mod_pos_bound (F64.Zval x) F64.U HU). nia.
    + destruct (hms_int (F64.Zval x / F64.U)) as (_ & Hm & Hs).
      pose proof (Z.mod_pos_bound (F64.Zval (F64.mul x (F64.of_Z 1000)) / F64.U) 1000
                    ltac:(lia)).
      rewrite !length_app_s, !format_int0_2, format_int0_3; try lia; [reflexivity|].
      split; [apply Z.div_pos; lia | apply Z.div_lt_upper_bound; lia].
Qed.

Lemma format_timestamp_twelve_characters_witness :
  exists t, format_timestamp (PyFloat (F64.literal 36615 10)) = Ok t /\
            String.length t = 12%nat.
Proof.
  apply format_timestamp_twelve_characters.
  - repeat split; vm_compute; reflexivity.
  - vm_compute. reflexivity.
Defined.

(** X8: two different [int]s never get the same timestamp: the string
    returned for one is not returned for the other.  (An [int] too long
    to be rendered gets no timestamp at all.) *)
Theorem format_timestamp_int_distinct (a b : Z) (t : string) :
  a <> b -> format_timestamp (PyInt a) = Ok t -> format_timestamp (PyInt b) <> Ok t.
Proof.
  intros Hab Ha Hb.
  assert (Hform : forall n, format_timestamp (PyInt n) = Ok t ->
            t = format_int0 2 (n / 3600) +:+ ":" +:+ format_int0 2 (n mod 3600 / 60) +:+ ":"
                +:+ format_int0 2 (n mod 60) +:+ "." +:+ format_int0 3 0).
  { intros n Hn. destruct (Z_lt_le_dec (Z.abs (n / 3600)) str_limit) as [Hlt|Hge].
    - rewrite (timestamp_int_closed n Hlt) in Hn. now inversion Hn.
    - rewrite (timestamp_int_refused n Hge) in Hn. discriminate. }
  pose proof (Hform a Ha) as Ea. pose proof (Hform b Hb) as Eb.
  rewrite Ea in Eb. apply timestamp_fields_inj in Eb. destruct Eb as (Hh & Hm & Hs & _).
  destruct (hms_int a) as (Ha' & _). destruct (hms_int b) as (Hb' & _). lia.
Qed.

Lemma format_timestamp_int_distinct_witness :
  format_timestamp (PyInt 59) = Ok "00:00:59.000"%string /\
  format_timestamp (PyInt 60) <> Ok "00:00:59.000"%string.
Proof.
  assert (H : 59 <> 60) by lia.
  assert (H59 : format_timestamp (PyInt 59) = Ok "00:00:59.000"%string)
    by (vm_compute; reflexivity).
  split; [exact H59 | exact (format_timestamp_int_distinct 59 60 _ H H59)].
Defined.

(** X9: [translate_segments] calls the translator once for each segment
    of a prefix of its input, in order, each time with the text of the
    segment and the target language; for every segment when it returns
    a list, and up to the segment whose call raised when it raises.  It
    touches no file and shows nothing. *)
Theorem translate_segments_call_log {Ext : Type}
    (translator_translate : string -> string -> Ext -> res string * Ext)
    (segments : list Segment) (target_lang : string) (w w' : world Ext)
    (r : res (list TranslatedSegment)) :
  translate_segments translator_translate segments target_lang w = (r, w') ->
  files w' = files w /\ ui w' = ui w /\
  exists k, (k <= length segments)%nat /\
    translate_log w'
    = translate_log w ++ map (fun seg => (seg_text seg, target_lang)) (take k segments) /\
    match r with
    | Ok out => k = length segments
    | Raise x => (1 <= k)%nat /\
        exists seg e e', segments !! (k - 1)%nat = Some seg /\
          translator_translate (seg_text seg) target_lang e = (Raise x, e')
    end.
Proof. apply translate_loop_calls. Qed.

Lemma translate_segments_call_log_witness :
  exists w',
    translate_segments Demo.rate_limited Demo.hello_world "fr" (Demo.empty_world 0%nat)
    = (Raise (ExternalError "rate limit"), w') /\
    files w' = ∅ /\ ui w' = [] /\
    translate_log w' = [("Hello", "fr"); ("World", "fr")]%string.
Proof.
  eexists.
  assert (Hrun : translate_segments Demo.rate_limited Demo.hello_world "fr"
                   (Demo.empty_world 0%nat)
                 = (Raise (ExternalError "rate limit"),
                    World ∅ 2%nat [("Hello", "fr"); ("World", "fr")]%string []))
    by (vm_compute; reflexivity).
  split; [exact Hrun|].
  destruct (translate_segments_call_log _ _ _ _ _ _ Hrun) as (Hf & Hu & _).
  split; [exact Hf|]. split; [exact Hu|reflexivity].
Defined.

(** X10: translating a list in two parts.  [translate_segments] on
    [a ++ b] is [translate_segments] on [a] and then, from the state the
    service is left in, on [b], the two results appended; a failure in
    either part is the failure of the whole. *)
Theorem translate_segments_app {Ext : Type}
    (translator_translate : string -> string -> Ext -> res string * Ext)
    (a b : list Segment) (target_lang : string) (w : world Ext) :
  translate_segments translator_translate (a ++ b) target_lang w
  = match translate_segments translator_translate a target_lang w with
    | (Ok out_a, w1) =>
        match translate_segments translator_translate b target_lang w1 with
        | (Ok out_b, w2) => (Ok (out_a ++ out_b), w2)
        | (Raise x, w2) => (Raise x, w2)
        end
    | (Raise x, w1) => (Raise x, w1)
    end.
Proof.
  unfold translate_segments. rewrite translate_loop_app.
  destruct (translate_loop translator_translate a target_lang [] w) as [[out_a|x] w1];
    [|reflexivity].
  apply translate_loop_acc.
Qed.





(** X13: [create_vtt] replaces the file.  When the destination can be
    opened, what the file held before does not show in the result; and
    running [create_vtt] a second time on the same segments changes
    nothing, whether it returns or raises. *)
Theorem create_vtt_replaces_file {Ext : Type} (os_open_w : string -> Ext -> res unit)
    (segments : list TranslatedSegment) (file_path old : string) (w : world Ext) :
  (os_open_w file_path (ext w) = Ok tt ->
   create_vtt os_open_w segments file_path
     (World (<[file_path := old]> (files w)) (ext w) (translate_log w) (ui w))
   = create_vtt os_open_w segments file_path w) /\
  create_vtt os_open_w segments file_path (snd (create_vtt os_open_w segments file_path w))
  = create_vtt os_open_w segments file_path w.
Proof.
  assert (H : forall c, os_open_w file_path (ext w) = Ok tt ->
              create_vtt os_open_w segments file_path
                (World (<[file_path := c]> (files w)) (ext w) (translate_log w) (ui w))
              = create_vtt os_open_w segments file_path w).
  { intros c Hopen. unfold create_vtt, bind at 1 3, open_w. cbn [files ext translate_log ui].
    rewrite Hopen. now rewrite insert_insert_eq. }
  split; [apply H|].
  destruct (create_vtt_shape os_open_w segments file_path w)
    as [(x & _ & Hc)|(Hopen & r & content & Hc)].
  - rewrite Hc at 1. reflexivity.
  - rewrite Hc at 1. cbn [snd]. apply H, Hopen.
Qed.

Lemma create_vtt_replaces_file_witness :
  create_vtt Demo.grants
    [ {| start := Demo.float 0 10; end_ := Demo.float 12 10; text := "Bonjour" |} ]
    "subs.vtt" (World (<["subs.vtt"%string := "old"%string]> ∅) tt [] [])
  = create_vtt Demo.grants
      [ {| start := Demo.float 0 10; end_ := Demo.float 12 10; text := "Bonjour" |} ]
      "subs.vtt" (Demo.empty_world tt).
Proof.
  exact (proj1 (create_vtt_replaces_file Demo.grants
                  [ {| start := Demo.float 0 10; end_ := Demo.float 12 10;
                       text := "Bonjour" |} ]
                  "subs.vtt" "old" (Demo.empty_world tt)) eq_refl).
Defined.



(** X15: where the transcoder cannot be started the job stops in
    [extract_audio].  The three temporary files were made before, the
    first holding the upload and the other two empty; the exception of
    the launch is the exception of the job; the speech model and the
    translator are not called, nothing is shown, and no file is removed:
    the files are as the failed launch left them. *)
Theorem job_aborts_when_transcoder_cannot_start {Ext : Type}
    (spawn : list string -> gmap string string -> Ext -> res Z * gmap string string * Ext)
    (whisper_transcribe : string -> string -> gmap string string -> Ext ->
                          res (list Segment) * Ext)
    (translator_translate : string -> string -> Ext -> res string * Ext)
    (temp_name : string -> gmap string string -> Ext -> string * Ext)
    (b64encode : string -> string)
    (os_open_w : string -> Ext -> res unit)
    (uploaded_video source_lang target_lang video_path temp_audio temp_subs : string)
    (w : world Ext) (e1 e2 e3 e4 : Ext) (fs : gmap string string) (x : exn) :
  temp_name ".mp4" (files w) (ext w) = (video_path, e1) ->
  temp_name ".mp3" (<[video_path := uploaded_video]> (files w)) e1 = (temp_audio, e2) ->
  temp_name ".vtt" (<[temp_audio := EmptyString]> (<[video_path := uploaded_video]> (files w))) e2
  = (temp_subs, e3) ->
  spawn ["ffmpeg"; "-y"; "-i"; video_path; "-vn"; "-acodec"; "mp3"; temp_audio]%string
        (<[temp_subs := EmptyString]>
           (<[temp_audio := EmptyString]> (<[video_path := uploaded_video]> (files w)))) e3
  = (Raise x, fs, e4) ->
  job spawn whisper_transcribe translator_translate temp_name b64encode os_open_w
      uploaded_video source_lang target_lang w
  = (Raise x, World fs e4 (translate_log w) (ui w)).
Proof.
  intros H1 H2 H3 Hs. unfold job.
  apply bind_raise. rewrite (job_prepare_run _ _ _ _ _ _ _ _ _ _ _ _ H1 H2 H3).
  unfold ffmpeg_cmd, temp_files. now rewrite Hs.
Qed.

Lemma job_aborts_when_transcoder_cannot_start_witness :
  job Demo.no_ffmpeg Demo.whisper_hello Sample.echo Demo.temp_name Demo.b64 Demo.grants
      "VIDEO" "en" "fr" (Demo.empty_world 0%nat)
  = (Raise FileNotFoundError,
     World (<["/tmp/tmp.vtt"%string := EmptyString]>
              (<["/tmp/tmp.mp3"%string := EmptyString]>
                 (<["/tmp/tmp.mp4"%string := "VIDEO"%string]> ∅))) 0%nat [] []).
Proof.
  exact (job_aborts_when_transcoder_cannot_start
           Demo.no_ffmpeg Demo.whisper_hello Sample.echo Demo.temp_name Demo.b64 Demo.grants
           "VIDEO" "en" "fr" "/tmp/tmp.mp4" "/tmp/tmp.mp3" "/tmp/tmp.vtt"
           (Demo.empty_world 0%nat) 0%nat 0%nat 0%nat 0%nat _ FileNotFoundError
           eq_refl eq_refl eq_refl eq_refl).
Defined.

(** X16: a transcription that fails ends the job.  Whatever status the
    transcoder ended with, when the speech model raises on the audio
    file the job raises the same exception; the translator is not
    called, nothing is shown and no file is removed. *)
Theorem job_aborts_when_transcription_fails {Ext : Type}
    (spawn : list string -> gmap string string -> Ext -> res Z * gmap string string * Ext)
    (whisper_transcribe : string -> string -> gmap string string -> Ext ->
                          res (list Segment) * Ext)
    (translator_translate : string -> string -> Ext -> res string * Ext)
    (temp_name : string -> gmap string string -> Ext -> string * Ext)
    (b64encode : string -> string)
    (os_open_w : string -> Ext -> res unit)
    (uploaded_video source_lang target_lang video_path temp_audio temp_subs : string)
    (w : world Ext) (e1 e2 e3 e4 e5 : Ext) (fs : gmap string string) (status : Z) (x : exn) :
  temp_name ".mp4" (files w) (ext w) = (video_path, e1) ->
  temp_name ".mp3" (<[video_path := uploaded_video]> (files w)) e1 = (temp_audio, e2) ->
  temp_name ".vtt" (<[temp_audio := EmptyString]> (<[video_path := uploaded_video]> (files w))) e2
  = (temp_subs, e3) ->
  spawn ["ffmpeg"; "-y"; "-i"; video_path; "-vn"; "-acodec"; "mp3"; temp_audio]%string
        (<[temp_subs := EmptyString]>
           (<[temp_audio := EmptyString]> (<[video_path := uploaded_video]> (files w)))) e3
  = (Ok status, fs, e4) ->
  whisper_transcribe temp_audio source_lang fs e4 = (Raise x, e5) ->
  job spawn whisper_transcribe translator_translate temp_name b64encode os_open_w
      uploaded_video source_lang target_lang w
  = (Raise x, World fs e5 (translate_log w) (ui w)).
Proof.
  intros H1 H2 H3 Hs Hw. unfold job.
  apply bind_raise. rewrite (job_prepare_run _ _ _ _ _ _ _ _ _ _ _ _ H1 H2 H3).
  unfold ffmpeg_cmd, temp_files. now rewrite Hs, Hw.
Qed.

Lemma job_aborts_when_transcription_fails_witness :
  job Demo.ffmpeg_no_audio Sample.whisper_rejects Sample.echo Demo.temp_name Demo.b64
      Demo.grants "VIDEO" "en" "fr" (Demo.empty_world 0%nat)
  = (Raise (ExternalError "invalid audio"),
     World (<["/tmp/tmp.vtt"%string := EmptyString]>
              (<["/tmp/tmp.mp3"%string := EmptyString]>
                 (<["/tmp/tmp.mp4"%string := "VIDEO"%string]> ∅))) 0%nat [] []).
Proof.
  exact (job_aborts_when_transcription_fails
           Demo.ffmpeg_no_audio Sample.whisper_rejects Sample.echo Demo.temp_name Demo.b64
           Demo.grants "VIDEO" "en" "fr" "/tmp/tmp.mp4" "/tmp/tmp.mp3" "/tmp/tmp.vtt"
           (Demo.empty_world 0%nat) 0%nat 0%nat 0%nat 0%nat 0%nat _ 1 _
           eq_refl eq_refl eq_refl eq_refl eq_refl).
Defined.

(** X17: the page gets the whole player or nothing.  Whatever the
    transcoder, the speech model, the translator and the file system do,
    at the end of the job the page either shows nothing new, and then
    the job has raised, or shows the rule, the heading, a player and the
    closing message; a job that returns has shown them. *)
Theorem job_page_all_or_nothing {Ext : Type}
    (spawn : list string -> gmap string string -> Ext -> res Z * gmap string string * Ext)
    (whisper_transcribe : string -> string -> gmap string string -> Ext ->
                          res (list Segment) * Ext)
    (translator_translate : string -> string -> Ext -> res string * Ext)
    (temp_name : string -> gmap string string -> Ext -> string * Ext)
    (b64encode : string -> string)
    (os_open_w : string -> Ext -> res unit)
    (uploaded_video source_lang target_lang : string) (w w' : world Ext) (r : res unit) :
  job spawn whisper_transcribe translator_translate temp_name b64encode os_open_w
      uploaded_video source_lang target_lang w = (r, w') ->
  (ui w' = ui w /\ r <> Ok tt) \/
  exists video_b64 subs_b64, ui w' = ui w ++ player_page video_b64 subs_b64 target_lang.
Proof.
  unfold job. intros H. unfold bind at 1 in H.
  destruct (job_prepare spawn whisper_transcribe temp_name uploaded_video source_lang w)
    as [[[[[vp ta] ts] segments]|x] w1] eqn:Hprep;
    destruct (job_prepare_quiet _ _ _ _ _ _ _ _ Hprep) as [Hu1 _];
    [|inversion H; subst; left; split; [exact Hu1|discriminate]].
  unfold bind at 1 in H.
  destruct (translate_segments translator_translate segments target_lang w1)
    as [[out|x] w2] eqn:Htr;
    destruct (translate_loop_calls _ _ _ _ _ _ _ Htr) as (_ & Hu2 & _);
    [|inversion H; subst; left; split; [congruence|discriminate]].
  apply job_finish_page in H. rewrite Hu2, Hu1 in H. exact H.
Qed.

Lemma job_page_all_or_nothing_witness :
  exists w',
    job Demo.ffmpeg_no_audio Demo.whisper_hello Demo.rate_limited Demo.temp_name Demo.b64
        Demo.grants "VIDEO" "en" "fr" (Demo.empty_world 0%nat)
    = (Raise (ExternalError "rate limit"), w') /\
    ui w' = [].
Proof.
  pose (run := job Demo.ffmpeg_no_audio Demo.whisper_hello Demo.rate_limited Demo.temp_name
                 Demo.b64 Demo.grants "VIDEO" "en" "fr" (Demo.empty_world 0%nat)).
  assert (Hrun : run = (Raise (ExternalError "rate limit"), snd run))
    by (vm_compute; reflexivity).
  exists (snd run). split; [exact Hrun|].
  destruct (job_page_all_or_nothing _ _ _ _ _ _ _ _ _ _ _ _ Hrun)
    as [[Hui _]|(v & s & Hui)]; [exact Hui|].
  exfalso. apply (f_equal length) in Hui. vm_compute in Hui. discriminate.
Defined.
